(** * xb-date: the Date Value factory of [src/date-factory.js]

    A shallow embedding of [XBDateFactory] and of the part of the
    JavaScript [Date] primitive it is written against, followed by the
    properties of the factory's operations.

    Conventions of the embedding.
    - A JavaScript number that the factory handles is either an integer or
      NaN: it is a [Number], [None] standing for NaN.  Every integer that
      occurs (time values are bounded by 8.64e15, below 2^53) is exactly
      representable as a double, so integer arithmetic on [Z] is the
      arithmetic of the code.
    - A [Date] object is a mutable cell holding a time value; the cells live
      in a [Heap] and are named by locations, so that aliasing between a Date
      Value and the raw [Date] it closes over is visible.
    - Code that can throw runs in the monad [M], a state monad over the heap
      with a [TypeError] outcome. *)

From Stdlib Require Import ZArith Lia Bool List String Ascii.
From stdpp Require Import base option list.
Import ListNotations.
Local Open Scope Z_scope.

(** A JavaScript number restricted to the integers and NaN. *)
Abbreviation Number := (option Z).
Definition NaN : Number := None.

(** Arithmetic on numbers: NaN is absorbing. *)
Definition num_add (a b : Number) : Number :=
  match a, b with
  | Some x, Some y => Some (x + y)
  | _, _ => NaN
  end.

Definition num_mul (a b : Number) : Number :=
  match a, b with
  | Some x, Some y => Some (x * y)
  | _, _ => NaN
  end.

(** ** The [Date] primitive (ECMA-262, "Date Objects")

    The abstract operations of the standard, on integer time values
    (milliseconds since the epoch, UTC). *)
Module JSDate.

Definition msPerDay : Z := 86400000.
Definition msPerHour : Z := 3600000.
Definition msPerMinute : Z := 60000.
Definition msPerSecond : Z := 1000.

(** The largest magnitude of a time value: 100,000,000 days. *)
Definition maxTime : Z := 8640000000000000.

Definition Day (t : Z) : Z := t / msPerDay.
Definition TimeWithinDay (t : Z) : Z := t mod msPerDay.

Definition DaysInYear (y : Z) : Z :=
  if negb (y mod 4 =? 0) then 365
  else if negb (y mod 100 =? 0) then 366
  else if negb (y mod 400 =? 0) then 365
  else 366.

Definition DayFromYear (y : Z) : Z :=
  365 * (y - 1970) + (y - 1969) / 4 - (y - 1901) / 100 + (y - 1601) / 400.

Definition TimeFromYear (y : Z) : Z := msPerDay * DayFromYear y.

(** The year of a day number.  The standard defines the year as the largest
    [y] with [TimeFromYear y <= t]; the executable form estimates it from
    the mean length of a Gregorian year (146097 days in 400 years) and
    corrects the estimate by at most one, see [YearFromTime_spec]. *)
Definition YearFromDay (d : Z) : Z :=
  let y := 1970 + (d * 400) / 146097 in
  if d <? DayFromYear y then y - 1
  else if DayFromYear (y + 1) <=? d then y + 1
  else y.

Definition YearFromTime (t : Z) : Z := YearFromDay (Day t).

Definition InLeapYear (t : Z) : Z :=
  if DaysInYear (YearFromTime t) =? 366 then 1 else 0.

Definition DayWithinYear (t : Z) : Z := Day t - DayFromYear (YearFromTime t).

(** The day within the year on which month [m] (0 = January) starts;
    [leap] is 1 in a leap year and 0 otherwise.  Month 12 is the start of
    the next year. *)
Definition monthStart (m leap : Z) : Z :=
  if m <=? 0 then 0
  else if m =? 1 then 31
  else if m =? 2 then 59 + leap
  else if m =? 3 then 90 + leap
  else if m =? 4 then 120 + leap
  else if m =? 5 then 151 + leap
  else if m =? 6 then 181 + leap
  else if m =? 7 then 212 + leap
  else if m =? 8 then 243 + leap
  else if m =? 9 then 273 + leap
  else if m =? 10 then 304 + leap
  else if m =? 11 then 334 + leap
  else 365 + leap.

Definition MonthFromTime (t : Z) : Z :=
  let d := DayWithinYear t in
  let leap := InLeapYear t in
  if d <? 31 then 0
  else if d <? 59 + leap then 1
  else if d <? 90 + leap then 2
  else if d <? 120 + leap then 3
  else if d <? 151 + leap then 4
  else if d <? 181 + leap then 5
  else if d <? 212 + leap then 6
  else if d <? 243 + leap then 7
  else if d <? 273 + leap then 8
  else if d <? 304 + leap then 9
  else if d <? 334 + leap then 10
  else 11.

Definition DateFromTime (t : Z) : Z :=
  let d := DayWithinYear t in
  let leap := InLeapYear t in
  let m := MonthFromTime t in
  if m =? 0 then d + 1
  else if m =? 1 then d - 30
  else if m =? 2 then d - 58 - leap
  else if m =? 3 then d - 89 - leap
  else if m =? 4 then d - 119 - leap
  else if m =? 5 then d - 150 - leap
  else if m =? 6 then d - 180 - leap
  else if m =? 7 then d - 211 - leap
  else if m =? 8 then d - 242 - leap
  else if m =? 9 then d - 272 - leap
  else if m =? 10 then d - 303 - leap
  else d - 333 - leap.

Definition WeekDay (t : Z) : Z := (Day t + 4) mod 7.

Definition HourFromTime (t : Z) : Z := (t / msPerHour) mod 24.
Definition MinFromTime (t : Z) : Z := (t / msPerMinute) mod 60.
Definition SecFromTime (t : Z) : Z := (t / msPerSecond) mod 60.
Definition msFromTime (t : Z) : Z := t mod msPerSecond.

Definition MakeTime (hour min sec ms : Z) : Z :=
  hour * msPerHour + min * msPerMinute + sec * msPerSecond + ms.

(** [MakeDay]: months outside 0..11 carry into the year, and the date is
    added as a plain day count, which is the overflow rule of the
    primitive. *)
Definition MakeDay (year month date : Z) : Z :=
  let ym := year + month / 12 in
  let mn := month mod 12 in
  let leap := if DaysInYear ym =? 366 then 1 else 0 in
  DayFromYear ym + monthStart mn leap + date - 1.

Definition MakeDate (day time : Z) : Z := day * msPerDay + time.

(** A time value: an integer within [maxTime] of the epoch, or NaN (the
    "Invalid Date"). *)
Abbreviation TimeValue := (option Z).

Definition TimeClip (t : Z) : TimeValue :=
  if maxTime <? Z.abs t then None else Some t.

(** Two-digit years are taken in the twentieth century by the
    constructors (but not by the setters). *)
Definition fullYear (y : Z) : Z :=
  if (0 <=? y) && (y <=? 99) then 1900 + y else y.

(** [Date.UTC(year, month, date, hours, minutes, seconds, ms)]. *)
Definition UTC (year month date hours minutes seconds ms : Number)
  : TimeValue :=
  y ← year; m ← month; dt ← date;
  h ← hours; mi ← minutes; s ← seconds; milli ← ms;
  TimeClip (MakeDate (MakeDay (fullYear y) m dt) (MakeTime h mi s milli)).

(** [new Date(year, month, date, hours, minutes, seconds, ms)]: the fields
    are read as local time; [tza t] is the offset of local time from UTC,
    in milliseconds, at local time [t]. *)
Definition construct_local (tza : Z -> Z)
  (year month date hours minutes seconds ms : Number) : TimeValue :=
  y ← year; m ← month; dt ← date;
  h ← hours; mi ← minutes; s ← seconds; milli ← ms;
  let finalDate :=
    MakeDate (MakeDay (fullYear y) m dt) (MakeTime h mi s milli) in
  TimeClip (finalDate - tza finalDate).

(** The UTC getters of a [Date]; NaN on an invalid date. *)
Definition getUTCFullYear (tv : TimeValue) : Number := YearFromTime <$> tv.
Definition getUTCMonth (tv : TimeValue) : Number := MonthFromTime <$> tv.
Definition getUTCDate (tv : TimeValue) : Number := DateFromTime <$> tv.
Definition getUTCDay (tv : TimeValue) : Number := WeekDay <$> tv.
Definition getUTCHours (tv : TimeValue) : Number := HourFromTime <$> tv.
Definition getUTCMinutes (tv : TimeValue) : Number := MinFromTime <$> tv.
Definition getUTCSeconds (tv : TimeValue) : Number := SecFromTime <$> tv.
Definition getUTCMilliseconds (tv : TimeValue) : Number := msFromTime <$> tv.
Definition getTime (tv : TimeValue) : Number := tv.

(** The UTC setters, as functions from the old to the new time value.
    [setUTCFullYear] restarts an invalid date from the epoch; the other
    two leave it invalid. *)
Definition setUTCFullYear (tv : TimeValue) (year : Number) : TimeValue :=
  let t := default 0 tv in
  y ← year;
  TimeClip (MakeDate (MakeDay y (MonthFromTime t) (DateFromTime t))
                     (TimeWithinDay t)).

Definition setUTCMonth (tv : TimeValue) (month : Number) : TimeValue :=
  t ← tv; m ← month;
  TimeClip (MakeDate (MakeDay (YearFromTime t) m (DateFromTime t))
                     (TimeWithinDay t)).

Definition setUTCDate (tv : TimeValue) (date : Number) : TimeValue :=
  t ← tv; dt ← date;
  TimeClip (MakeDate (MakeDay (YearFromTime t) (MonthFromTime t) dt)
                     (TimeWithinDay t)).

End JSDate.

Import JSDate.

(** ** Numbers and strings

    [String(value)] on an integer or NaN, [padStart], and [Number(string)]
    on the strings that joining such renderings can produce: an optional
    minus sign followed by decimal digits; anything else (in particular the
    text of NaN) is not a number. *)

Local Open Scope string_scope.

(** The digit characters, by code: "0" is 48. *)
Definition digit_char (n : Z) : ascii :=
  ascii_of_nat (48 + Z.to_nat n).

Definition digit_val (c : ascii) : option Z :=
  let k := (Z.of_nat (nat_of_ascii c) - 48)%Z in
  if ((0 <=? k) && (k <=? 9))%Z then Some k else None.

(** The decimal digits of a natural number, most significant first;
    [fuel] bounds the number of digits. *)
Fixpoint digits (fuel : nat) (n : Z) : string :=
  match fuel with
  | O => ""
  | S f =>
      if (n <? 10)%Z then String (digit_char n) ""
      else digits f (n / 10) ++ String (digit_char (n mod 10)) ""
  end.

Definition String_of_Z (n : Z) : string :=
  if (n <? 0)%Z then String "-" (digits (S (Z.to_nat (Z.log2 (- n)))) (- n))
  else digits (S (Z.to_nat (Z.log2 n))) n.

Definition String_of_Number (v : Number) : string :=
  match v with
  | Some n => String_of_Z n
  | None => "NaN"
  end.

Fixpoint repeat_char (c : ascii) (n : nat) : string :=
  match n with
  | O => ""
  | S k => String c (repeat_char c k)
  end.

Definition padStart (s : string) (maxLength : nat) (fill : ascii) : string :=
  repeat_char fill (maxLength - String.length s) ++ s.

Fixpoint parse_digits (acc : Z) (s : string) : Number :=
  match s with
  | EmptyString => Some acc
  | String c s' =>
      match digit_val c with
      | Some d => parse_digits (acc * 10 + d) s'
      | None => NaN
      end
  end.

Definition Number_of_string (s : string) : Number :=
  match s with
  | EmptyString => Some 0%Z
  | String c s' =>
      if (c =? "-")%char then
        match s' with
        | EmptyString => NaN
        | _ => Z.opp <$> parse_digits 0 s'
        end
      else parse_digits 0 s
  end.

Local Close Scope string_scope.

(** ** The heap of [Date] objects and the monad of the code *)

Abbreviation loc := nat.

(** One cell per [Date] object: its time value. *)
Abbreviation Heap := (list TimeValue).

Inductive Error := TypeError.

Inductive Outcome (A : Type) :=
| Ok (a : A) (h : Heap)
| Throw (e : Error).
Arguments Ok {A} a h.
Arguments Throw {A} e.

Definition M (A : Type) : Type := Heap -> Outcome A.

Definition ret {A} (a : A) : M A := fun h => Ok a h.

Definition bind {A B} (m : M A) (k : A -> M B) : M B :=
  fun h =>
    match m h with
    | Ok a h' => k a h'
    | Throw e => Throw e
    end.

Definition throw {A} (e : Error) : M A := fun _ => Throw e.

Declare Scope js_scope.
Delimit Scope js_scope with js.
Notation "'let*' x ':=' m 'in' k" := (bind m (fun x => k))
  (at level 10, x name, m at level 100, k at level 200) : js_scope.
Local Open Scope js_scope.

(** [new Date(...)] allocates a cell; the getters read the cell of their
    receiver and the setters overwrite it. *)
Definition alloc (tv : TimeValue) : M loc :=
  fun h => Ok (length h) (h ++ [tv]).

Definition deref (h : Heap) (l : loc) : TimeValue := default None (h !! l).

Definition read (l : loc) : M TimeValue := fun h => Ok (deref h l) h.

Definition write (l : loc) (tv : TimeValue) : M unit :=
  fun h => Ok tt (<[l := tv]> h).

(** ** The environment of the primitive

    What [Date] takes from its host: the clock read by [new Date()], the
    offset of local time from UTC (in milliseconds, as a function of the
    local time), and the parser behind [new Date(string)]. *)
Record Env := {
  now : Z;
  localTZA : Z -> Z;
  parse : string -> Number;
}.

(** ** The types of the source ([src/types]) *)

Inductive DateUnit := year | month | day.

Definition DateUnit_eqb (a b : DateUnit) : bool :=
  match a, b with
  | year, year | month, month | day, day => true
  | _, _ => false
  end.

(** [InputDate]: a number, a string or a [Date] object, of which the
    factory reads the time value.  An argument that is [undefined] or
    [null] is [None : option InputDate]. *)
Inductive InputDate :=
| Timestamp (n : Number)
| DateString (s : string)
| DateObject (tv : TimeValue).

(** [XBDateFactoryOptions]; a key that is not given is [None]. *)
Record XBDateFactoryOptions := { normalize : option bool }.

(** [DateOperationInput]: an object literal with unit keys, in insertion
    order. *)
Definition DateOperationInput := list (DateUnit * Number).

Definition Object_keys (o : DateOperationInput) : list DateUnit := o.*1.

Fixpoint prop (o : DateOperationInput) (key : DateUnit) : option Number :=
  match o with
  | [] => None
  | (k, v) :: o' => if DateUnit_eqb k key then Some v else prop o' key
  end.

(** A Date Value: the object the factory returns, a record of closures
    over the one [Date] cell [utcDate]. *)
Record XBDate := { utcDate : loc }.

(** What [add] and [subtract] hand around: a raw [Date] or a Date Value. *)
Inductive Value :=
| RawDate (l : loc)
| DateValue (x : XBDate).

(** ** [XBDateFactory]

    Of the [Date] objects the factory creates, only [utcDate] outlives the
    call (the closures and [get] hold it): it is the one cell allocated.
    The [Date]s that are only read on the way are time values. *)

Definition DEFAULT_OPTIONS : XBDateFactoryOptions :=
  {| normalize := Some true |}.

(** [{ ...a, ...b }] *)
Definition spread (a b : XBDateFactoryOptions) : XBDateFactoryOptions :=
  {| normalize := match normalize b with
                  | Some v => Some v
                  | None => normalize a
                  end |}.

Definition truthy (b : option bool) : bool := default false b.

(** [new Date()]: the current time. *)
Definition new_Date_now (env : Env) : TimeValue := TimeClip (now env).

(** [new Date(value)]: the time value of a [Date], the parse of a string
    or the number itself, clipped to the range of time values. *)
Definition new_Date (env : Env) (value : InputDate) : TimeValue :=
  match value with
  | Timestamp n => n ≫= TimeClip
  | DateString s => parse env s ≫= TimeClip
  | DateObject tv => tv ≫= TimeClip
  end.

Definition normalizeToUTC (env : Env) (dateArg : option InputDate)
    (options : XBDateFactoryOptions) : TimeValue :=
  let date :=
    match dateArg with
    | Some value => new_Date env value
    | None => new_Date_now env
    end in
  let norm := truthy (normalize options) in
  new_Date env (Timestamp (
    UTC (getUTCFullYear date)
        (getUTCMonth date)
        (getUTCDate date)
        (if norm then Some 12 else getUTCHours date)
        (if norm then Some 0 else getUTCMinutes date)
        (if norm then Some 0 else getUTCSeconds date)
        (if norm then Some 0 else getUTCMilliseconds date))).

Definition XBDateFactory (env : Env) (dateArg : option InputDate)
    (optionsArg : option XBDateFactoryOptions) : M XBDate :=
  let options :=
    spread DEFAULT_OPTIONS (default DEFAULT_OPTIONS optionsArg) in
  let* l := alloc (normalizeToUTC env dateArg options) in
  ret {| utcDate := l |}.

(** The module-level helper [add(date, unit, value)].  It reads the UTC
    fields of [date] with the getters of [Date]: on a Date Value, which has
    no such method, the call is a [TypeError]. *)
Definition add (env : Env) (date : Value) (unit : DateUnit)
    (value : Number) : M Value :=
  match date with
  | RawDate l =>
      let* tv := read l in
      let increment (u : DateUnit) : Number :=
        if DateUnit_eqb unit u then value else Some 0 in
      let newDate :=
        construct_local (localTZA env)
          (num_add (getUTCFullYear tv) (increment year))
          (num_add (getUTCMonth tv) (increment month))
          (num_add (getUTCDate tv) (increment day))
          (getUTCHours tv)
          (getUTCMinutes tv)
          (getUTCSeconds tv)
          (getUTCMilliseconds tv) in
      let* x := XBDateFactory env (Some (DateObject newDate)) None in
      ret (DateValue x)
  | DateValue _ => throw TypeError
  end.

(** [array.reduce(f, init)] in [M]. *)
Fixpoint reduce {A B} (f : B -> A -> M B) (l : list A) (init : B) : M B :=
  match l with
  | [] => ret init
  | a :: l' => let* b := f init a in reduce f l' b
  end.

(** ** Constraints

    A constraint is resolved to an evaluator, a function from a Date Value
    to a boolean; a predicate constraint is caller code and may do
    anything a caller can do with the Date Value it is given. *)
Definition Evaluator := XBDate -> M bool.

Inductive DateConstraint :=
| SingleDateConstraint (date : InputDate)
| DateRangeConstraint (start finish : InputDate)
| FunctionDateConstraint (f : Evaluator).

(** Modelled from the spec: [isEmpty] of [src/is-empty.js], which is not
    among the sources, "returns true iff the given sequence has zero
    elements or is null/undefined"; a rest parameter is always an array. *)
Definition isEmpty {A} (sequence : list A) : bool :=
  match sequence with
  | [] => true
  | _ :: _ => false
  end.

(** [array.some(f)] in [M]: stops at the first element [f] accepts. *)
Fixpoint some {A} (f : A -> M bool) (l : list A) : M bool :=
  match l with
  | [] => ret false
  | a :: l' => let* b := f a in if b then ret true else some f l'
  end.

(** ** The methods of a Date Value *)
Module XB.

Definition get (x : XBDate) : loc := utcDate x.

(** The accessors read the cell of the receiver in the current heap. *)
Definition getYear (x : XBDate) (h : Heap) : Number :=
  getUTCFullYear (deref h (utcDate x)).
Definition getMonth (x : XBDate) (h : Heap) : Number :=
  getUTCMonth (deref h (utcDate x)).
Definition getDate (x : XBDate) (h : Heap) : Number :=
  getUTCDate (deref h (utcDate x)).
Definition getTime (x : XBDate) (h : Heap) : Number :=
  JSDate.getTime (deref h (utcDate x)).
Definition getWeekday (x : XBDate) (h : Heap) : Number :=
  getUTCDay (deref h (utcDate x)).
Definition getHours (x : XBDate) (h : Heap) : Number :=
  getUTCHours (deref h (utcDate x)).
Definition getMinutes (x : XBDate) (h : Heap) : Number :=
  getUTCMinutes (deref h (utcDate x)).
Definition getSeconds (x : XBDate) (h : Heap) : Number :=
  getUTCSeconds (deref h (utcDate x)).

(** [summands[key]]; a missing property reads as [undefined], which is NaN
    in arithmetic. *)
Definition at_key (o : DateOperationInput) (key : DateUnit) : Number :=
  default NaN (prop o key).

(** [subtract(subtrahends)] and [add(summands)]: a fold of the helper
    [add] over the keys, which starts from the raw [utcDate]. *)
Definition subtract (env : Env) (x : XBDate)
    (subtrahends : option DateOperationInput) : M Value :=
  let o := default [] subtrahends in
  reduce (fun newDate key =>
            add env newDate key (num_mul (Some (-1)) (at_key o key)))
         (Object_keys o) (RawDate (utcDate x)).

Definition add (env : Env) (x : XBDate)
    (summands : option DateOperationInput) : M Value :=
  let o := default [] summands in
  reduce (fun newDate key => add env newDate key (at_key o key))
         (Object_keys o) (RawDate (utcDate x)).

(** The object [newValue] of [set],
    [{ year: ..., month: ..., day: ..., ...(values || {}) }]: the three
    fields of the receiver, overridden by the fields that are given. *)
Definition newValue (tv : TimeValue) (values : option DateOperationInput)
  : DateOperationInput :=
  let o := default [] values in
  [ (year, default (getUTCFullYear tv) (prop o year));
    (month, default (getUTCMonth tv) (prop o month));
    (day, default (getUTCDate tv) (prop o day)) ].

(** [set(values)]: the three setters of [Date] run one after the other on
    the cell of the receiver, and the receiver is returned. *)
Definition set (x : XBDate) (values : option DateOperationInput)
  : M XBDate :=
  let* tv := read (utcDate x) in
  let newValue := newValue tv values in
  let* t0 := read (utcDate x) in
  let* _ := write (utcDate x) (setUTCFullYear t0 (at_key newValue year)) in
  let* t1 := read (utcDate x) in
  let* _ := write (utcDate x) (setUTCMonth t1 (at_key newValue month)) in
  let* t2 := read (utcDate x) in
  let* _ := write (utcDate x) (setUTCDate t2 (at_key newValue day)) in
  ret x.

(** [matches(...constraints)]; [getConstraintEvaluator] is the resolver of
    [src/date-constraints.js]. *)
Definition matches (env : Env)
    (getConstraintEvaluator : DateConstraint -> Evaluator)
    (x : XBDate) (constraints : list DateConstraint) : M bool :=
  if isEmpty constraints then ret false
  else
    let constraintEvaluators := map getConstraintEvaluator constraints in
    let* tv := read (utcDate x) in
    let* date := XBDateFactory env (Some (DateObject tv)) None in
    some (fun evaluator => evaluator date) constraintEvaluators.

(** *** [is(operator, otherDate, precision)] *)

Definition getSafeOperator (operator : string) : string :=
  if negb (existsb (String.eqb operator) [">="; ">"; "="; "<"; "<="]%string)
     || (operator =? "=")%string
  then "==="%string
  else operator.

Definition padded (value : Number) (maxLength : nat) : string :=
  padStart (String_of_Number value) maxLength "0"%char.

Definition COMPARE_TO (precision : DateUnit) : nat :=
  match precision with
  | year => 1
  | month => 2
  | day => 3
  end.

Definition getComparableDate (date : TimeValue) (precision : DateUnit)
  : string :=
  String.concat ""
    (take (COMPARE_TO precision)
       [ String_of_Number (getUTCFullYear date);
         padded (getUTCMonth date) 2;
         padded (getUTCDate date) 2 ]).

(** The value of the expression [(a op b)] that [compare] builds as text
    and evaluates, for the operator texts that make it a comparison: the
    operands are read back from their texts, and a comparison with NaN is
    false.  Any other operator text is no such expression (most are a
    [SyntaxError]): [None]. *)
Definition evaluate (op : string) (a b : Number) : option bool :=
  let test (f : Z -> Z -> bool) : option bool :=
    Some match a, b with
         | Some va, Some vb => f va vb
         | _, _ => false
         end in
  if (op =? ">=")%string then test (fun va vb => vb <=? va)%Z
  else if (op =? ">")%string then test (fun va vb => vb <? va)%Z
  else if (op =? "<")%string then test (fun va vb => va <? vb)%Z
  else if (op =? "<=")%string then test (fun va vb => va <=? vb)%Z
  else if (op =? "===")%string then test (fun va vb => va =? vb)%Z
  else None.

(** [compare(a, b)]: the text of [a], the safe operator and the text of
    [b] are joined into an expression, which is evaluated.  The safe
    operator is always one of the five texts [evaluate] knows, so the
    default is never taken. *)
Definition compare (operator : string) (a b : Number) : bool :=
  default false
    (evaluate (getSafeOperator operator)
       (Number_of_string (String_of_Number a))
       (Number_of_string (String_of_Number b))).

Definition is_ (operator : string) (otherDate : XBDate)
    (precision : option DateUnit) (x : XBDate) (h : Heap) : bool :=
  let precision := default day precision in
  compare operator
    (Number_of_string (getComparableDate (deref h (utcDate x)) precision))
    (Number_of_string
       (getComparableDate (deref h (get otherDate)) precision)).

End XB.

(** ** Vocabulary of the properties *)

(** The instant the factory reads from its argument: [new Date(dateArg)],
    or the current time when there is no argument.  The argument is valid
    when this is not the invalid date. *)
Definition input_date (env : Env) (dateArg : option InputDate) : TimeValue :=
  match dateArg with
  | Some value => new_Date env value
  | None => new_Date_now env
  end.

(** Whether the factory normalizes under the given options argument. *)
Definition normalizes (optionsArg : option XBDateFactoryOptions) : bool :=
  truthy (normalize
            (spread DEFAULT_OPTIONS (default DEFAULT_OPTIONS optionsArg))).

(** Noon: the time within the day of 12:00:00.000. *)
Definition noon : Z := MakeTime 12 0 0 0.

(** A host in UTC, and a host thirteen hours ahead of UTC (the offset of
    Pacific/Tongatapu); neither parses any string. *)
Definition utc_env : Env :=
  {| now := 1710504000000; localTZA := fun _ => 0; parse := fun _ => NaN |}.

Definition tongatapu_env : Env :=
  {| now := 1710504000000;
     localTZA := fun _ => 13 * msPerHour;
     parse := fun _ => NaN |}.

(** 2024-03-15T00:00:00.000Z and 2024-03-15T20:30:15.250Z. *)
Definition t_2024_03_15 : Z := 1710460800000.
Definition t_2024_03_15_evening : Z := 1710534615250.

(** The calendar fields of an instant down to a precision, and the
    calendar order at that precision: the lexicographic order of the
    fields. *)
Definition calendar_fields (t : Z) (precision : DateUnit) : list Z :=
  take (XB.COMPARE_TO precision)
    [YearFromTime t; MonthFromTime t; DateFromTime t].

Fixpoint lex_compare (a b : list Z) : comparison :=
  match a, b with
  | [], [] => Eq
  | [], _ :: _ => Lt
  | _ :: _, [] => Gt
  | x :: a', y :: b' =>
      match x ?= y with
      | Eq => lex_compare a' b'
      | c => c
      end
  end.

Definition calendar_compare (precision : DateUnit) (t u : Z) : comparison :=
  lex_compare (calendar_fields t precision) (calendar_fields u precision).

(** The number the comparable of an instant reads as: the digits of the
    year followed by two digits for each further field, with the sign of
    the year in front. *)
Definition comparable_number (t : Z) (precision : DateUnit) : Z :=
  let body (y : Z) :=
    match precision with
    | year => y
    | month => y * 100 + MonthFromTime t
    | day => (y * 100 + MonthFromTime t) * 100 + DateFromTime t
    end in
  if YearFromTime t <? 0 then - body (- YearFromTime t)
  else body (YearFromTime t).

(** The first and the last day of the year -1: -000001-01-01 and
    -000001-12-31, at midnight UTC. *)
Definition t_minus1_01_01 : Z := -62198755200000.
Definition t_minus1_12_31 : Z := -62167305600000.

(** [a === b] on numbers: NaN is equal to nothing. *)
Definition strict_equal (a b : Number) : bool :=
  match a, b with
  | Some va, Some vb => va =? vb
  | _, _ => false
  end.

(** The operators [is] recognizes. *)
Definition operators : list string := [">="; ">"; "="; "<"; "<="]%string.

(** The number [is] compares for a Date Value. *)
Definition comparable_of (x : XBDate) (precision : option DateUnit)
    (h : Heap) : Number :=
  Number_of_string
    (XB.getComparableDate (deref h (utcDate x)) (default day precision)).

(** Modelled from the spec: [getConstraintEvaluator] of
    [src/date-constraints.js], which is not among the sources.  A function
    is returned unchanged; a range gives "an evaluator that is true iff the
    candidate's day-precision comparable value lies between the start's and
    end's comparable values, inclusive on both ends"; anything else is a
    single date and gives "an evaluator that is true iff the candidate
    equals the given date at day precision". *)
Definition getConstraintEvaluator (env : Env) (constraint : DateConstraint)
  : Evaluator :=
  let comparable (date : InputDate) : Number :=
    Number_of_string
      (XB.getComparableDate
         (normalizeToUTC env (Some date) DEFAULT_OPTIONS) day) in
  match constraint with
  | FunctionDateConstraint f => f
  | DateRangeConstraint start finish =>
      fun candidate h =>
        Ok (XB.compare ">=" (comparable_of candidate (Some day) h)
              (comparable start)
            && XB.compare "<=" (comparable_of candidate (Some day) h)
                 (comparable finish)) h
  | SingleDateConstraint date =>
      fun candidate h =>
        Ok (XB.compare "=" (comparable_of candidate (Some day) h)
              (comparable date)) h
  end.

(** An evaluator that only reads: it returns a boolean and leaves the heap
    as it is. *)
Definition read_only (ev : Evaluator) : Prop :=
  forall d h, exists b, ev d h = Ok b h.

(** An evaluator that writes to no [Date] that existed before the call
    other than the one of the Date Value it is given. *)
Definition confined (ev : Evaluator) : Prop :=
  forall d h b h',
    ev d h = Ok b h' ->
    (length h <= length h')%nat /\
    forall l, (l < length h)%nat -> l <> utcDate d ->
              deref h' l = deref h l.

(** Two caller predicates: one reports whether the hour it observes is
    12, the other sets the day of the month of its argument to 1. *)
Definition observes_noon : Evaluator :=
  fun d h =>
    Ok (match XB.getHours d h with
        | Some hour => hour =? 12
        | None => false
        end) h.

Definition sets_day_1 : Evaluator :=
  fun d =>
    let* _ := XB.set d (Some [(day, Some 1)]) in
    ret true.

(** The cell [set] leaves behind: the three setters applied in turn to
    the time value of the receiver, with the fields of [newValue]. *)
Definition set_result (tv : TimeValue) (values : option DateOperationInput)
  : TimeValue :=
  let nv := XB.newValue tv values in
  setUTCDate
    (setUTCMonth (setUTCFullYear tv (XB.at_key nv year))
                 (XB.at_key nv month))
    (XB.at_key nv day).

(** 2023-12-31T00:00:00.000Z, 0100-01-01T00:00:00.000Z and
    2000-01-01T00:00:00.000Z. *)
Definition t_2023_12_31 : Z := 1703980800000.
Definition t_0100_01_01 : Z := -59011459200000.
Definition t_2000_01_01 : Z := 946684800000.

(** The mapping with every amount negated. *)
Definition negated (o : DateOperationInput) : DateOperationInput :=
  map (fun kv => (kv.1, num_mul (Some (-1)) kv.2)) o.

(** ** Further vocabulary *)

(** 1 in a leap year and 0 otherwise, and the number of days of month [m]
    (0 = January). *)
Definition leapOf (y : Z) : Z := if DaysInYear y =? 366 then 1 else 0.

Definition DaysInMonth (m leap : Z) : Z :=
  monthStart (m + 1) leap - monthStart m leap.

(** 0050-06-15T10:20:30.400Z. *)
Definition t_0050_06_15 : Z := -60575002769600.

(** A time value the primitive can hold: NaN or an integer within
    [maxTime] of the epoch; a heap all of whose [Date]s hold such values. *)
Definition in_range (tv : TimeValue) : Prop :=
  match tv with
  | Some t => Z.abs t <= maxTime
  | None => True
  end.

Definition heap_in_range (h : Heap) : Prop := Forall in_range h.

(** An evaluator that keeps the [Date]s in range. *)
Definition keeps_range (ev : Evaluator) : Prop :=
  forall d h b h', heap_in_range h -> ev d h = Ok b h' -> heap_in_range h'.

(** The increment of [add] for the field [u] when [n] is added to [unit],
    and the day [new Date] is asked for. *)
Definition increment_of (unit u : DateUnit) (n : Z) : Z :=
  if DateUnit_eqb unit u then n else 0.

Definition target_day (t : Z) (unit : DateUnit) (n : Z) : Z :=
  MakeDay (YearFromTime t + increment_of unit year n)
          (MonthFromTime t + increment_of unit month n)
          (DateFromTime t + increment_of unit day n).

(** Local time is such that the UTC time of day of [t], read as a local
    time, falls on the same UTC day. *)
Definition local_reading_keeps_day (env : Env) (t : Z) : Prop :=
  forall u, 0 <= TimeWithinDay t - localTZA env u < msPerDay.

(** 2024-01-31T12:00:00.000Z and 2024-02-29T12:00:00.000Z. *)
Definition t_2024_01_31_noon : Z := 1706702400000.
Definition t_2024_02_29_noon : Z := 1709208000000.

(** What a call of [set] gives for a field: [None] when the mapping (or
    the missing argument) has no such key. *)
Definition given (values : option DateOperationInput) (u : DateUnit)
  : option Number :=
  prop (default [] values) u.

(** ** [toString]

    [Date.prototype.toISOString]: a [RangeError] on an invalid date, and
    otherwise the text [YYYY-MM-DDTHH:mm:ss.sssZ], with the year in four
    digits from 0 to 9999 and in six digits after its sign outside. *)
Inductive ISOResult := ISOString (s : string) | RangeError.

Local Open Scope string_scope.

Definition isoYear (y : Z) : string :=
  if ((0 <=? y) && (y <=? 9999))%Z
  then padStart (String_of_Z y) 4 "0"%char
  else String (if (y <? 0)%Z then "-"%char else "+"%char)
              (padStart (String_of_Z (Z.abs y)) 6 "0"%char).

Definition isoDate (t : Z) : string :=
  isoYear (YearFromTime t) ++ "-"
  ++ padStart (String_of_Z (MonthFromTime t + 1)) 2 "0"%char ++ "-"
  ++ padStart (String_of_Z (DateFromTime t)) 2 "0"%char.

Definition isoTime (t : Z) : string :=
  padStart (String_of_Z (HourFromTime t)) 2 "0"%char ++ ":"
  ++ padStart (String_of_Z (MinFromTime t)) 2 "0"%char ++ ":"
  ++ padStart (String_of_Z (SecFromTime t)) 2 "0"%char ++ "."
  ++ padStart (String_of_Z (msFromTime t)) 3 "0"%char.

Definition toISOString (tv : TimeValue) : ISOResult :=
  match tv with
  | Some t => ISOString (isoDate t ++ "T" ++ isoTime t ++ "Z")
  | None => RangeError
  end.

Local Close Scope string_scope.

(** [toString()] of a Date Value. *)
Definition toString (x : XBDate) (h : Heap) : ISOResult :=
  toISOString (deref h (utcDate x)).

(** The evaluators of a list each answer false for the Date Value [d],
    run one after the other from the heap [h] to the heap [h']. *)
Fixpoint all_false (evs : list Evaluator) (d : XBDate) (h h' : Heap)
  : Prop :=
  match evs with
  | [] => h' = h
  | ev :: evs' => exists hi, ev d h = Ok false hi /\ all_false evs' d hi h'
  end.

(** An evaluator that answers with a function of the time value of the
    Date Value it is given: it returns, changes no [Date] and may make
    new ones. *)
Definition answers (ev : Evaluator) (f : TimeValue -> bool) : Prop :=
  forall d h, exists k, ev d h = Ok (f (deref h (utcDate d))) (h ++ k).


(** Linear arithmetic with division and remainder by constants. *)
Ltac div_lia := Z.to_euclidean_division_equations; lia.

(** * Properties *)

(** ** Facts about the [Date] primitive *)

Lemma DayFromYear_succ y : DayFromYear (y + 1) = DayFromYear y + DaysInYear y.
Proof.
  unfold DayFromYear, DaysInYear.
  destruct (Z.eqb_spec (y mod 4) 0), (Z.eqb_spec (y mod 100) 0),
    (Z.eqb_spec (y mod 400) 0); cbn [negb]; div_lia.
Qed.

Lemma DaysInYear_cases y : DaysInYear y = 365 \/ DaysInYear y = 366.
Proof.
  unfold DaysInYear.
  destruct (y mod 4 =? 0), (y mod 100 =? 0), (y mod 400 =? 0); cbn; lia.
Qed.

Lemma DayFromYear_lt a b : a < b -> DayFromYear a < DayFromYear b.
Proof. unfold DayFromYear. intros H. div_lia. Qed.

(** The executable year is the year of the standard: the largest [y] whose
    first day is not after the given day. *)
Lemma YearFromDay_spec d :
  DayFromYear (YearFromDay d) <= d < DayFromYear (YearFromDay d + 1).
Proof.
  unfold YearFromDay.
  set (y := 1970 + d * 400 / 146097).
  destruct (Z.ltb_spec d (DayFromYear y)) as [Hlt|Hge].
  - replace (y - 1 + 1) with y by lia. split; [|lia].
    unfold DayFromYear in *. subst y. div_lia.
  - destruct (Z.leb_spec (DayFromYear (y + 1)) d) as [Hle|Hgt]; [|lia].
    split; [lia|]. unfold DayFromYear in *. subst y. div_lia.
Qed.

Lemma YearFromDay_unique d y :
  DayFromYear y <= d < DayFromYear (y + 1) -> YearFromDay d = y.
Proof.
  intros H. pose proof (YearFromDay_spec d) as S.
  destruct (Z.lt_trichotomy (YearFromDay d) y) as [L|[E|G]]; [|exact E|].
  - assert (DayFromYear (YearFromDay d + 1) <= DayFromYear y).
    { destruct (Z.eq_dec (YearFromDay d + 1) y) as [->|]; [lia|].
      apply Z.lt_le_incl, DayFromYear_lt. lia. }
    lia.
  - assert (DayFromYear (y + 1) <= DayFromYear (YearFromDay d)).
    { destruct (Z.eq_dec (y + 1) (YearFromDay d)) as [->|]; [lia|].
      apply Z.lt_le_incl, DayFromYear_lt. lia. }
    lia.
Qed.

Lemma YearFromTime_spec t :
  TimeFromYear (YearFromTime t) <= t < TimeFromYear (YearFromTime t + 1).
Proof.
  unfold TimeFromYear, YearFromTime.
  pose proof (YearFromDay_spec (Day t)) as S. revert S.
  generalize (DayFromYear (YearFromDay (Day t))).
  generalize (DayFromYear (YearFromDay (Day t) + 1)).
  unfold Day, msPerDay. intros a b S. div_lia.
Qed.

Lemma InLeapYear_cases t : InLeapYear t = 0 \/ InLeapYear t = 1.
Proof. unfold InLeapYear. destruct (_ =? _); lia. Qed.

Lemma DayWithinYear_bounds t :
  0 <= DayWithinYear t < 365 + InLeapYear t.
Proof.
  unfold DayWithinYear, InLeapYear, YearFromTime.
  pose proof (YearFromDay_spec (Day t)) as S.
  rewrite DayFromYear_succ in S.
  destruct (DaysInYear_cases (YearFromDay (Day t))) as [E|E]; rewrite E in *;
    cbn; lia.
Qed.

Lemma MonthFromTime_range t : 0 <= MonthFromTime t <= 11.
Proof.
  unfold MonthFromTime.
  repeat match goal with |- context [if ?c then _ else _] => destruct c end;
    lia.
Qed.

(** The date of the month counts from the start of the month. *)
Lemma monthStart_DateFromTime t :
  monthStart (MonthFromTime t) (InLeapYear t) + DateFromTime t - 1
  = DayWithinYear t.
Proof.
  unfold DateFromTime, MonthFromTime.
  repeat match goal with
         | |- context [if ?a <? ?b then _ else _] => destruct (Z.ltb_spec a b)
         end; cbn; lia.
Qed.

Lemma DateFromTime_range t : 1 <= DateFromTime t <= 31.
Proof.
  pose proof (DayWithinYear_bounds t) as B.
  pose proof (InLeapYear_cases t) as L.
  unfold DateFromTime, MonthFromTime.
  repeat match goal with
         | |- context [if ?a <? ?b then _ else _] => destruct (Z.ltb_spec a b)
         end; cbn; lia.
Qed.

(** [MakeDay] undoes the three calendar getters, and an offset of the
    date is an offset in days. *)
Lemma MakeDay_fields t n :
  MakeDay (YearFromTime t) (MonthFromTime t) (DateFromTime t + n) = Day t + n.
Proof.
  pose proof (MonthFromTime_range t) as R.
  pose proof (monthStart_DateFromTime t) as E.
  unfold MakeDay.
  replace (MonthFromTime t / 12) with 0 by div_lia.
  rewrite Z.mod_small by lia. rewrite Z.add_0_r.
  fold (InLeapYear t). unfold DayWithinYear in E. lia.
Qed.

Lemma MakeDay_fields_0 t :
  MakeDay (YearFromTime t) (MonthFromTime t) (DateFromTime t) = Day t.
Proof.
  pose proof (MakeDay_fields t 0) as H.
  rewrite !Z.add_0_r in H. exact H.
Qed.

(** The calendar fields of an instant are those of its day. *)
Lemma calendar_fields_of_Day t u :
  Day t = Day u ->
  YearFromTime t = YearFromTime u /\
  MonthFromTime t = MonthFromTime u /\
  DateFromTime t = DateFromTime u.
Proof.
  intros E.
  assert (Y : YearFromTime t = YearFromTime u)
    by (unfold YearFromTime; now rewrite E).
  assert (L : InLeapYear t = InLeapYear u)
    by (unfold InLeapYear; now rewrite Y).
  assert (W : DayWithinYear t = DayWithinYear u)
    by (unfold DayWithinYear; now rewrite E, Y).
  assert (Mo : MonthFromTime t = MonthFromTime u)
    by (unfold MonthFromTime; now rewrite W, L).
  repeat split; try assumption.
  unfold DateFromTime. now rewrite W, L, Mo.
Qed.

Lemma Day_MakeDate d tm :
  0 <= tm < msPerDay -> Day (MakeDate d tm) = d.
Proof. unfold Day, MakeDate, msPerDay. intros H. div_lia. Qed.

Lemma TimeWithinDay_MakeDate d tm :
  0 <= tm < msPerDay -> TimeWithinDay (MakeDate d tm) = tm.
Proof. unfold TimeWithinDay, MakeDate, msPerDay. intros H. div_lia. Qed.

Lemma MakeDate_Day t : MakeDate (Day t) (TimeWithinDay t) = t.
Proof. unfold MakeDate, Day, TimeWithinDay, msPerDay. div_lia. Qed.

Lemma TimeWithinDay_range t : 0 <= TimeWithinDay t < msPerDay.
Proof. unfold TimeWithinDay, msPerDay. div_lia. Qed.

(** [MakeTime] undoes the four getters of the time of day. *)
Lemma MakeTime_fields t :
  MakeTime (HourFromTime t) (MinFromTime t) (SecFromTime t) (msFromTime t)
  = TimeWithinDay t.
Proof.
  unfold MakeTime, HourFromTime, MinFromTime, SecFromTime, msFromTime,
    TimeWithinDay, msPerDay, msPerHour, msPerMinute, msPerSecond.
  div_lia.
Qed.

(** The time of day of an instant is that of its time within the day. *)
Lemma time_fields_MakeDate d tm :
  HourFromTime (MakeDate d tm) = HourFromTime tm /\
  MinFromTime (MakeDate d tm) = MinFromTime tm /\
  SecFromTime (MakeDate d tm) = SecFromTime tm /\
  msFromTime (MakeDate d tm) = msFromTime tm.
Proof.
  unfold HourFromTime, MinFromTime, SecFromTime, msFromTime, MakeDate,
    msPerDay, msPerHour, msPerMinute, msPerSecond.
  repeat split; div_lia.
Qed.

Lemma TimeClip_valid t : Z.abs t <= maxTime -> TimeClip t = Some t.
Proof.
  unfold TimeClip. intros H. destruct (Z.ltb_spec maxTime (Z.abs t)); [lia|].
  reflexivity.
Qed.

Lemma TimeClip_Some t u : TimeClip t = Some u -> u = t /\ Z.abs t <= maxTime.
Proof.
  unfold TimeClip. destruct (Z.ltb_spec maxTime (Z.abs t)); [discriminate|].
  intros [= ->]. split; [reflexivity|lia].
Qed.

(** ** Construction *)

Lemma XBDateFactory_run env dateArg optionsArg h :
  XBDateFactory env dateArg optionsArg h
  = Ok {| utcDate := length h |}
       (h ++ [normalizeToUTC env dateArg
                (spread DEFAULT_OPTIONS
                   (default DEFAULT_OPTIONS optionsArg))]).
Proof. reflexivity. Qed.

Lemma deref_alloc (h : Heap) tv : deref (h ++ [tv]) (length h) = tv.
Proof.
  unfold deref. now rewrite (list_lookup_middle h [] tv (length h)).
Qed.

Lemma deref_app_l (h h' : Heap) l :
  (l < length h)%nat -> deref (h ++ h') l = deref h l.
Proof. intros H. unfold deref. now rewrite lookup_app_l. Qed.

Lemma monthStart_bounds m leap :
  0 <= m <= 11 -> 0 <= leap <= 1 -> 0 <= monthStart m leap <= 335.
Proof.
  intros Hm Hl. unfold monthStart.
  destruct (Z.leb_spec m 0); [lia|].
  repeat match goal with
         | |- context [if ?a =? ?b then _ else _] => destruct (Z.eqb_spec a b)
         end; lia.
Qed.

(** The day the constructors keep: the calendar day itself, or that day
    in the twentieth century for a two-digit year. *)
Lemma MakeDay_fullYear_cases t :
  let d := MakeDay (fullYear (YearFromTime t)) (MonthFromTime t)
                   (DateFromTime t) in
  d = Day t \/ - 25567 <= d <= 10957.
Proof.
  intros d. subst d. unfold fullYear.
  destruct (Z.leb_spec 0 (YearFromTime t)) as [H0|H0];
    [destruct (Z.leb_spec (YearFromTime t) 99) as [H9|H9]|]; cbn [andb].
  - right.
    pose proof (MonthFromTime_range t) as R.
    pose proof (DateFromTime_range t) as D.
    unfold MakeDay.
    replace (MonthFromTime t / 12) with 0 by div_lia.
    rewrite Z.mod_small by lia. rewrite Z.add_0_r.
    generalize dependent (YearFromTime t). intros y H0 H9.
    assert (0 <= monthStart (MonthFromTime t)
                   (if DaysInYear (1900 + y) =? 366 then 1 else 0) <= 335).
    { apply monthStart_bounds; [assumption|].
      destruct (DaysInYear (1900 + y) =? 366); lia. }
    revert H. generalize (monthStart (MonthFromTime t)
                (if DaysInYear (1900 + y) =? 366 then 1 else 0)).
    intros ms H. unfold DayFromYear. div_lia.
  - left. apply MakeDay_fields_0.
  - left. apply MakeDay_fields_0.
Qed.

Lemma Day_range t :
  Z.abs t <= maxTime ->
  - 100000000 <= Day t <= 100000000 /\ (t < maxTime -> Day t < 100000000).
Proof.
  unfold Day, msPerDay, maxTime. intros V. split; [|intros L]; div_lia.
Qed.

Lemma input_date_valid env dateArg t :
  input_date env dateArg = Some t -> Z.abs t <= maxTime.
Proof.
  intros I.
  assert (C : exists n, TimeClip n = Some t).
  { destruct dateArg as [[n|s|tv]|]; cbn in I.
    - destruct n as [n|]; [eauto|discriminate].
    - destruct (parse env s) as [n|]; [eauto|discriminate].
    - destruct tv as [n|]; [eauto|discriminate].
    - eauto. }
  destruct C as [n C]. apply TimeClip_Some in C. destruct C as [-> ?].
  assumption.
Qed.

Lemma normalizeToUTC_unfold env dateArg options :
  normalizeToUTC env dateArg options
  = (let date := input_date env dateArg in
     let norm := truthy (normalize options) in
     UTC (getUTCFullYear date) (getUTCMonth date) (getUTCDate date)
       (if norm then Some 12 else getUTCHours date)
       (if norm then Some 0 else getUTCMinutes date)
       (if norm then Some 0 else getUTCSeconds date)
       (if norm then Some 0 else getUTCMilliseconds date)) ≫= TimeClip.
Proof. destruct dateArg; reflexivity. Qed.

(** Normalization of a valid instant before the last representable one is
    noon of an in-range day. *)
Lemma normalizeToUTC_noon env dateArg options t :
  input_date env dateArg = Some t ->
  truthy (normalize options) = true ->
  t < maxTime ->
  normalizeToUTC env dateArg options
  = Some (MakeDate (MakeDay (fullYear (YearFromTime t)) (MonthFromTime t)
                            (DateFromTime t)) noon).
Proof.
  intros I N L. pose proof (input_date_valid _ _ _ I) as V.
  rewrite normalizeToUTC_unfold, I, N. cbn -[TimeClip MakeDay MakeTime].
  fold noon.
  pose proof (MakeDay_fullYear_cases t) as C. cbv zeta in C.
  pose proof (Day_range t V) as [R1 R2]. specialize (R2 L).
  set (d := MakeDay _ _ _) in *.
  assert (Z.abs (MakeDate d noon) <= maxTime)
    by (unfold MakeDate, noon, MakeTime, msPerDay, msPerHour, msPerMinute,
          msPerSecond, maxTime; lia).
  rewrite TimeClip_valid by assumption. cbn -[TimeClip].
  now rewrite TimeClip_valid.
Qed.

(** Without normalization the factory keeps the time within the day. *)
Lemma normalizeToUTC_keep env dateArg options t :
  input_date env dateArg = Some t ->
  truthy (normalize options) = false ->
  normalizeToUTC env dateArg options
  = Some (MakeDate (MakeDay (fullYear (YearFromTime t)) (MonthFromTime t)
                            (DateFromTime t)) (TimeWithinDay t)).
Proof.
  intros I N. pose proof (input_date_valid _ _ _ I) as V.
  rewrite normalizeToUTC_unfold, I, N. cbn -[TimeClip MakeDay MakeTime].
  rewrite MakeTime_fields.
  pose proof (MakeDay_fullYear_cases t) as C. cbv zeta in C.
  pose proof (TimeWithinDay_range t) as W.
  set (d := MakeDay _ _ _) in *.
  assert (Z.abs (MakeDate d (TimeWithinDay t)) <= maxTime).
  { destruct C as [->|C]; [now rewrite MakeDate_Day|].
    unfold MakeDate, msPerDay, maxTime in *. lia. }
  rewrite TimeClip_valid by assumption. cbn -[TimeClip].
  now rewrite TimeClip_valid.
Qed.

Lemma time_fields_of_noon d :
  HourFromTime (MakeDate d noon) = 12 /\
  MinFromTime (MakeDate d noon) = 0 /\
  SecFromTime (MakeDate d noon) = 0 /\
  msFromTime (MakeDate d noon) = 0.
Proof.
  destruct (time_fields_MakeDate d noon) as (-> & -> & -> & ->).
  repeat split; reflexivity.
Qed.

Lemma time_fields_TimeWithinDay t :
  HourFromTime (TimeWithinDay t) = HourFromTime t /\
  MinFromTime (TimeWithinDay t) = MinFromTime t /\
  SecFromTime (TimeWithinDay t) = SecFromTime t /\
  msFromTime (TimeWithinDay t) = msFromTime t.
Proof.
  rewrite <- (MakeDate_Day t) at 2 4 6 8.
  destruct (time_fields_MakeDate (Day t) (TimeWithinDay t))
    as (-> & -> & -> & ->).
  repeat split; reflexivity.
Qed.

(** C1 (amended).  For every valid input, construction with [normalize]
    true (the default) yields a Date Value whose UTC time of day is exactly
    12:00:00.000, provided the input is not the last representable instant
    (time value 8.64e15, whose day has no representable noon); construction
    with [normalize] false preserves the UTC hour, minute, second and
    millisecond of every valid input. *)
Theorem XBDateFactory_time_of_day env dateArg optionsArg h t :
  input_date env dateArg = Some t ->
  exists x h',
    XBDateFactory env dateArg optionsArg h = Ok x h' /\
    (normalizes optionsArg = true -> t < maxTime ->
       XB.getHours x h' = Some 12 /\
       XB.getMinutes x h' = Some 0 /\
       XB.getSeconds x h' = Some 0 /\
       getUTCMilliseconds (deref h' (XB.get x)) = Some 0) /\
    (normalizes optionsArg = false ->
       XB.getHours x h' = Some (HourFromTime t) /\
       XB.getMinutes x h' = Some (MinFromTime t) /\
       XB.getSeconds x h' = Some (SecFromTime t) /\
       getUTCMilliseconds (deref h' (XB.get x)) = Some (msFromTime t)).
Proof.
  intros I. rewrite XBDateFactory_run. eexists _, _. split; [reflexivity|].
  unfold XB.getHours, XB.getMinutes, XB.getSeconds, XB.get, normalizes.
  cbn [utcDate]. rewrite deref_alloc. split.
  - intros N L. rewrite (normalizeToUTC_noon _ _ _ _ I N L).
    cbn [getUTCHours getUTCMinutes getUTCSeconds getUTCMilliseconds fmap
         option_fmap option_map].
    destruct (time_fields_of_noon
                (MakeDay (fullYear (YearFromTime t)) (MonthFromTime t)
                         (DateFromTime t))) as (-> & -> & -> & ->).
    repeat split; reflexivity.
  - intros N. rewrite (normalizeToUTC_keep _ _ _ _ I N).
    cbn [getUTCHours getUTCMinutes getUTCSeconds getUTCMilliseconds fmap
         option_fmap option_map].
    destruct (time_fields_MakeDate
                (MakeDay (fullYear (YearFromTime t)) (MonthFromTime t)
                         (DateFromTime t)) (TimeWithinDay t))
      as (-> & -> & -> & ->).
    destruct (time_fields_TimeWithinDay t) as (-> & -> & -> & ->).
    repeat split; reflexivity.
Qed.

Lemma XBDateFactory_time_of_day_witness :
  (exists x h',
     XBDateFactory utc_env (Some (Timestamp (Some t_2024_03_15_evening)))
       None [] = Ok x h' /\
     XB.getHours x h' = Some 12 /\
     XB.getMinutes x h' = Some 0 /\
     XB.getSeconds x h' = Some 0 /\
     getUTCMilliseconds (deref h' (XB.get x)) = Some 0) /\
  (exists x h',
     XBDateFactory utc_env (Some (Timestamp (Some t_2024_03_15_evening)))
       (Some {| normalize := Some false |}) [] = Ok x h' /\
     XB.getHours x h' = Some 20 /\
     XB.getMinutes x h' = Some 30 /\
     XB.getSeconds x h' = Some 15 /\
     getUTCMilliseconds (deref h' (XB.get x)) = Some 250).
Proof.
  split.
  - destruct (XBDateFactory_time_of_day utc_env
                (Some (Timestamp (Some t_2024_03_15_evening))) None []
                t_2024_03_15_evening eq_refl) as (x & h' & E & N & _).
    exists x, h'. split; [exact E|].
    apply N; [reflexivity | vm_compute; reflexivity].
  - destruct (XBDateFactory_time_of_day utc_env
                (Some (Timestamp (Some t_2024_03_15_evening)))
                (Some {| normalize := Some false |}) []
                t_2024_03_15_evening eq_refl) as (x & h' & E & _ & K).
    exists x, h'. split; [exact E|].
    apply K. reflexivity.
Defined.

(** C1, as stated, fails at the last representable instant: the input is
    valid, and the normalized Date Value is the invalid date. *)
Lemma XBDateFactory_maxTime_not_noon :
  input_date utc_env (Some (Timestamp (Some maxTime))) = Some maxTime /\
  normalizes None = true /\
  XBDateFactory utc_env (Some (Timestamp (Some maxTime))) None []
  = Ok {| utcDate := 0 |} [NaN] /\
  XB.getHours {| utcDate := 0 |} [NaN] = NaN /\
  XB.getHours {| utcDate := 0 |} [NaN] <> Some 12.
Proof.
  repeat split; try (vm_compute; reflexivity). vm_compute. discriminate.
Qed.

(** C8.  For every input the primitive reads as the invalid date,
    construction returns normally, and each accessor of the Date Value it
    returns gives NaN. *)
Theorem XBDateFactory_invalid env dateArg optionsArg h :
  input_date env dateArg = NaN ->
  exists x h',
    XBDateFactory env dateArg optionsArg h = Ok x h' /\
    XB.getYear x h' = NaN /\
    XB.getMonth x h' = NaN /\
    XB.getDate x h' = NaN /\
    XB.getTime x h' = NaN /\
    XB.getWeekday x h' = NaN /\
    XB.getHours x h' = NaN /\
    XB.getMinutes x h' = NaN /\
    XB.getSeconds x h' = NaN.
Proof.
  intros I. rewrite XBDateFactory_run. eexists _, _. split; [reflexivity|].
  unfold XB.getYear, XB.getMonth, XB.getDate, XB.getTime, XB.getWeekday,
    XB.getHours, XB.getMinutes, XB.getSeconds.
  cbn [utcDate]. rewrite deref_alloc, normalizeToUTC_unfold, I.
  repeat split; reflexivity.
Qed.

Lemma XBDateFactory_invalid_witness :
  exists x h',
    XBDateFactory utc_env (Some (DateString "not a date")) None [] = Ok x h' /\
    XB.getYear x h' = NaN /\
    XB.getMonth x h' = NaN /\
    XB.getDate x h' = NaN /\
    XB.getTime x h' = NaN /\
    XB.getWeekday x h' = NaN /\
    XB.getHours x h' = NaN /\
    XB.getMinutes x h' = NaN /\
    XB.getSeconds x h' = NaN.
Proof.
  apply (XBDateFactory_invalid utc_env (Some (DateString "not a date"))
           None []).
  reflexivity.
Defined.

(** ** Numbers and their texts *)

Lemma digit_val_digit_char n :
  0 <= n < 10 -> digit_val (digit_char n) = Some n.
Proof.
  intros H. rewrite <- (Z2Nat.id n) by lia.
  assert (K : (Z.to_nat n < 10)%nat) by lia.
  revert K. generalize (Z.to_nat n). intros k K.
  do 10 (destruct k as [|k]; [reflexivity|]). lia.
Qed.

Lemma parse_digits_app acc s1 s2 :
  parse_digits acc (s1 ++ s2)%string
  = parse_digits acc s1 ≫= fun a => parse_digits a s2.
Proof.
  revert acc. induction s1 as [|c s1 IH]; intros acc; cbn; [reflexivity|].
  destruct (digit_val c); [apply IH|reflexivity].
Qed.

Lemma parse_digits_digits fuel n :
  0 <= n < 2 ^ Z.of_nat fuel -> parse_digits 0 (digits fuel n) = Some n.
Proof.
  revert n. induction fuel as [|f IH]; intros n H.
  - cbn in *. f_equal. lia.
  - cbn [digits]. destruct (Z.ltb_spec n 10) as [L|G].
    + cbn. rewrite digit_val_digit_char by lia. f_equal.
    + rewrite parse_digits_app, IH.
      * cbn. rewrite digit_val_digit_char by div_lia. f_equal. div_lia.
      * rewrite Nat2Z.inj_succ, Z.pow_succ_r in H by lia. div_lia.
Qed.

Lemma digits_not_empty f n : digits (S f) n <> ""%string.
Proof.
  cbn [digits]. destruct (n <? 10); [discriminate|].
  destruct (digits f (n / 10)); discriminate.
Qed.

Lemma fuel_enough n :
  0 <= n -> 0 <= n < 2 ^ Z.of_nat (S (Z.to_nat (Z.log2 n))).
Proof.
  intros H. split; [assumption|].
  rewrite Nat2Z.inj_succ, Z2Nat.id by apply Z.log2_nonneg.
  destruct (Z.eq_dec n 0) as [->|]; [reflexivity|].
  apply Z.log2_spec. lia.
Qed.

(** A nonempty text of digits reads as its value, and so after a minus
    sign as the opposite of its value. *)
Lemma Number_of_string_digits s v :
  s <> ""%string -> parse_digits 0 s = Some v -> Number_of_string s = Some v.
Proof.
  destruct s as [|c s]; [congruence|]. intros _ P.
  unfold Number_of_string.
  destruct (Ascii.eqb_spec c "-"%char) as [->|]; [discriminate|exact P].
Qed.

Lemma Number_of_string_minus s v :
  s <> ""%string -> parse_digits 0 s = Some v ->
  Number_of_string (String "-" s) = Some (- v).
Proof.
  destruct s as [|c s]; [congruence|]. intros _ P.
  unfold Number_of_string. cbn [Ascii.eqb Bool.eqb]. now rewrite P.
Qed.

(** The text of an integer reads back as the integer. *)
Lemma Number_of_string_String_of_Z n :
  Number_of_string (String_of_Z n) = Some n.
Proof.
  unfold String_of_Z. destruct (Z.ltb_spec n 0).
  - rewrite (Number_of_string_minus _ (- n)).
    + f_equal. lia.
    + apply digits_not_empty.
    + apply parse_digits_digits, fuel_enough. lia.
  - apply Number_of_string_digits.
    + apply digits_not_empty.
    + apply parse_digits_digits, fuel_enough. lia.
Qed.

Lemma Number_of_string_String_of_Number v :
  Number_of_string (String_of_Number v) = v.
Proof.
  destruct v as [n|]; [apply Number_of_string_String_of_Z|reflexivity].
Qed.

(** A number from 0 to 99 padded to two places is two digits. *)
Lemma parse_digits_padded acc m :
  0 <= m <= 99 ->
  parse_digits acc (XB.padded (Some m) 2) = Some (acc * 100 + m).
Proof.
  intros H. unfold XB.padded, String_of_Number, String_of_Z.
  destruct (Z.ltb_spec m 0); [lia|].
  cbn [digits]. destruct (Z.ltb_spec m 10) as [L|G].
  - cbn [padStart String.length Nat.sub repeat_char String.append
         parse_digits].
    change (digit_val "0"%char) with (Some 0).
    rewrite (digit_val_digit_char m) by lia. f_equal. lia.
  - assert (F : exists f, Z.to_nat (Z.log2 m) = S f).
    { assert (3 <= Z.log2 m) by (apply (Z.log2_le_mono 8 m); lia).
      exists (Z.to_nat (Z.log2 m - 1)). lia. }
    destruct F as [f ->]. cbn [digits].
    destruct (Z.ltb_spec (m / 10) 10) as [L'|G']; [|div_lia].
    cbn [padStart String.length Nat.sub repeat_char String.append
         parse_digits].
    rewrite (digit_val_digit_char (m / 10)) by div_lia.
    rewrite (digit_val_digit_char (m mod 10)) by div_lia.
    f_equal. div_lia.
Qed.

Lemma Number_of_string_append_Z n rest (k : Z -> Z) :
  (forall acc, parse_digits acc rest = Some (k acc)) ->
  Number_of_string (String_of_Z n ++ rest)
  = Some (if n <? 0 then - k (- n) else k n).
Proof.
  intros K. unfold String_of_Z. destruct (Z.ltb_spec n 0).
  - cbn [String.append].
    apply Number_of_string_minus.
    + pose proof (digits_not_empty (Z.to_nat (Z.log2 (- n))) (- n)) as E.
      destruct (digits _ _); [congruence|discriminate].
    + rewrite parse_digits_app, parse_digits_digits
        by (apply fuel_enough; lia).
      apply K.
  - apply Number_of_string_digits.
    + pose proof (digits_not_empty (Z.to_nat (Z.log2 n)) n) as E.
      destruct (digits _ _); [congruence|discriminate].
    + rewrite parse_digits_app, parse_digits_digits
        by (apply fuel_enough; lia).
      apply K.
Qed.

(** The comparable of a valid date reads as [comparable_number]. *)
Lemma getComparableDate_value t precision :
  Number_of_string (XB.getComparableDate (Some t) precision)
  = Some (comparable_number t precision).
Proof.
  pose proof (MonthFromTime_range t) as Mo.
  pose proof (DateFromTime_range t) as Da.
  unfold XB.getComparableDate, comparable_number.
  cbn [getUTCFullYear getUTCMonth getUTCDate fmap option_fmap option_map
       String_of_Number].
  destruct precision; cbn [XB.COMPARE_TO take String.concat].
  - rewrite Number_of_string_String_of_Z. f_equal.
    destruct (YearFromTime t <? 0); lia.
  - cbn [String.append].
    rewrite (Number_of_string_append_Z _ _
               (fun a => a * 100 + MonthFromTime t)); [reflexivity|].
    intros acc. apply parse_digits_padded. lia.
  - cbn [String.append].
    rewrite (Number_of_string_append_Z _ _
               (fun a => (a * 100 + MonthFromTime t) * 100 + DateFromTime t));
      [reflexivity|].
    intros acc. rewrite parse_digits_app, parse_digits_padded by lia.
    cbn. apply parse_digits_padded. lia.
Qed.

Lemma getComparableDate_invalid precision :
  Number_of_string (XB.getComparableDate NaN precision) = NaN.
Proof. destruct precision; reflexivity. Qed.

(** ** Comparison *)

(** The safe operator is one of five texts. *)
Lemma getSafeOperator_cases operator :
  XB.getSafeOperator operator = ">="%string \/
  XB.getSafeOperator operator = ">"%string \/
  XB.getSafeOperator operator = "<"%string \/
  XB.getSafeOperator operator = "<="%string \/
  XB.getSafeOperator operator = "==="%string.
Proof.
  unfold XB.getSafeOperator.
  destruct (existsb (String.eqb operator) _) eqn:E; [|tauto].
  destruct (String.eqb_spec operator "=") as [->|N]; [tauto|].
  apply existsb_exists in E. destruct E as (o & I & E).
  apply String.eqb_eq in E. subst o. cbn [negb orb].
  destruct I as [<-|[<-|[<-|[<-|[<-|[]]]]]]; tauto.
Qed.

(** The expression [compare] evaluates is always a comparison. *)
Lemma evaluate_getSafeOperator operator a b :
  XB.evaluate (XB.getSafeOperator operator) a b
  = Some match a, b with
         | Some va, Some vb =>
             let op := XB.getSafeOperator operator in
             if (op =? ">=")%string then vb <=? va
             else if (op =? ">")%string then vb <? va
             else if (op =? "<")%string then va <? vb
             else if (op =? "<=")%string then va <=? vb
             else va =? vb
         | _, _ => false
         end.
Proof.
  cbv zeta.
  destruct (getSafeOperator_cases operator) as [E|[E|[E|[E|E]]]];
    rewrite E; destruct a, b; reflexivity.
Qed.

Lemma compare_unfold operator a b :
  XB.compare operator a b
  = match a, b with
    | Some va, Some vb =>
        let op := XB.getSafeOperator operator in
        if (op =? ">=")%string then vb <=? va
        else if (op =? ">")%string then vb <? va
        else if (op =? "<")%string then va <? vb
        else if (op =? "<=")%string then va <=? vb
        else va =? vb
    | _, _ => false
    end.
Proof.
  unfold XB.compare. rewrite !Number_of_string_String_of_Number.
  rewrite evaluate_getSafeOperator. destruct a, b; reflexivity.
Qed.

Lemma getSafeOperator_unrecognized operator :
  ~ In operator operators \/ operator = "="%string ->
  XB.getSafeOperator operator = "==="%string.
Proof.
  intros [N| ->]; [|reflexivity].
  unfold XB.getSafeOperator. fold operators.
  destruct (existsb (String.eqb operator) operators) eqn:E; [|reflexivity].
  apply existsb_exists in E. destruct E as (o & I & E).
  apply String.eqb_eq in E. subst o. contradiction.
Qed.

(** C7.  For every operator that is not one of [>=], [>], [=], [<], [<=],
    and for [=], the safe operator is [===], the expression evaluated is
    the strict equality of the two comparables, and [is] returns it; so
    [is] with such an operator is [is] with [=].  The four order
    operators are kept as they are. *)
Theorem is_unrecognized_operator operator other precision x h :
  ~ In operator operators \/ operator = "="%string ->
  XB.getSafeOperator operator = "==="%string /\
  XB.evaluate (XB.getSafeOperator operator)
    (comparable_of x precision h) (comparable_of other precision h)
  = Some (strict_equal (comparable_of x precision h)
                       (comparable_of other precision h)) /\
  XB.is_ operator other precision x h
  = strict_equal (comparable_of x precision h)
                 (comparable_of other precision h) /\
  XB.is_ operator other precision x h = XB.is_ "=" other precision x h /\
  (forall op, In op [">="; ">"; "<"; "<="]%string ->
              XB.getSafeOperator op = op).
Proof.
  intros U. pose proof (getSafeOperator_unrecognized operator U) as G.
  assert (S : forall op, XB.getSafeOperator op = "==="%string ->
            XB.is_ op other precision x h
            = strict_equal (comparable_of x precision h)
                           (comparable_of other precision h)).
  { intros op E. unfold XB.is_. rewrite compare_unfold, E.
    reflexivity. }
  split; [exact G|]. split.
  - rewrite G. unfold strict_equal.
    destruct (comparable_of x precision h),
      (comparable_of other precision h); reflexivity.
  - split; [exact (S operator G)|]. split.
    + rewrite (S operator G). symmetry. apply S. reflexivity.
    + intros op [<-|[<-|[<-|[<-|[]]]]]; reflexivity.
Qed.

Lemma is_unrecognized_operator_witness :
  XB.getSafeOperator "bogus" = "==="%string /\
  XB.is_ "bogus" {| utcDate := 1 |} None {| utcDate := 0 |}
    [Some t_2024_03_15; Some t_2024_03_15_evening]
  = strict_equal
      (comparable_of {| utcDate := 0 |} None
         [Some t_2024_03_15; Some t_2024_03_15_evening])
      (comparable_of {| utcDate := 1 |} None
         [Some t_2024_03_15; Some t_2024_03_15_evening]) /\
  XB.is_ "bogus" {| utcDate := 1 |} None {| utcDate := 0 |}
    [Some t_2024_03_15; Some t_2024_03_15_evening]
  = XB.is_ "=" {| utcDate := 1 |} None {| utcDate := 0 |}
      [Some t_2024_03_15; Some t_2024_03_15_evening].
Proof.
  assert (U : ~ In "bogus"%string operators \/ "bogus"%string = "="%string).
  { left. unfold operators. cbn.
    intros [H|[H|[H|[H|[H|[]]]]]]; discriminate H. }
  destruct (is_unrecognized_operator "bogus" {| utcDate := 1 |} None
              {| utcDate := 0 |}
              [Some t_2024_03_15; Some t_2024_03_15_evening] U)
    as (G & _ & S & E & _).
  split; [exact G|]. split; [exact S|exact E].
Defined.

Lemma compare_operators a b :
  (XB.compare ">=" (Some a) (Some b) = true <-> (a ?= b) <> Lt) /\
  (XB.compare ">" (Some a) (Some b) = true <-> (a ?= b) = Gt) /\
  (XB.compare "<" (Some a) (Some b) = true <-> (a ?= b) = Lt) /\
  (XB.compare "<=" (Some a) (Some b) = true <-> (a ?= b) <> Gt) /\
  (XB.compare "=" (Some a) (Some b) = true <-> (a ?= b) = Eq).
Proof.
  rewrite !compare_unfold. cbn.
  rewrite Z.leb_le, !Z.ltb_lt, Z.leb_le, Z.eqb_eq.
  destruct (Z.compare_spec a b); repeat split; intros; 
    try lia; try congruence.
Qed.

(** For years from 0 on, the number of the comparable orders as the
    calendar fields do. *)
Lemma comparable_number_monotone precision t u :
  0 <= YearFromTime t -> 0 <= YearFromTime u ->
  (comparable_number t precision ?= comparable_number u precision)
  = calendar_compare precision t u.
Proof.
  intros Yt Yu.
  pose proof (MonthFromTime_range t). pose proof (MonthFromTime_range u).
  pose proof (DateFromTime_range t). pose proof (DateFromTime_range u).
  unfold comparable_number, calendar_compare, calendar_fields.
  destruct (Z.ltb_spec (YearFromTime t) 0); [lia|].
  destruct (Z.ltb_spec (YearFromTime u) 0); [lia|].
  destruct precision; cbn [XB.COMPARE_TO take lex_compare].
  - destruct (YearFromTime t ?= YearFromTime u); reflexivity.
  - destruct (Z.compare_spec (YearFromTime t) (YearFromTime u)),
      (Z.compare_spec (MonthFromTime t) (MonthFromTime u));
      first [ apply Z.compare_eq_iff | apply Z.compare_lt_iff
            | apply Z.compare_gt_iff ]; lia.
  - destruct (Z.compare_spec (YearFromTime t) (YearFromTime u)),
      (Z.compare_spec (MonthFromTime t) (MonthFromTime u)),
      (Z.compare_spec (DateFromTime t) (DateFromTime u));
      first [ apply Z.compare_eq_iff | apply Z.compare_lt_iff
            | apply Z.compare_gt_iff ]; lia.
Qed.

(** The order is also right, whatever the signs, when the two years
    differ; within one negative year it is the reverse of the calendar
    order at the precisions of the month and of the day. *)
Lemma comparable_number_years_differ precision t u :
  YearFromTime t <> YearFromTime u ->
  (comparable_number t precision ?= comparable_number u precision)
  = calendar_compare precision t u.
Proof.
  intros N.
  pose proof (MonthFromTime_range t). pose proof (MonthFromTime_range u).
  pose proof (DateFromTime_range t). pose proof (DateFromTime_range u).
  unfold comparable_number, calendar_compare, calendar_fields.
  destruct (Z.ltb_spec (YearFromTime t) 0),
    (Z.ltb_spec (YearFromTime u) 0);
    destruct precision; cbn [XB.COMPARE_TO take lex_compare];
    destruct (Z.compare_spec (YearFromTime t) (YearFromTime u));
    first [ contradiction | reflexivity
          | apply Z.compare_lt_iff; lia | apply Z.compare_gt_iff; lia ].
Qed.

Lemma comparable_number_negative_year precision t u :
  YearFromTime t = YearFromTime u ->
  YearFromTime t < 0 ->
  precision <> year ->
  (comparable_number t precision ?= comparable_number u precision)
  = CompOpp (calendar_compare precision t u).
Proof.
  intros E Y P.
  pose proof (MonthFromTime_range t). pose proof (MonthFromTime_range u).
  pose proof (DateFromTime_range t). pose proof (DateFromTime_range u).
  unfold comparable_number, calendar_compare, calendar_fields.
  rewrite <- E.
  destruct (Z.ltb_spec (YearFromTime t) 0); [|lia].
  destruct precision; [congruence| |];
    cbn [XB.COMPARE_TO take lex_compare]; rewrite Z.compare_refl.
  - destruct (Z.compare_spec (MonthFromTime t) (MonthFromTime u));
      cbn [CompOpp];
      first [ apply Z.compare_eq_iff | apply Z.compare_lt_iff
            | apply Z.compare_gt_iff ]; lia.
  - destruct (Z.compare_spec (MonthFromTime t) (MonthFromTime u)),
      (Z.compare_spec (DateFromTime t) (DateFromTime u));
      cbn [CompOpp];
      first [ apply Z.compare_eq_iff | apply Z.compare_lt_iff
            | apply Z.compare_gt_iff ]; lia.
Qed.

(** Where the code does what C3 says: for every pair of valid Date Values
    whose UTC years are not negative and every precision, the comparable
    of [is] is monotonic with calendar order at that precision, and [is]
    with [>=], [>], [<], [<=] and [=] returns the truth of the
    corresponding comparison in calendar order; for every pair of valid
    Date Values, [is] with [=] at precision year is true exactly when the
    two UTC years are equal. *)
Theorem is_calendar_order x other h precision t u :
  deref h (utcDate x) = Some t ->
  deref h (utcDate other) = Some u ->
  (0 <= YearFromTime t -> 0 <= YearFromTime u ->
   (exists a b,
      comparable_of x (Some precision) h = Some a /\
      comparable_of other (Some precision) h = Some b /\
      (a ?= b) = calendar_compare precision t u) /\
   (XB.is_ ">=" other (Some precision) x h = true
    <-> calendar_compare precision t u <> Lt) /\
   (XB.is_ ">" other (Some precision) x h = true
    <-> calendar_compare precision t u = Gt) /\
   (XB.is_ "<" other (Some precision) x h = true
    <-> calendar_compare precision t u = Lt) /\
   (XB.is_ "<=" other (Some precision) x h = true
    <-> calendar_compare precision t u <> Gt) /\
   (XB.is_ "=" other (Some precision) x h = true
    <-> calendar_compare precision t u = Eq)) /\
  (XB.is_ "=" other (Some year) x h = true
   <-> YearFromTime t = YearFromTime u).
Proof.
  intros Ht Hu. unfold XB.is_, comparable_of, XB.get. rewrite Ht, Hu.
  cbn [default from_option id].
  rewrite !getComparableDate_value. split.
  - intros Yt Yu.
    rewrite <- (comparable_number_monotone precision t u Yt Yu).
    split; [eexists _, _; repeat split; reflexivity|].
    apply compare_operators.
  - destruct (compare_operators (comparable_number t year)
                (comparable_number u year)) as (_ & _ & _ & _ & ->).
    rewrite Z.compare_eq_iff. unfold comparable_number.
    destruct (YearFromTime t <? 0), (YearFromTime u <? 0); lia.
Qed.

Lemma is_calendar_order_witness :
  calendar_compare month t_2024_03_15 t_2024_03_15_evening = Eq /\
  XB.is_ ">=" {| utcDate := 1 |} (Some month) {| utcDate := 0 |}
    [Some t_2024_03_15; Some t_2024_03_15_evening] = true /\
  XB.is_ "=" {| utcDate := 1 |} (Some year) {| utcDate := 0 |}
    [Some t_2024_03_15; Some t_2024_03_15_evening] = true.
Proof.
  destruct (is_calendar_order {| utcDate := 0 |} {| utcDate := 1 |}
              [Some t_2024_03_15; Some t_2024_03_15_evening] month
              t_2024_03_15 t_2024_03_15_evening eq_refl eq_refl)
    as (O & _).
  destruct (is_calendar_order {| utcDate := 0 |} {| utcDate := 1 |}
              [Some t_2024_03_15; Some t_2024_03_15_evening] year
              t_2024_03_15 t_2024_03_15_evening eq_refl eq_refl)
    as (_ & Y).
  assert (C : calendar_compare month t_2024_03_15 t_2024_03_15_evening = Eq)
    by (vm_compute; reflexivity).
  split; [exact C|]. split.
  - assert (Yt : 0 <= YearFromTime t_2024_03_15)
      by (vm_compute; congruence).
    assert (Yu : 0 <= YearFromTime t_2024_03_15_evening)
      by (vm_compute; congruence).
    destruct (O Yt Yu) as (_ & Ge & _). apply Ge. rewrite C. discriminate.
  - apply Y. vm_compute. reflexivity.
Defined.

(** C3.  The code fails the claim within a negative year: the comparable
    is the text of the year, minus sign first, followed by month and day,
    so that later in the year reads as a smaller number.  1 January of
    the year -1 is before 31 December of that year, and [is] says it is
    after. *)
Lemma is_negative_year_reversed :
  XBDateFactory utc_env (Some (Timestamp (Some t_minus1_01_01))) None []
  = Ok {| utcDate := 0 |} [Some (t_minus1_01_01 + noon)] /\
  XBDateFactory utc_env (Some (Timestamp (Some t_minus1_12_31))) None
    [Some (t_minus1_01_01 + noon)]
  = Ok {| utcDate := 1 |}
       [Some (t_minus1_01_01 + noon); Some (t_minus1_12_31 + noon)] /\
  calendar_compare day (t_minus1_01_01 + noon) (t_minus1_12_31 + noon) = Lt /\
  XB.is_ "<" {| utcDate := 1 |} (Some day) {| utcDate := 0 |}
    [Some (t_minus1_01_01 + noon); Some (t_minus1_12_31 + noon)] = false /\
  XB.is_ ">" {| utcDate := 1 |} (Some day) {| utcDate := 0 |}
    [Some (t_minus1_01_01 + noon); Some (t_minus1_12_31 + noon)] = true.
Proof. repeat split; vm_compute; reflexivity. Qed.

(** ** Matching *)

Lemma some_read_only (evs : list Evaluator) d h :
  (forall ev, In ev evs -> read_only ev) ->
  exists b,
    some (fun ev => ev d) evs h = Ok b h /\
    (b = true <-> exists ev, In ev evs /\ ev d h = Ok true h).
Proof.
  induction evs as [|ev evs IH]; intros R.
  - exists false. split; [reflexivity|].
    split; [discriminate|]. intros (ev & [] & _).
  - destruct (R ev (or_introl eq_refl) d h) as [b E].
    destruct IH as (b' & S & I).
    { intros ev' I. apply R. now right. }
    cbn [some]. unfold bind. rewrite E. destruct b.
    + exists true. split; [reflexivity|]. split; [|reflexivity].
      intros _. exists ev. split; [now left|exact E].
    + exists b'. split; [exact S|]. rewrite I. split.
      * intros (ev' & I' & E'). exists ev'. split; [now right|exact E'].
      * intros (ev' & [<-|I'] & E'); [congruence|].
        exists ev'. split; assumption.
Qed.

Lemma matches_run env resolve x c constraints h :
  XB.matches env resolve x (c :: constraints) h
  = some (fun ev => ev {| utcDate := length h |})
      (map resolve (c :: constraints))
      (h ++ [normalizeToUTC env (Some (DateObject (deref h (utcDate x))))
               DEFAULT_OPTIONS]).
Proof. reflexivity. Qed.

(** [some] over resolved constraints, whatever the evaluators do: it is
    false when all of them answer false in turn, and true when one of them
    answers true after those before it have answered false. *)
Lemma some_false_iff (resolve : DateConstraint -> Evaluator) cs d h h' :
  some (fun ev => ev d) (map resolve cs) h = Ok false h'
  <-> all_false (map resolve cs) d h h'.
Proof.
  revert h. induction cs as [|c cs IH]; intros h; cbn [map some all_false].
  - unfold ret. split; [now intros [= <-]|now intros ->].
  - unfold bind. split.
    + destruct (resolve c d h) as [[|] hi|e] eqn:E; try discriminate.
      intros S. exists hi. split; [reflexivity|]. now apply IH.
    + intros (hi & -> & A). now apply IH.
Qed.

Lemma some_true_iff (resolve : DateConstraint -> Evaluator) cs d h h' :
  some (fun ev => ev d) (map resolve cs) h = Ok true h'
  <-> exists pre c post hi,
        cs = pre ++ c :: post /\
        all_false (map resolve pre) d h hi /\
        resolve c d hi = Ok true h'.
Proof.
  revert h. induction cs as [|c cs IH]; intros h; cbn [map some].
  - split; [discriminate|].
    intros (pre & c & post & hi & E & _). now destruct pre.
  - unfold bind. split.
    + destruct (resolve c d h) as [[|] h1|e] eqn:E; [| |discriminate].
      * intros [= <-]. now exists [], c, cs, h.
      * intros S. apply IH in S.
        destruct S as (pre & c' & post & hi & -> & A & T).
        exists (c :: pre), c', post, hi. split; [reflexivity|].
        split; [|exact T]. cbn [map all_false]. now exists h1.
    + intros (pre & c' & post & hi & E & A & T).
      destruct pre as [|c0 pre]; cbn [app map all_false] in E, A.
      * injection E as <- <-. subst hi. now rewrite T.
      * injection E as <- ->. destruct A as (h1 & -> & A).
        apply IH. now exists pre, c', post, hi.
Qed.

(** Evaluators that answer with a function of the candidate's time value:
    [some] returns the disjunction of their answers. *)
Lemma some_answers (resolve : DateConstraint -> Evaluator)
    (verdict : DateConstraint -> TimeValue -> bool) cs d h :
  (utcDate d < length h)%nat ->
  (forall c, In c cs -> answers (resolve c) (verdict c)) ->
  exists k,
    some (fun ev => ev d) (map resolve cs) h
    = Ok (existsb (fun c => verdict c (deref h (utcDate d))) cs) (h ++ k).
Proof.
  intros L. revert h L.
  induction cs as [|c cs IH]; intros h L A; cbn [map some existsb].
  - exists []. now rewrite app_nil_r.
  - destruct (A c (or_introl eq_refl) d h) as [k E].
    unfold bind. rewrite E.
    destruct (verdict c (deref h (utcDate d))); [now exists k|].
    destruct (IH (h ++ k)) as [k' S].
    { rewrite length_app. lia. }
    { intros c' I. apply A. now right. }
    rewrite S, (deref_app_l h k _ L). cbn [orb].
    exists (k ++ k'). now rewrite app_assoc.
Qed.

(** C2.  [matches] returns false for the empty list of constraints.  For a
    non-empty list the evaluators are run, in their order, on the
    candidate: the new Date Value that the factory makes, with the default
    options, from the [Date] of the receiver.  Whatever the evaluators do,
    [matches] returns true exactly when one resolved evaluator returns
    true for the candidate, those before it having returned false, and
    false exactly when all of them return false; for evaluators that are
    boolean functions of the candidate it returns the disjunction of
    their answers. *)
Theorem matches_any env resolve x constraints h :
  (constraints = [] ->
   XB.matches env resolve x constraints h = Ok false h) /\
  exists date h1,
    XBDateFactory env (Some (DateObject (deref h (utcDate x)))) None h
    = Ok date h1 /\
    (constraints <> [] ->
     (forall h',
         XB.matches env resolve x constraints h = Ok true h'
         <-> exists pre c post hi,
               constraints = pre ++ c :: post /\
               all_false (map resolve pre) date h1 hi /\
               resolve c date hi = Ok true h') /\
     (forall h',
         XB.matches env resolve x constraints h = Ok false h'
         <-> all_false (map resolve constraints) date h1 h') /\
     ((forall c, In c constraints -> read_only (resolve c)) ->
      exists b,
        XB.matches env resolve x constraints h = Ok b h1 /\
        (b = true <->
         exists c, In c constraints /\ resolve c date h1 = Ok true h1)) /\
     (forall verdict,
         (forall c, In c constraints -> answers (resolve c) (verdict c)) ->
         exists h',
           XB.matches env resolve x constraints h
           = Ok (existsb (fun c => verdict c (XB.getTime date h1))
                   constraints) h' /\
           (existsb (fun c => verdict c (XB.getTime date h1)) constraints
            = true
            <-> exists c, In c constraints /\
                          verdict c (XB.getTime date h1) = true))).
Proof.
  split.
  { intros ->. reflexivity. }
  rewrite XBDateFactory_run.
  change (spread DEFAULT_OPTIONS (default DEFAULT_OPTIONS None))
    with DEFAULT_OPTIONS.
  set (h1 := h ++ _). set (date := {| utcDate := length h |}).
  exists date, h1. split; [reflexivity|]. intros NE.
  destruct constraints as [|c cs]; [congruence|]. clear NE.
  rewrite matches_run. fold h1 date.
  split; [intros h'; apply some_true_iff|].
  split; [intros h'; apply some_false_iff|]. split.
  - intros R.
    destruct (some_read_only (map resolve (c :: cs)) date h1)
      as (b & S & I).
    { intros ev I. apply in_map_iff in I. destruct I as (c' & <- & I').
      now apply R. }
    exists b. split; [exact S|]. rewrite I. split.
    + intros (ev & I' & E). apply in_map_iff in I'.
      destruct I' as (c' & <- & I'). exists c'. split; assumption.
    + intros (c' & I' & E). exists (resolve c'). split; [|exact E].
      now apply in_map.
  - intros verdict A.
    destruct (some_answers resolve verdict (c :: cs) date h1) as [k S].
    { unfold h1, date. cbn [utcDate]. rewrite length_app. cbn [length]. lia. }
    { exact A. }
    exists (h1 ++ k). split; [exact S|].
    rewrite existsb_exists. reflexivity.
Qed.

Lemma matches_any_witness :
  exists b,
    XB.matches utc_env (getConstraintEvaluator utc_env) {| utcDate := 0 |}
      [SingleDateConstraint (Timestamp (Some t_2024_03_15_evening));
       FunctionDateConstraint observes_noon]
      [Some (t_2024_03_15 + noon)]
    = Ok b [Some (t_2024_03_15 + noon); Some (t_2024_03_15 + noon)] /\
    (b = true <->
     exists c,
       In c [SingleDateConstraint (Timestamp (Some t_2024_03_15_evening));
             FunctionDateConstraint observes_noon] /\
       getConstraintEvaluator utc_env c {| utcDate := 1 |}
         [Some (t_2024_03_15 + noon); Some (t_2024_03_15 + noon)]
       = Ok true [Some (t_2024_03_15 + noon); Some (t_2024_03_15 + noon)]).
Proof.
  destruct (matches_any utc_env (getConstraintEvaluator utc_env)
              {| utcDate := 0 |}
              [SingleDateConstraint (Timestamp (Some t_2024_03_15_evening));
               FunctionDateConstraint observes_noon]
              [Some (t_2024_03_15 + noon)])
    as (_ & date & h1 & F & M).
  vm_compute in F. injection F as <- <-.
  destruct M as (_ & _ & R & _); [discriminate|].
  apply R. intros c [<-|[<-|[]]] d h; eexists; reflexivity.
Defined.

Lemma some_confined (evs : list Evaluator) d h b h' :
  (forall ev, In ev evs -> confined ev) ->
  some (fun ev => ev d) evs h = Ok b h' ->
  (length h <= length h')%nat /\
  forall l, (l < length h)%nat -> l <> utcDate d -> deref h' l = deref h l.
Proof.
  revert h. induction evs as [|ev evs IH]; intros h C S.
  - cbn in S. injection S as <- <-. split; [lia|reflexivity].
  - cbn [some] in S. unfold bind in S.
    destruct (ev d h) as [b1 h1|e] eqn:E; [|discriminate].
    destruct (C ev (or_introl eq_refl) d h b1 h1 E) as [L1 F1].
    destruct b1.
    + injection S as <- <-. split; assumption.
    + destruct (IH h1) as [L2 F2]; [|exact S|].
      { intros ev' I. apply C. now right. }
      split; [lia|]. intros l Hl Hd.
      rewrite F2 by (try lia; assumption). now apply F1.
Qed.

Lemma set_run x values h :
  (utcDate x < length h)%nat ->
  XB.set x values h
  = Ok x (<[utcDate x := set_result (deref h (utcDate x)) values]> h).
Proof.
  intros L. unfold XB.set, bind, read, write, ret, set_result. f_equal.
  unfold deref. rewrite !list_lookup_insert_eq by (rewrite ?length_insert; lia).
  cbn [default from_option id]. now rewrite !list_insert_insert_eq.
Qed.

Lemma deref_insert_eq (h : Heap) l tv :
  (l < length h)%nat -> deref (<[l := tv]> h) l = tv.
Proof. intros L. unfold deref. now rewrite list_lookup_insert_eq. Qed.

Lemma deref_insert_ne (h : Heap) l l' tv :
  l <> l' -> deref (<[l := tv]> h) l' = deref h l'.
Proof. intros N. unfold deref. now rewrite list_lookup_insert_ne. Qed.

Lemma sets_day_1_confined : confined sets_day_1.
Proof.
  intros d h b h'. unfold sets_day_1, XB.set, bind, read, write, ret.
  intros [= <- <-]. rewrite !length_insert. split; [lia|].
  intros l _ N. unfold deref. now rewrite !list_lookup_insert_ne.
Qed.

(** Normalization of the invalid date and of the last instant gives the
    invalid date. *)
Lemma normalizeToUTC_no_noon env tv options :
  truthy (normalize options) = true ->
  tv = NaN \/ tv = Some maxTime ->
  normalizeToUTC env (Some (DateObject tv)) options = NaN.
Proof.
  intros N [-> | ->]; rewrite normalizeToUTC_unfold, N; reflexivity.
Qed.

(** C10 (amended).  For every Date Value, [matches] hands the evaluators
    not the receiver but a fresh Date Value built from the instant of the
    receiver with the default options; a [set] on it leaves the receiver
    unchanged, and so does the whole call when the evaluators write to no
    existing [Date] but the one they are given.  When the instant of the
    receiver is valid and before the last representable instant, the time
    of day the evaluators observe is 12:00:00.000 UTC whatever the time
    of day of the receiver; when the receiver is invalid or at the last
    representable instant, they observe the invalid date. *)
Theorem matches_fresh_candidate env resolve x constraints h :
  constraints <> [] ->
  (utcDate x < length h)%nat ->
  exists date h1,
    XBDateFactory env (Some (DateObject (deref h (utcDate x)))) None h
    = Ok date h1 /\
    XB.matches env resolve x constraints h
    = some (fun ev => ev date) (map resolve constraints) h1 /\
    utcDate date <> utcDate x /\
    deref h1 (utcDate x) = deref h (utcDate x) /\
    (forall values, exists h2,
        XB.set date values h1 = Ok date h2 /\
        deref h2 (utcDate x) = deref h (utcDate x)) /\
    ((forall c, In c constraints -> confined (resolve c)) ->
     forall b h',
       XB.matches env resolve x constraints h = Ok b h' ->
       deref h' (utcDate x) = deref h (utcDate x)) /\
    (forall t,
        deref h (utcDate x) = Some t -> Z.abs t <= maxTime -> t < maxTime ->
        XB.getHours date h1 = Some 12 /\
        XB.getMinutes date h1 = Some 0 /\
        XB.getSeconds date h1 = Some 0 /\
        getUTCMilliseconds (deref h1 (XB.get date)) = Some 0) /\
    (deref h (utcDate x) = NaN \/ deref h (utcDate x) = Some maxTime ->
     XB.getTime date h1 = NaN /\
     XB.getHours date h1 = NaN /\
     XB.getMinutes date h1 = NaN /\
     XB.getSeconds date h1 = NaN).
Proof.
  intros NE L.
  destruct constraints as [|c cs]; [congruence|].
  assert (N : truthy (normalize DEFAULT_OPTIONS) = true) by reflexivity.
  rewrite XBDateFactory_run, matches_run.
  change (spread DEFAULT_OPTIONS (default DEFAULT_OPTIONS None))
    with DEFAULT_OPTIONS.
  set (tv := normalizeToUTC env _ DEFAULT_OPTIONS).
  exists {| utcDate := length h |}, (h ++ [tv]).
  split; [reflexivity|]. split; [reflexivity|]. cbn [utcDate].
  assert (Hx : deref (h ++ [tv]) (utcDate x) = deref h (utcDate x))
    by (now apply deref_app_l).
  split; [lia|]. split; [exact Hx|]. split; [|split; [|split]].
  - intros values. eexists. split.
    + apply set_run. cbn [utcDate]. rewrite length_app. cbn. lia.
    + cbn [utcDate]. rewrite deref_insert_ne by lia. exact Hx.
  - intros C b h' S.
    apply some_confined in S.
    + destruct S as [_ F]. rewrite F; [exact Hx| |cbn [utcDate]; lia].
      rewrite length_app. cbn. lia.
    + intros ev I'. apply in_map_iff in I'. destruct I' as (c' & <- & I').
      now apply C.
  - intros t Ht V Lt.
    assert (I : input_date env (Some (DateObject (Some t))) = Some t)
      by (cbn; now apply TimeClip_valid).
    pose proof (normalizeToUTC_noon env _ DEFAULT_OPTIONS t I N Lt) as E.
    unfold XB.getHours, XB.getMinutes, XB.getSeconds, XB.get.
    cbn [utcDate]. rewrite deref_alloc. unfold tv. rewrite Ht, E.
    cbn [getUTCHours getUTCMinutes getUTCSeconds getUTCMilliseconds fmap
         option_fmap option_map].
    destruct (time_fields_of_noon
                (MakeDay (fullYear (YearFromTime t)) (MonthFromTime t)
                   (DateFromTime t))) as (-> & -> & -> & ->).
    now repeat split.
  - intros C.
    unfold XB.getTime, XB.getHours, XB.getMinutes, XB.getSeconds.
    cbn [utcDate]. rewrite deref_alloc. unfold tv.
    rewrite (normalizeToUTC_no_noon env _ DEFAULT_OPTIONS N C).
    now repeat split.
Qed.

Lemma matches_fresh_candidate_witness :
  XB.getHours {| utcDate := 0 |} [Some t_2024_03_15_evening] = Some 20 /\
  exists date h1,
    XBDateFactory utc_env (Some (DateObject (Some t_2024_03_15_evening)))
      None [Some t_2024_03_15_evening] = Ok date h1 /\
    utcDate date <> 0%nat /\
    XB.getHours date h1 = Some 12 /\
    forall b h',
      XB.matches utc_env (getConstraintEvaluator utc_env) {| utcDate := 0 |}
        [FunctionDateConstraint sets_day_1] [Some t_2024_03_15_evening]
      = Ok b h' ->
      deref h' 0 = Some t_2024_03_15_evening.
Proof.
  split; [reflexivity|].
  assert (NE : [FunctionDateConstraint sets_day_1] <> []) by discriminate.
  assert (L : (utcDate {| utcDate := 0 |}
               < length [Some t_2024_03_15_evening])%nat) by (cbn; lia).
  assert (V : Z.abs t_2024_03_15_evening <= maxTime)
    by (vm_compute; congruence).
  assert (Lt : t_2024_03_15_evening < maxTime) by reflexivity.
  destruct (matches_fresh_candidate utc_env (getConstraintEvaluator utc_env)
              {| utcDate := 0 |} [FunctionDateConstraint sets_day_1]
              [Some t_2024_03_15_evening] NE L)
    as (date & h1 & F & _ & D & _ & _ & C & T & _).
  destruct (T t_2024_03_15_evening eq_refl V Lt) as (H12 & _).
  exists date, h1. split; [exact F|]. split; [exact D|].
  split; [exact H12|]. apply C.
  intros c [<-|[]]. exact sets_day_1_confined.
Defined.

(** C10, as stated, fails for a valid receiver at the last representable
    instant: the Date Value the evaluators observe is the invalid date,
    whose hour is NaN. *)
Lemma matches_maxTime_candidate_invalid :
  XBDateFactory utc_env (Some (Timestamp (Some maxTime)))
    (Some {| normalize := Some false |}) []
  = Ok {| utcDate := 0 |} [Some maxTime] /\
  XB.getHours {| utcDate := 0 |} [Some maxTime] = Some 0 /\
  XB.matches utc_env (getConstraintEvaluator utc_env) {| utcDate := 0 |}
    [FunctionDateConstraint observes_noon] [Some maxTime]
  = Ok false [Some maxTime; NaN] /\
  XB.getHours {| utcDate := 1 |} [Some maxTime; NaN] = NaN.
Proof. repeat split; vm_compute; reflexivity. Qed.

(** ** Arithmetic *)

Lemma add_run env l unit value h :
  add env (RawDate l) unit value h
  = Ok (DateValue {| utcDate := length h |})
       (h ++ [normalizeToUTC env
                (Some (DateObject
                   (let tv := deref h l in
                    let increment (u : DateUnit) : Number :=
                      if DateUnit_eqb unit u then value else Some 0 in
                    construct_local (localTZA env)
                      (num_add (getUTCFullYear tv) (increment year))
                      (num_add (getUTCMonth tv) (increment month))
                      (num_add (getUTCDate tv) (increment day))
                      (getUTCHours tv) (getUTCMinutes tv)
                      (getUTCSeconds tv) (getUTCMilliseconds tv))))
                DEFAULT_OPTIONS]).
Proof. reflexivity. Qed.

(** With no unit, the fold returns what it started from: the raw [Date]
    of the receiver. *)
Lemma add_no_unit env x h :
  XB.add env x None h = Ok (RawDate (utcDate x)) h /\
  XB.add env x (Some []) h = Ok (RawDate (utcDate x)) h /\
  XB.subtract env x None h = Ok (RawDate (utcDate x)) h /\
  XB.subtract env x (Some []) h = Ok (RawDate (utcDate x)) h.
Proof. repeat split; reflexivity. Qed.

(** With two units or more, the second step of the fold hands the Date
    Value of the first step to the helper, which throws. *)
Lemma add_second_unit_throws env x k1 v1 k2 v2 rest h :
  XB.add env x (Some ((k1, v1) :: (k2, v2) :: rest)) h = Throw TypeError /\
  XB.subtract env x (Some ((k1, v1) :: (k2, v2) :: rest)) h
  = Throw TypeError.
Proof. split; reflexivity. Qed.

(** [add] and [subtract] write to no existing [Date]. *)
Lemma reduce_add_frame env (f : DateUnit -> Number) keys v h r h' :
  reduce (fun newDate key => add env newDate key (f key)) keys v h
  = Ok r h' ->
  exists h'', h' = h ++ h''.
Proof.
  revert v h. induction keys as [|k keys IH]; intros v h R.
  - cbn in R. injection R as <- <-. exists []. now rewrite app_nil_r.
  - cbn [reduce] in R. unfold bind in R. destruct v as [l|y].
    + rewrite add_run in R. apply IH in R. destruct R as [h'' ->].
      eexists. now rewrite <- app_assoc.
    + discriminate.
Qed.

Lemma fullYear_id y : ~ (0 <= y <= 99) -> fullYear y = y.
Proof.
  intros N. unfold fullYear.
  destruct (Z.leb_spec 0 y), (Z.leb_spec y 99); cbn; lia.
Qed.

(** One step of day arithmetic, where the local reading of the fields
    stays on the UTC day and no two-digit year is met: noon of the day [n]
    days on. *)
Lemma add_day_step env l h t n :
  deref h l = Some t ->
  Z.abs t <= maxTime ->
  ~ (0 <= YearFromDay (Day t) <= 99) ->
  ~ (0 <= YearFromDay (Day t + n) <= 99) ->
  - 100000000 <= Day t + n < 100000000 ->
  (forall u, 0 <= TimeWithinDay t - localTZA env u < msPerDay) ->
  add env (RawDate l) day (Some n) h
  = Ok (DateValue {| utcDate := length h |})
       (h ++ [Some (MakeDate (Day t + n) noon)]).
Proof.
  intros Ht V Y0 Yn R Tz. rewrite add_run, Ht. do 3 f_equal.
  cbn [DateUnit_eqb getUTCFullYear getUTCMonth getUTCDate getUTCHours
       getUTCMinutes getUTCSeconds getUTCMilliseconds fmap option_fmap
       option_map num_add].
  unfold construct_local. cbn [mbind option_bind].
  rewrite !Z.add_0_r, MakeTime_fields.
  change (YearFromTime t) with (YearFromDay (Day t)) at 1.
  rewrite (fullYear_id _ Y0).
  change (YearFromDay (Day t)) with (YearFromTime t).
  rewrite MakeDay_fields.
  match goal with
  | |- context [localTZA env ?u] =>
      specialize (Tz u); set (z := localTZA env u) in *
  end.
  set (t1 := MakeDate (Day t + n) (TimeWithinDay t) - z).
  assert (E1 : t1 = MakeDate (Day t + n) (TimeWithinDay t - z))
    by (unfold t1, MakeDate; lia).
  assert (D1 : Day t1 = Day t + n) by (rewrite E1; now apply Day_MakeDate).
  assert (V1 : Z.abs t1 <= maxTime /\ t1 < maxTime).
  { rewrite E1. unfold MakeDate, msPerDay, maxTime in *. lia. }
  destruct V1 as [V1 L1].
  rewrite (TimeClip_valid _ V1).
  rewrite (normalizeToUTC_noon env _ DEFAULT_OPTIONS t1);
    [|cbn; now apply TimeClip_valid|reflexivity|exact L1].
  do 2 f_equal. unfold YearFromTime at 1. rewrite D1, (fullYear_id _ Yn).
  rewrite <- D1. change (YearFromDay (Day t1)) with (YearFromTime t1).
  apply MakeDay_fields_0.
Qed.

Lemma bind_ret {A} (m : M A) h : bind m (fun a => ret a) h = m h.
Proof. unfold bind, ret. now destruct (m h). Qed.

Lemma at_key_one u v : XB.at_key [(u, v)] u = v.
Proof. unfold XB.at_key. cbn. now destruct u. Qed.

Lemma add_one_unit env x u v h :
  XB.add env x (Some [(u, v)]) h = add env (RawDate (utcDate x)) u v h.
Proof.
  unfold XB.add. cbn [default from_option id Object_keys fmap list_fmap fst
                      reduce].
  rewrite at_key_one. apply bind_ret.
Qed.

Lemma subtract_one_unit env x u v h :
  XB.subtract env x (Some [(u, v)]) h
  = add env (RawDate (utcDate x)) u (num_mul (Some (-1)) v) h.
Proof.
  unfold XB.subtract.
  cbn [default from_option id Object_keys fmap list_fmap fst reduce].
  rewrite at_key_one. apply bind_ret.
Qed.

(** Where the code does what C4 says: for every valid Date Value [d]
    before the last representable instant and every integer [n] such that
    the day [n] days from [d] is representable, [d.add({day: n})] followed
    by [.subtract({day: n})] returns a Date Value equal to [d] at day
    precision, month and year rollover included, when neither day lies in
    a year from 0 to 99 and local time is such that the UTC time of day of
    [d] and UTC noon, read as local times, fall on the same UTC day (as
    they do in UTC). *)
Theorem add_subtract_day env x h t n :
  (utcDate x < length h)%nat ->
  deref h (utcDate x) = Some t ->
  Z.abs t <= maxTime ->
  t < maxTime ->
  - 100000000 <= Day t + n < 100000000 ->
  ~ (0 <= YearFromTime t <= 99) ->
  ~ (0 <= YearFromDay (Day t + n) <= 99) ->
  (forall u, 0 <= TimeWithinDay t - localTZA env u < msPerDay) ->
  (forall u, 0 <= noon - localTZA env u < msPerDay) ->
  exists x1 h1 x2 h2,
    XB.add env x (Some [(day, Some n)]) h = Ok (DateValue x1) h1 /\
    XB.subtract env x1 (Some [(day, Some n)]) h1 = Ok (DateValue x2) h2 /\
    XB.is_ "=" x (Some day) x2 h2 = true /\
    deref h1 (utcDate x1) = Some (MakeDate (Day t + n) noon) /\
    deref h2 (utcDate x2) = Some (MakeDate (Day t) noon).
Proof.
  intros L Ht V Lt R Y0 Yn Tz Tn.
  assert (Nn : 0 <= noon < msPerDay) by (split; [|reflexivity]; discriminate).
  set (t1 := MakeDate (Day t + n) noon).
  assert (D1 : Day t1 = Day t + n) by now apply Day_MakeDate.
  assert (W1 : TimeWithinDay t1 = noon) by now apply TimeWithinDay_MakeDate.
  assert (V1 : Z.abs t1 <= maxTime).
  { unfold t1, MakeDate, msPerDay, maxTime in *. lia. }
  destruct (Day_range t V) as [R0 R1]. specialize (R1 Lt).
  set (h1 := h ++ [Some t1]).
  assert (H1 : deref h1 (length h) = Some t1) by apply deref_alloc.
  exists {| utcDate := length h |}, h1,
         {| utcDate := length h1 |},
         (h1 ++ [Some (MakeDate (Day t) noon)]).
  split; [|split; [|split; [|split]]].
  - rewrite add_one_unit. now apply add_day_step.
  - rewrite subtract_one_unit. cbn [utcDate num_mul].
    replace (Day t) with (Day t1 + -1 * n) by lia.
    apply add_day_step; try assumption.
    + now rewrite D1.
    + replace (Day t1 + -1 * n) with (Day t) by lia. exact Y0.
    + lia.
    + intros u. rewrite W1. apply Tn.
  - unfold XB.is_, XB.get. cbn [utcDate default from_option id].
    rewrite deref_alloc. unfold h1.
    rewrite !deref_app_l by (rewrite ?length_app; cbn; lia).
    rewrite Ht, !getComparableDate_value.
    assert (F : Day (MakeDate (Day t) noon) = Day t)
      by now apply Day_MakeDate.
    apply calendar_fields_of_Day in F. destruct F as (Fy & Fm & Fd).
    unfold comparable_number. rewrite Fy, Fm, Fd.
    apply compare_operators. apply Z.compare_refl.
  - exact H1.
  - cbn [utcDate]. apply deref_alloc.
Qed.

Lemma add_subtract_day_witness :
  exists x1 h1 x2 h2,
    XB.add utc_env {| utcDate := 0 |} (Some [(day, Some 1)])
      [Some (t_2023_12_31 + noon)] = Ok (DateValue x1) h1 /\
    XB.getYear x1 h1 = Some 2024 /\
    XB.getMonth x1 h1 = Some 0 /\
    XB.getDate x1 h1 = Some 1 /\
    XB.subtract utc_env x1 (Some [(day, Some 1)]) h1
    = Ok (DateValue x2) h2 /\
    XB.is_ "=" {| utcDate := 0 |} (Some day) x2 h2 = true.
Proof.
  assert (L : (utcDate {| utcDate := 0 |}
               < length [Some (t_2023_12_31 + noon)%Z])%nat) by (cbn; lia).
  assert (V : Z.abs (t_2023_12_31 + noon) <= maxTime)
    by (vm_compute; congruence).
  assert (Lt : t_2023_12_31 + noon < maxTime) by reflexivity.
  assert (R : - 100000000 <= Day (t_2023_12_31 + noon) + 1 < 100000000)
    by (split; [vm_compute; congruence | reflexivity]).
  assert (Y0 : ~ (0 <= YearFromTime (t_2023_12_31 + noon) <= 99))
    by (intros [_ H]; vm_compute in H; congruence).
  assert (Yn : ~ (0 <= YearFromDay (Day (t_2023_12_31 + noon) + 1) <= 99))
    by (intros [_ H]; vm_compute in H; congruence).
  assert (Tz : forall u, 0 <= TimeWithinDay (t_2023_12_31 + noon)
                              - localTZA utc_env u < msPerDay)
    by (intros u; split; [vm_compute; congruence | reflexivity]).
  assert (Tn : forall u, 0 <= noon - localTZA utc_env u < msPerDay)
    by (intros u; split; [vm_compute; congruence | reflexivity]).
  destruct (add_subtract_day utc_env {| utcDate := 0 |}
              [Some (t_2023_12_31 + noon)] (t_2023_12_31 + noon) 1
              L eq_refl V Lt R Y0 Yn Tz Tn)
    as (x1 & h1 & x2 & h2 & A & S & E & C1 & _).
  exists x1, h1, x2, h2. unfold XB.getYear, XB.getMonth, XB.getDate.
  rewrite C1. repeat split; try assumption; vm_compute; reflexivity.
Defined.

(** C4.  The code fails the claim: the helper [add] reads the UTC fields
    of the date and hands them to the constructor that takes local time.
    Thirteen hours ahead of UTC, adding one day to 2024-03-15 gives
    2024-03-15 and subtracting one day from that gives 2024-03-13; and in
    UTC, where that constructor meets a two-digit year, one day before
    0100-01-01 is taken for 1999-12-31, and one day after that is
    2000-01-01. *)
Lemma add_subtract_day_fails :
  (XBDateFactory tongatapu_env (Some (Timestamp (Some t_2024_03_15))) None []
   = Ok {| utcDate := 0 |} [Some (t_2024_03_15 + noon)] /\
   XB.add tongatapu_env {| utcDate := 0 |} (Some [(day, Some 1)])
     [Some (t_2024_03_15 + noon)]
   = Ok (DateValue {| utcDate := 1 |})
        [Some (t_2024_03_15 + noon); Some (t_2024_03_15 + noon)] /\
   XB.subtract tongatapu_env {| utcDate := 1 |} (Some [(day, Some 1)])
     [Some (t_2024_03_15 + noon); Some (t_2024_03_15 + noon)]
   = Ok (DateValue {| utcDate := 2 |})
        [Some (t_2024_03_15 + noon); Some (t_2024_03_15 + noon);
         Some (t_2024_03_15 - 2 * msPerDay + noon)] /\
   XB.is_ "=" {| utcDate := 0 |} (Some day) {| utcDate := 2 |}
     [Some (t_2024_03_15 + noon); Some (t_2024_03_15 + noon);
      Some (t_2024_03_15 - 2 * msPerDay + noon)] = false) /\
  (XBDateFactory utc_env (Some (Timestamp (Some t_0100_01_01))) None []
   = Ok {| utcDate := 0 |} [Some (t_0100_01_01 + noon)] /\
   XB.add utc_env {| utcDate := 0 |} (Some [(day, Some (-1))])
     [Some (t_0100_01_01 + noon)]
   = Ok (DateValue {| utcDate := 1 |})
        [Some (t_0100_01_01 + noon); Some (t_2000_01_01 - msPerDay + noon)] /\
   XB.subtract utc_env {| utcDate := 1 |} (Some [(day, Some (-1))])
     [Some (t_0100_01_01 + noon); Some (t_2000_01_01 - msPerDay + noon)]
   = Ok (DateValue {| utcDate := 2 |})
        [Some (t_0100_01_01 + noon); Some (t_2000_01_01 - msPerDay + noon);
         Some (t_2000_01_01 + noon)] /\
   XB.is_ "=" {| utcDate := 0 |} (Some day) {| utcDate := 2 |}
     [Some (t_0100_01_01 + noon); Some (t_2000_01_01 - msPerDay + noon);
      Some (t_2000_01_01 + noon)] = false).
Proof. repeat split; vm_compute; reflexivity. Qed.

(** A day out of range is the invalid date, which is equal to nothing:
    the last day of the range has no noon, so two days after noon of the
    last day but two there is no Date Value to come back from. *)
Example add_day_out_of_range :
  XB.add utc_env {| utcDate := 0 |} (Some [(day, Some 2)])
    [Some (maxTime - msPerDay - noon)]
  = Ok (DateValue {| utcDate := 1 |}) [Some (maxTime - msPerDay - noon); NaN] /\
  XB.subtract utc_env {| utcDate := 1 |} (Some [(day, Some 2)])
    [Some (maxTime - msPerDay - noon); NaN]
  = Ok (DateValue {| utcDate := 2 |})
       [Some (maxTime - msPerDay - noon); NaN; NaN] /\
  XB.is_ "=" {| utcDate := 0 |} (Some day) {| utcDate := 2 |}
    [Some (maxTime - msPerDay - noon); NaN; NaN] = false.
Proof. repeat split; vm_compute; reflexivity. Qed.

(** ** Setting fields *)

Lemma MakeDay_in_year y m d :
  0 <= m <= 11 ->
  MakeDay y m d
  = DayFromYear y + monthStart m (if DaysInYear y =? 366 then 1 else 0)
    + d - 1.
Proof.
  intros R. unfold MakeDay.
  replace (m / 12) with 0 by div_lia.
  rewrite Z.mod_small by lia. now rewrite Z.add_0_r.
Qed.



(** The setters of the year, month and date with the current value of
    the field leave a valid date as it is. *)
Lemma setters_current t :
  Z.abs t <= maxTime ->
  setUTCFullYear (Some t) (Some (YearFromTime t)) = Some t /\
  setUTCMonth (Some t) (Some (MonthFromTime t)) = Some t /\
  setUTCDate (Some t) (Some (DateFromTime t)) = Some t.
Proof.
  intros V. unfold setUTCFullYear, setUTCMonth, setUTCDate.
  cbn [default from_option id mbind option_bind].
  rewrite MakeDay_fields_0, MakeDate_Day.
  repeat split; now apply TimeClip_valid.
Qed.


(** The setters run one after the other, so a day that does not exist in
    an intermediate month is carried over twice: from 31 January, setting
    month 1 gives 31 March, not the 2 March that 31 February rolls to. *)
Example set_month_from_31 :
  XB.set {| utcDate := 0 |} (Some [(month, Some 1)])
    [UTC (Some 2024) (Some 0) (Some 31) (Some 12) (Some 0) (Some 0)
       (Some 0)]
  = Ok {| utcDate := 0 |}
       [UTC (Some 2024) (Some 2) (Some 31) (Some 12) (Some 0) (Some 0)
          (Some 0)] /\
  UTC (Some 2024) (Some 1) (Some 31) (Some 12) (Some 0) (Some 0) (Some 0)
  = UTC (Some 2024) (Some 2) (Some 2) (Some 12) (Some 0) (Some 0) (Some 0).
Proof. split; vm_compute; reflexivity. Qed.

(** ** [subtract] is [add] of the negated amounts *)

Lemma reduce_ext {A B} (f g : B -> A -> M B) l init h :
  (forall b a h', f b a h' = g b a h') ->
  reduce f l init h = reduce g l init h.
Proof.
  intros E. revert init h. induction l as [|a l IH]; intros init h.
  - reflexivity.
  - cbn [reduce]. unfold bind. rewrite E.
    destruct (g init a h); [apply IH|reflexivity].
Qed.

Lemma prop_negated o key :
  prop (negated o) key = num_mul (Some (-1)) <$> prop o key.
Proof.
  induction o as [|[k v] o IH]; [reflexivity|].
  cbn. destruct (DateUnit_eqb k key); [reflexivity|exact IH].
Qed.

Lemma subtract_is_add_negated env x o h :
  XB.subtract env x (Some o) h = XB.add env x (Some (negated o)) h.
Proof.
  unfold XB.subtract, XB.add. cbn [default from_option id].
  assert (K : Object_keys (negated o) = Object_keys o).
  { unfold Object_keys, negated. rewrite <- list_fmap_compose.
    apply list_fmap_ext. now intros i [k v]. }
  rewrite K. apply reduce_ext. intros b a h'.
  unfold XB.at_key. rewrite prop_negated.
  now destruct (prop o a).
Qed.

(** A single unit is applied by the helper to the raw [Date] of the
    receiver; the other two increments are zero. *)
Lemma add_single_unit env x u v h :
  XB.add env x (Some [(u, v)]) h
  = Ok (DateValue {| utcDate := length h |})
       (h ++ [normalizeToUTC env
                (Some (DateObject
                   (let tv := deref h (utcDate x) in
                    construct_local (localTZA env)
                      (num_add (getUTCFullYear tv)
                         (if DateUnit_eqb u year then v else Some 0))
                      (num_add (getUTCMonth tv)
                         (if DateUnit_eqb u month then v else Some 0))
                      (num_add (getUTCDate tv)
                         (if DateUnit_eqb u day then v else Some 0))
                      (getUTCHours tv) (getUTCMinutes tv)
                      (getUTCSeconds tv) (getUTCMilliseconds tv))))
                DEFAULT_OPTIONS]).
Proof. rewrite add_one_unit. apply add_run. Qed.

(** C5 fails on the code: with the two units year and month, each one
    month or year, the second step of the fold is given the Date Value the
    first step returned, and [add] and [subtract] throw. *)
Theorem add_year_month_throws :
  XBDateFactory utc_env (Some (Timestamp (Some t_2024_03_15))) None []
  = Ok {| utcDate := 0 |} [Some (t_2024_03_15 + noon)] /\
  XB.add utc_env {| utcDate := 0 |} (Some [(year, Some 1); (month, Some 1)])
    [Some (t_2024_03_15 + noon)] = Throw TypeError /\
  XB.subtract utc_env {| utcDate := 0 |}
    (Some [(year, Some 1); (month, Some 1)])
    [Some (t_2024_03_15 + noon)] = Throw TypeError.
Proof.
  split; [vm_compute; reflexivity|].
  apply add_second_unit_throws.
Qed.

(** C9 fails on the code: with the empty mapping, or none, [add] and
    [subtract] return the raw [Date] of the receiver, not a new Date
    Value; a write through what they return is a write to the receiver. *)
Theorem add_nothing_returns_own_Date :
  XBDateFactory utc_env (Some (Timestamp (Some t_2024_03_15))) None []
  = Ok {| utcDate := 0 |} [Some (t_2024_03_15 + noon)] /\
  XB.add utc_env {| utcDate := 0 |} (Some [])
    [Some (t_2024_03_15 + noon)]
  = Ok (RawDate (XB.get {| utcDate := 0 |})) [Some (t_2024_03_15 + noon)] /\
  XB.add utc_env {| utcDate := 0 |} None [Some (t_2024_03_15 + noon)]
  = Ok (RawDate (XB.get {| utcDate := 0 |})) [Some (t_2024_03_15 + noon)] /\
  XB.subtract utc_env {| utcDate := 0 |} (Some [])
    [Some (t_2024_03_15 + noon)]
  = Ok (RawDate (XB.get {| utcDate := 0 |})) [Some (t_2024_03_15 + noon)] /\
  XB.getDate {| utcDate := 0 |} [Some (t_2024_03_15 + noon)] = Some 15 /\
  XB.getDate {| utcDate := 0 |}
    (<[XB.get {| utcDate := 0 |} :=
         setUTCDate (Some (t_2024_03_15 + noon)) (Some 1)]>
       [Some (t_2024_03_15 + noon)]) = Some 1.
Proof. repeat split; vm_compute; reflexivity. Qed.

(** What does hold of [add] and [subtract] for every mapping: they write
    to no existing [Date], so the fields of the receiver are unchanged. *)
Lemma add_leaves_receiver env x summands h v h' :
  XB.add env x summands h = Ok v h' \/
  XB.subtract env x summands h = Ok v h' ->
  forall l, (l < length h)%nat -> deref h' l = deref h l.
Proof.
  intros [R|R] l L; apply reduce_add_frame in R; destruct R as [h'' ->];
    now apply deref_app_l.
Qed.

(** ** Calendar order is the order of days *)

Lemma MonthFromTime_spec t :
  monthStart (MonthFromTime t) (InLeapYear t) <= DayWithinYear t
  < monthStart (MonthFromTime t + 1) (InLeapYear t).
Proof.
  pose proof (DayWithinYear_bounds t) as B.
  pose proof (InLeapYear_cases t) as L.
  unfold MonthFromTime. revert B L.
  generalize (DayWithinYear t), (InLeapYear t). intros d leap B L.
  repeat match goal with
         | |- context [if ?a <? ?b then _ else _] => destruct (Z.ltb_spec a b)
         end;
    destruct L as [-> | ->];
    repeat match goal with
           | |- context [monthStart ?a ?b] =>
               let v := eval vm_compute in (monthStart a b) in
               change (monthStart a b) with v
           end; lia.
Qed.

Lemma monthStart_le a b leap :
  0 <= a <= b -> b <= 12 -> 0 <= leap <= 1 ->
  monthStart a leap <= monthStart b leap.
Proof.
  intros A B L.
  assert (Ca : a = 0 \/ a = 1 \/ a = 2 \/ a = 3 \/ a = 4 \/ a = 5 \/ a = 6
               \/ a = 7 \/ a = 8 \/ a = 9 \/ a = 10 \/ a = 11 \/ a = 12)
    by lia.
  assert (Cb : b = 0 \/ b = 1 \/ b = 2 \/ b = 3 \/ b = 4 \/ b = 5 \/ b = 6
               \/ b = 7 \/ b = 8 \/ b = 9 \/ b = 10 \/ b = 11 \/ b = 12)
    by lia.
  assert (Cl : leap = 0 \/ leap = 1) by lia.
  repeat (destruct Ca as [->|Ca]); subst;
    repeat (destruct Cb as [->|Cb]); subst;
    try lia; destruct Cl as [-> | ->]; vm_compute; congruence.
Qed.

Lemma Day_fields t :
  Day t = DayFromYear (YearFromTime t)
          + monthStart (MonthFromTime t) (InLeapYear t)
          + DateFromTime t - 1.
Proof.
  pose proof (monthStart_DateFromTime t) as E.
  unfold DayWithinYear in E. lia.
Qed.

(** At day precision, the calendar order of two instants is the order of
    their days. *)
Lemma calendar_compare_day t u :
  calendar_compare day t u = (Day t ?= Day u).
Proof.
  unfold calendar_compare, calendar_fields.
  cbn [XB.COMPARE_TO take lex_compare].
  pose proof (YearFromDay_spec (Day t)) as St.
  pose proof (YearFromDay_spec (Day u)) as Su.
  fold (YearFromTime t) in St. fold (YearFromTime u) in Su.
  pose proof (MonthFromTime_spec t) as Mt.
  pose proof (MonthFromTime_spec u) as Mu.
  pose proof (MonthFromTime_range t) as Rt.
  pose proof (MonthFromTime_range u) as Ru.
  pose proof (InLeapYear_cases u) as Lu.
  pose proof (DateFromTime_range t) as Dt.
  pose proof (DateFromTime_range u) as Du.
  pose proof (monthStart_DateFromTime t) as Ft.
  pose proof (monthStart_DateFromTime u) as Fu.
  unfold DayWithinYear in *.
  destruct (Z.compare_spec (YearFromTime t) (YearFromTime u)) as [Y|Y|Y].
  - assert (L : InLeapYear t = InLeapYear u)
      by (unfold InLeapYear; now rewrite Y).
    rewrite L in *. rewrite Y in *. clear L Y.
    destruct (Z.compare_spec (MonthFromTime t) (MonthFromTime u)) as [E|E|E].
    + rewrite E in *.
      destruct (Z.compare_spec (DateFromTime t) (DateFromTime u));
        symmetry;
        first [ apply Z.compare_eq_iff | apply Z.compare_lt_iff
              | apply Z.compare_gt_iff ]; lia.
    + symmetry. apply Z.compare_lt_iff.
      pose proof (monthStart_le (MonthFromTime t + 1) (MonthFromTime u)
                    (InLeapYear u)).
      lia.
    + symmetry. apply Z.compare_gt_iff.
      pose proof (monthStart_le (MonthFromTime u + 1) (MonthFromTime t)
                    (InLeapYear u)).
      lia.
  - symmetry. apply Z.compare_lt_iff.
    assert (DayFromYear (YearFromTime t + 1) <= DayFromYear (YearFromTime u)).
    { destruct (Z.eq_dec (YearFromTime t + 1) (YearFromTime u)) as [->|];
        [lia|]. apply Z.lt_le_incl, DayFromYear_lt. lia. }
    lia.
  - symmetry. apply Z.compare_gt_iff.
    assert (DayFromYear (YearFromTime u + 1) <= DayFromYear (YearFromTime t)).
    { destruct (Z.eq_dec (YearFromTime u + 1) (YearFromTime t)) as [->|];
        [lia|]. apply Z.lt_le_incl, DayFromYear_lt. lia. }
    lia.
Qed.

(** * Further properties of the code *)

(** ** The calendar getters undo [MakeDay] *)

Lemma leapOf_cases y : leapOf y = 0 \/ leapOf y = 1.
Proof. unfold leapOf. destruct (_ =? _); lia. Qed.

Lemma DaysInYear_leapOf y : DaysInYear y = 365 + leapOf y.
Proof.
  unfold leapOf. destruct (DaysInYear_cases y) as [E|E]; rewrite E; reflexivity.
Qed.

Lemma monthStart_12 leap : monthStart 12 leap = 365 + leap.
Proof. reflexivity. Qed.

Lemma DaysInMonth_pos m leap :
  0 <= m <= 11 -> 0 <= leap <= 1 -> 28 <= DaysInMonth m leap <= 31.
Proof.
  intros Hm Hl. unfold DaysInMonth.
  assert (Cm : m = 0 \/ m = 1 \/ m = 2 \/ m = 3 \/ m = 4 \/ m = 5 \/ m = 6
               \/ m = 7 \/ m = 8 \/ m = 9 \/ m = 10 \/ m = 11) by lia.
  assert (Cl : leap = 0 \/ leap = 1) by lia.
  repeat (destruct Cm as [->|Cm]); subst;
    destruct Cl as [-> | ->]; vm_compute; split; congruence.
Qed.

(** The month of a day within the year, by the table of month starts. *)
Lemma MonthFromTime_unique t m :
  0 <= m <= 11 ->
  monthStart m (InLeapYear t) <= DayWithinYear t
  < monthStart (m + 1) (InLeapYear t) ->
  MonthFromTime t = m.
Proof.
  intros Hm B. pose proof (MonthFromTime_spec t) as S.
  pose proof (MonthFromTime_range t) as R.
  pose proof (InLeapYear_cases t) as L.
  destruct (Z.lt_trichotomy (MonthFromTime t) m) as [Lt|[E|Gt]];
    [|exact E|].
  - pose proof (monthStart_le (MonthFromTime t + 1) m (InLeapYear t)). lia.
  - pose proof (monthStart_le (m + 1) (MonthFromTime t) (InLeapYear t)). lia.
Qed.

(** A day of a month that exists, at a time within the day, has the
    fields it was made from. *)
Lemma fields_of_MakeDay y m d tm :
  0 <= m <= 11 ->
  1 <= d <= DaysInMonth m (leapOf y) ->
  0 <= tm < msPerDay ->
  YearFromTime (MakeDate (MakeDay y m d) tm) = y /\
  MonthFromTime (MakeDate (MakeDay y m d) tm) = m /\
  DateFromTime (MakeDate (MakeDay y m d) tm) = d.
Proof.
  intros Hm Hd Ht. set (t := MakeDate (MakeDay y m d) tm).
  pose proof (leapOf_cases y) as L.
  assert (D : Day t = DayFromYear y + (monthStart m (leapOf y) + d - 1)).
  { unfold t. rewrite Day_MakeDate by assumption.
    rewrite MakeDay_in_year by assumption. fold (leapOf y). lia. }
  pose proof (monthStart_le 0 m (leapOf y)) as M0.
  pose proof (monthStart_le (m + 1) 12 (leapOf y)) as M1.
  rewrite monthStart_12 in M1. change (monthStart 0 (leapOf y)) with 0 in M0.
  unfold DaysInMonth in Hd.
  assert (Y : YearFromTime t = y).
  { unfold YearFromTime. rewrite D. apply YearFromDay_unique.
    rewrite DayFromYear_succ, DaysInYear_leapOf. lia. }
  assert (LL : InLeapYear t = leapOf y) by (unfold InLeapYear; now rewrite Y).
  assert (W : DayWithinYear t = monthStart m (leapOf y) + d - 1).
  { unfold DayWithinYear. rewrite D, Y. lia. }
  assert (Mo : MonthFromTime t = m).
  { apply MonthFromTime_unique; [assumption|]. rewrite LL, W. lia. }
  split; [exact Y|]. split; [exact Mo|].
  pose proof (monthStart_DateFromTime t) as E.
  rewrite Mo, LL, W in E. lia.
Qed.

(** The date of a valid instant exists in its month. *)
Lemma DateFromTime_in_month t :
  1 <= DateFromTime t <= DaysInMonth (MonthFromTime t) (InLeapYear t).
Proof.
  pose proof (MonthFromTime_spec t) as S.
  pose proof (monthStart_DateFromTime t) as E.
  pose proof (DateFromTime_range t) as R.
  unfold DaysInMonth. lia.
Qed.

(** ** Construction: the day that is kept *)

(** With normalization, the instant kept is the invalid date or the noon of
    a day, for every input. *)
Lemma normalizeToUTC_default_cases env dateArg options :
  truthy (normalize options) = true ->
  normalizeToUTC env dateArg options = NaN \/
  exists d, normalizeToUTC env dateArg options = Some (MakeDate d noon).
Proof.
  intros N. rewrite normalizeToUTC_unfold, N.
  destruct (input_date env dateArg) as [t|]; [|now left].
  cbn -[TimeClip MakeDay MakeTime]. fold noon.
  set (v := MakeDate _ noon).
  destruct (TimeClip v) as [w|] eqn:E; [|now left].
  apply TimeClip_Some in E. destruct E as [-> V].
  right. eexists. cbn -[TimeClip]. now rewrite TimeClip_valid.
Qed.



(** X2.  Outside the years 0 to 99, construction keeps the calendar day of a
    valid input: without normalization the instant itself, with
    normalization the noon of its day, with the year, month, date and
    weekday of the input. *)
Theorem XBDateFactory_keeps_day env dateArg optionsArg h t :
  input_date env dateArg = Some t ->
  ~ (0 <= YearFromTime t <= 99) ->
  exists x h',
    XBDateFactory env dateArg optionsArg h = Ok x h' /\
    (normalizes optionsArg = false -> XB.getTime x h' = Some t) /\
    (normalizes optionsArg = true -> t < maxTime ->
     XB.getTime x h' = Some (MakeDate (Day t) noon) /\
     XB.getYear x h' = Some (YearFromTime t) /\
     XB.getMonth x h' = Some (MonthFromTime t) /\
     XB.getDate x h' = Some (DateFromTime t) /\
     XB.getWeekday x h' = Some (WeekDay t)).
Proof.
  intros I Y. rewrite XBDateFactory_run. eexists _, _.
  split; [reflexivity|].
  unfold XB.getTime, XB.getYear, XB.getMonth, XB.getDate, XB.getWeekday,
    normalizes.
  cbn [utcDate]. rewrite deref_alloc. split.
  - intros N. rewrite (normalizeToUTC_keep _ _ _ _ I N), (fullYear_id _ Y).
    now rewrite MakeDay_fields_0, MakeDate_Day.
  - intros N L. rewrite (normalizeToUTC_noon _ _ _ _ I N L), (fullYear_id _ Y).
    rewrite MakeDay_fields_0.
    assert (D : Day (MakeDate (Day t) noon) = Day t)
      by (apply Day_MakeDate; split; [discriminate|reflexivity]).
    destruct (calendar_fields_of_Day _ _ D) as (Ey & Em & Ed).
    cbn [JSDate.getTime getUTCFullYear getUTCMonth getUTCDate getUTCDay fmap
         option_fmap option_map].
    unfold WeekDay. now rewrite Ey, Em, Ed, D.
Qed.

Lemma XBDateFactory_keeps_day_witness :
  exists x h',
    XBDateFactory utc_env (Some (Timestamp (Some t_2024_03_15_evening)))
      None [] = Ok x h' /\
    XB.getTime x h' = Some (t_2024_03_15 + noon) /\
    XB.getYear x h' = Some 2024 /\
    XB.getMonth x h' = Some 2 /\
    XB.getDate x h' = Some 15 /\
    XB.getWeekday x h' = Some 5.
Proof.
  assert (Y : ~ (0 <= YearFromTime t_2024_03_15_evening <= 99))
    by (intros [_ H]; vm_compute in H; congruence).
  destruct (XBDateFactory_keeps_day utc_env
              (Some (Timestamp (Some t_2024_03_15_evening))) None []
              t_2024_03_15_evening eq_refl Y) as (x & h' & E & _ & N).
  exists x, h'. split; [exact E|]. apply N; reflexivity.
Defined.

Lemma leapOf_two_digit y : 1 <= y <= 99 -> leapOf (1900 + y) = leapOf y.
Proof.
  intros H. unfold leapOf, DaysInYear.
  destruct (Z.eqb_spec ((1900 + y) mod 4) 0),
    (Z.eqb_spec ((1900 + y) mod 100) 0),
    (Z.eqb_spec ((1900 + y) mod 400) 0),
    (Z.eqb_spec (y mod 4) 0), (Z.eqb_spec (y mod 100) 0),
    (Z.eqb_spec (y mod 400) 0); cbn; try reflexivity; exfalso; div_lia.
Qed.

(** X3.  A valid input in a year from 1 to 99 is taken in the twentieth
    century: the Date Value has the year plus 1900 and the month and date
    of the input, with or without normalization. *)
Theorem XBDateFactory_two_digit_year env dateArg optionsArg h t :
  input_date env dateArg = Some t ->
  1 <= YearFromTime t <= 99 ->
  exists x h',
    XBDateFactory env dateArg optionsArg h = Ok x h' /\
    XB.getYear x h' = Some (1900 + YearFromTime t) /\
    XB.getMonth x h' = Some (MonthFromTime t) /\
    XB.getDate x h' = Some (DateFromTime t).
Proof.
  intros I Y. pose proof (input_date_valid _ _ _ I) as V.
  assert (L : t < maxTime).
  { destruct (Z.eq_dec t maxTime) as [->|]; [|lia].
    vm_compute in Y. destruct Y as [_ Y]. now contradiction Y. }
  rewrite XBDateFactory_run. eexists _, _. split; [reflexivity|].
  unfold XB.getYear, XB.getMonth, XB.getDate. cbn [utcDate].
  rewrite deref_alloc.
  assert (F : fullYear (YearFromTime t) = 1900 + YearFromTime t).
  { unfold fullYear. destruct (Z.leb_spec 0 (YearFromTime t)),
      (Z.leb_spec (YearFromTime t) 99); cbn; lia. }
  pose proof (DateFromTime_in_month t) as Dm.
  change (InLeapYear t) with (leapOf (YearFromTime t)) in Dm.
  rewrite <- (leapOf_two_digit _ Y) in Dm.
  pose proof (MonthFromTime_range t) as Mr.
  assert (R : exists tm, 0 <= tm < msPerDay /\
    normalizeToUTC env dateArg
      (spread DEFAULT_OPTIONS (default DEFAULT_OPTIONS optionsArg))
    = Some (MakeDate (MakeDay (1900 + YearFromTime t) (MonthFromTime t)
                              (DateFromTime t)) tm)).
  { destruct (truthy (normalize (spread DEFAULT_OPTIONS
                (default DEFAULT_OPTIONS optionsArg)))) eqn:N.
    - exists noon. split; [split; [discriminate|reflexivity]|].
      now rewrite (normalizeToUTC_noon _ _ _ _ I N L), F.
    - exists (TimeWithinDay t). split; [apply TimeWithinDay_range|].
      now rewrite (normalizeToUTC_keep _ _ _ _ I N), F. }
  destruct R as (tm & Tm & ->).
  destruct (fields_of_MakeDay (1900 + YearFromTime t) (MonthFromTime t)
              (DateFromTime t) tm Mr Dm Tm) as (Ey & Em & Ed).
  cbn [getUTCFullYear getUTCMonth getUTCDate fmap option_fmap option_map].
  now rewrite Ey, Em, Ed.
Qed.

Lemma XBDateFactory_two_digit_year_witness :
  exists x h',
    XBDateFactory utc_env (Some (Timestamp (Some t_0050_06_15)))
      (Some {| normalize := Some false |}) [] = Ok x h' /\
    XB.getYear x h' = Some 1950 /\
    XB.getMonth x h' = Some 5 /\
    XB.getDate x h' = Some 15.
Proof.
  assert (Y : 1 <= YearFromTime t_0050_06_15 <= 99)
    by (split; vm_compute; congruence).
  apply (XBDateFactory_two_digit_year utc_env
           (Some (Timestamp (Some t_0050_06_15)))
           (Some {| normalize := Some false |}) [] t_0050_06_15 eq_refl Y).
Defined.

(** ** The accessors *)

Lemma YearFromTime_range t :
  Z.abs t <= maxTime -> - 271821 <= YearFromTime t <= 275760.
Proof.
  intros V. destruct (Day_range t V) as [R _].
  pose proof (YearFromDay_spec (Day t)) as S. fold (YearFromTime t) in S.
  split.
  - destruct (Z.le_gt_cases (- 271821) (YearFromTime t)) as [|G];
      [assumption|exfalso].
    assert (DayFromYear (YearFromTime t + 1) <= DayFromYear (- 271821)).
    { destruct (Z.eq_dec (YearFromTime t + 1) (- 271821)) as [->|]; [lia|].
      apply Z.lt_le_incl, DayFromYear_lt. lia. }
    assert (DayFromYear (- 271821) < - 100000000) by reflexivity. lia.
  - destruct (Z.le_gt_cases (YearFromTime t) 275760) as [|G];
      [assumption|exfalso].
    assert (DayFromYear 275761 <= DayFromYear (YearFromTime t)).
    { destruct (Z.eq_dec 275761 (YearFromTime t)) as [<-|]; [lia|].
      apply Z.lt_le_incl, DayFromYear_lt. lia. }
    assert (100000000 < DayFromYear 275761) by reflexivity. lia.
Qed.

(** X4.  On a valid Date Value every accessor returns an integer in the range
    of its field: the month counts from 0, the date from 1, the weekday
    from 0, and the year is within the years the primitive can hold. *)
Theorem accessors_in_range x h t :
  deref h (utcDate x) = Some t ->
  Z.abs t <= maxTime ->
  XB.getTime x h = Some t /\
  (exists y, XB.getYear x h = Some y /\ - 271821 <= y <= 275760) /\
  (exists m, XB.getMonth x h = Some m /\ 0 <= m <= 11) /\
  (exists d, XB.getDate x h = Some d /\ 1 <= d <= 31) /\
  (exists w, XB.getWeekday x h = Some w /\ 0 <= w <= 6) /\
  (exists hr, XB.getHours x h = Some hr /\ 0 <= hr <= 23) /\
  (exists mi, XB.getMinutes x h = Some mi /\ 0 <= mi <= 59) /\
  (exists s, XB.getSeconds x h = Some s /\ 0 <= s <= 59).
Proof.
  intros Ht V.
  unfold XB.getTime, XB.getYear, XB.getMonth, XB.getDate, XB.getWeekday,
    XB.getHours, XB.getMinutes, XB.getSeconds.
  rewrite Ht. split; [reflexivity|].
  repeat split; eexists; (split; [reflexivity|]).
  - now apply YearFromTime_range.
  - apply MonthFromTime_range.
  - apply DateFromTime_range.
  - unfold WeekDay. div_lia.
  - unfold HourFromTime. div_lia.
  - unfold MinFromTime. div_lia.
  - unfold SecFromTime. div_lia.
Qed.

Lemma accessors_in_range_witness :
  XB.getTime {| utcDate := 0 |} [Some t_2024_03_15_evening]
  = Some t_2024_03_15_evening /\
  (exists y, XB.getYear {| utcDate := 0 |} [Some t_2024_03_15_evening]
             = Some y /\ - 271821 <= y <= 275760) /\
  (exists m, XB.getMonth {| utcDate := 0 |} [Some t_2024_03_15_evening]
             = Some m /\ 0 <= m <= 11) /\
  (exists d, XB.getDate {| utcDate := 0 |} [Some t_2024_03_15_evening]
             = Some d /\ 1 <= d <= 31) /\
  (exists w, XB.getWeekday {| utcDate := 0 |} [Some t_2024_03_15_evening]
             = Some w /\ 0 <= w <= 6) /\
  (exists hr, XB.getHours {| utcDate := 0 |} [Some t_2024_03_15_evening]
              = Some hr /\ 0 <= hr <= 23) /\
  (exists mi, XB.getMinutes {| utcDate := 0 |} [Some t_2024_03_15_evening]
              = Some mi /\ 0 <= mi <= 59) /\
  (exists s, XB.getSeconds {| utcDate := 0 |} [Some t_2024_03_15_evening]
             = Some s /\ 0 <= s <= 59).
Proof.
  apply (accessors_in_range {| utcDate := 0 |} [Some t_2024_03_15_evening]
           t_2024_03_15_evening eq_refl).
  vm_compute. congruence.
Defined.

(** ** The range of time values is kept *)

Lemma TimeClip_in_range t : in_range (TimeClip t).
Proof.
  destruct (TimeClip t) as [u|] eqn:E; [|exact I].
  apply TimeClip_Some in E. destruct E as [-> V]. exact V.
Qed.

Lemma bind_TimeClip_in_range (v : Number) : in_range (v ≫= TimeClip).
Proof. destruct v as [n|]; [apply TimeClip_in_range|exact I]. Qed.

Lemma normalizeToUTC_in_range env dateArg options :
  in_range (normalizeToUTC env dateArg options).
Proof. rewrite normalizeToUTC_unfold. apply bind_TimeClip_in_range. Qed.

Lemma setters_in_range tv v :
  in_range (setUTCFullYear tv v) /\ in_range (setUTCMonth tv v) /\
  in_range (setUTCDate tv v).
Proof.
  unfold setUTCFullYear, setUTCMonth, setUTCDate.
  destruct tv as [t|], v as [n|]; cbn [mbind option_bind default from_option];
    repeat split; first [apply TimeClip_in_range | exact I].
Qed.

Lemma reduce_add_in_range env (f : DateUnit -> Number) keys v h r h' :
  heap_in_range h ->
  reduce (fun newDate key => add env newDate key (f key)) keys v h
  = Ok r h' ->
  heap_in_range h'.
Proof.
  revert v h. induction keys as [|k keys IH]; intros v h W R.
  - cbn in R. now injection R as <- <-.
  - cbn [reduce] in R. unfold bind in R. destruct v as [l|y]; [|discriminate].
    rewrite add_run in R. apply IH in R; [exact R|].
    apply Forall_app. split; [exact W|].
    apply Forall_singleton, normalizeToUTC_in_range.
Qed.

Lemma some_keeps_range (evs : list Evaluator) d h b h' :
  (forall ev, In ev evs -> keeps_range ev) ->
  heap_in_range h ->
  some (fun ev => ev d) evs h = Ok b h' ->
  heap_in_range h'.
Proof.
  revert h. induction evs as [|ev evs IH]; intros h K W S.
  - cbn in S. now injection S as <- <-.
  - cbn [some] in S. unfold bind in S.
    destruct (ev d h) as [b1 h1|e] eqn:E; [|discriminate].
    pose proof (K ev (or_introl eq_refl) d h b1 h1 W E) as W1.
    destruct b1; [now injection S as <- <-|].
    apply (IH h1); [|exact W1|exact S]. intros ev' I. apply K. now right.
Qed.

(** X5.  Every operation keeps the heap in range: whatever the input, the
    amounts and the fields given, no [Date] ever holds a time value beyond
    8.64e15 milliseconds from the epoch. *)
Theorem operations_keep_range env h :
  heap_in_range h ->
  (forall dateArg optionsArg x h',
      XBDateFactory env dateArg optionsArg h = Ok x h' -> heap_in_range h') /\
  (forall x summands v h',
      XB.add env x summands h = Ok v h' -> heap_in_range h') /\
  (forall x subtrahends v h',
      XB.subtract env x subtrahends h = Ok v h' -> heap_in_range h') /\
  (forall x values y h',
      XB.set x values h = Ok y h' -> heap_in_range h') /\
  (forall resolve x constraints b h',
      (forall c, In c constraints -> keeps_range (resolve c)) ->
      XB.matches env resolve x constraints h = Ok b h' -> heap_in_range h').
Proof.
  intros W. repeat split.
  - intros dateArg optionsArg x h' E. rewrite XBDateFactory_run in E.
    injection E as _ <-. apply Forall_app. split; [exact W|].
    apply Forall_singleton, normalizeToUTC_in_range.
  - intros x summands v h' E. now apply reduce_add_in_range in E.
  - intros x subtrahends v h' E. now apply reduce_add_in_range in E.
  - intros x values y h'. unfold XB.set, bind, read, write, ret.
    intros [= _ <-].
    repeat (apply Forall_insert; [|apply setters_in_range]). exact W.
  - intros resolve x constraints b h' K E.
    destruct constraints as [|c cs]; [cbn in E; now injection E as _ <-|].
    rewrite matches_run in E. apply some_keeps_range in E; [exact E| |].
    + intros ev I. apply in_map_iff in I. destruct I as (c' & <- & I).
      now apply K.
    + apply Forall_app. split; [exact W|].
      apply Forall_singleton, normalizeToUTC_in_range.
Qed.

Lemma operations_keep_range_witness :
  heap_in_range [Some t_2024_03_15] /\
  XB.set {| utcDate := 0 |} (Some [(year, Some 300000)]) [Some t_2024_03_15]
  = Ok {| utcDate := 0 |} [NaN] /\
  heap_in_range [NaN].
Proof.
  assert (W : heap_in_range [Some t_2024_03_15])
    by (apply Forall_singleton; vm_compute; congruence).
  assert (S : XB.set {| utcDate := 0 |} (Some [(year, Some 300000)])
                [Some t_2024_03_15] = Ok {| utcDate := 0 |} [NaN])
    by (vm_compute; reflexivity).
  destruct (operations_keep_range utc_env [Some t_2024_03_15] W)
    as (_ & _ & _ & K & _).
  split; [exact W|]. split; [exact S|]. exact (K _ _ _ _ S).
Defined.

(** ** Arithmetic with one unit *)

(** [new Date(y, m, d, ...)] with the time of day of [t], where the local
    reading stays on the UTC day: an instant of the day asked for. *)
Lemma construct_local_day env t y m d :
  ~ (0 <= y <= 99) ->
  - 100000000 <= MakeDay y m d < 100000000 ->
  local_reading_keeps_day env t ->
  exists tm,
    0 <= tm < msPerDay /\
    construct_local (localTZA env) (Some y) (Some m) (Some d)
      (Some (HourFromTime t)) (Some (MinFromTime t))
      (Some (SecFromTime t)) (Some (msFromTime t))
    = Some (MakeDate (MakeDay y m d) tm).
Proof.
  intros Y R Tz. unfold construct_local. cbn [mbind option_bind].
  rewrite MakeTime_fields, (fullYear_id _ Y).
  generalize dependent (MakeDay y m d). intros dd R.
  specialize (Tz (MakeDate dd (TimeWithinDay t))).
  revert Tz. generalize (localTZA env (MakeDate dd (TimeWithinDay t))).
  intros z Tz. exists (TimeWithinDay t - z). split; [exact Tz|].
  replace (MakeDate dd (TimeWithinDay t) - z)
    with (MakeDate dd (TimeWithinDay t - z)) by (unfold MakeDate; lia).
  apply TimeClip_valid. unfold MakeDate, msPerDay, maxTime in *. lia.
Qed.

(** The factory, with the default options, on a [Date] of an in-range
    day outside the years 0 to 99: noon of that day. *)
Lemma normalizeToUTC_of_day env dd tm :
  0 <= tm < msPerDay ->
  - 100000000 <= dd < 100000000 ->
  ~ (0 <= YearFromDay dd <= 99) ->
  normalizeToUTC env (Some (DateObject (Some (MakeDate dd tm))))
    DEFAULT_OPTIONS
  = Some (MakeDate dd noon).
Proof.
  intros Tm R Y.
  assert (D : Day (MakeDate dd tm) = dd) by now apply Day_MakeDate.
  revert D. generalize (MakeDate dd tm). intros t1 D.
  assert (V1 : Z.abs t1 <= maxTime /\ t1 < maxTime).
  { subst dd. unfold Day, msPerDay, maxTime in *. split; div_lia. }
  destruct V1 as [V1 L1].
  rewrite (normalizeToUTC_noon env _ DEFAULT_OPTIONS t1);
    [|cbn; now apply TimeClip_valid|reflexivity|exact L1].
  do 2 f_equal. pose proof (MakeDay_fields_0 t1) as F.
  unfold YearFromTime in *. rewrite D in *. now rewrite (fullYear_id _ Y).
Qed.

Lemma target_day_unfold t unit n :
  MakeDay (YearFromTime t + increment_of unit year n)
          (MonthFromTime t + increment_of unit month n)
          (DateFromTime t + increment_of unit day n)
  = target_day t unit n.
Proof. unfold target_day. reflexivity. Qed.

(** One step of [add] where the local reading of the fields stays on the
    UTC day and no two-digit year is met: noon of the day the fields with
    the increment name. *)
Lemma add_unit_step env l h t unit n :
  deref h l = Some t ->
  Z.abs t <= maxTime ->
  ~ (0 <= YearFromTime t + increment_of unit year n <= 99) ->
  ~ (0 <= YearFromDay (target_day t unit n) <= 99) ->
  - 100000000 <= target_day t unit n < 100000000 ->
  local_reading_keeps_day env t ->
  add env (RawDate l) unit (Some n) h
  = Ok (DateValue {| utcDate := length h |})
       (h ++ [Some (MakeDate (target_day t unit n) noon)]).
Proof.
  intros Ht V Y0 Yn R Tz. rewrite add_run, Ht. do 3 f_equal.
  assert (E : forall u,
    (if DateUnit_eqb unit u then Some n else Some 0)
    = Some (increment_of unit u n)).
  { intros u. unfold increment_of. now destruct (DateUnit_eqb unit u). }
  cbv beta zeta. rewrite !E.
  cbn [getUTCFullYear getUTCMonth getUTCDate getUTCHours getUTCMinutes
       getUTCSeconds getUTCMilliseconds fmap option_fmap option_map num_add].
  rewrite <- target_day_unfold in R, Yn |- *.
  destruct (construct_local_day env t _ _ _ Y0 R Tz) as (tm & Tm & ->).
  now apply normalizeToUTC_of_day.
Qed.

Lemma MakeDay_range y m d :
  - 271821 < y < 275760 -> 0 <= m <= 11 -> 1 <= d <= 31 ->
  - 100000000 <= MakeDay y m d < 100000000.
Proof.
  intros Y M D. rewrite MakeDay_in_year by assumption.
  pose proof (monthStart_bounds m (if DaysInYear y =? 366 then 1 else 0) M)
    as B.
  assert (0 <= (if DaysInYear y =? 366 then 1 else 0) <= 1)
    by (destruct (_ =? _); lia).
  specialize (B H).
  assert (DayFromYear (- 271820) <= DayFromYear y).
  { destruct (Z.eq_dec (- 271820) y) as [<-|]; [lia|].
    apply Z.lt_le_incl, DayFromYear_lt. lia. }
  assert (DayFromYear y <= DayFromYear 275759).
  { destruct (Z.eq_dec y 275759) as [->|]; [lia|].
    apply Z.lt_le_incl, DayFromYear_lt. lia. }
  assert (- 99999914 <= DayFromYear (- 271820)) by (vm_compute; congruence).
  assert (DayFromYear 275759 <= 99999379) by (vm_compute; congruence).
  lia.
Qed.

Lemma YearFromTime_Day t : YearFromTime t = YearFromDay (Day t).
Proof. reflexivity. Qed.

Lemma increment_of_same unit n : increment_of unit unit n = n.
Proof. now destruct unit. Qed.

Lemma MakeDay_month_12 y m d k : MakeDay y (m + 12 * k) d = MakeDay (y + k) m d.
Proof.
  unfold MakeDay.
  replace ((m + 12 * k) / 12) with (m / 12 + k) by div_lia.
  replace ((m + 12 * k) mod 12) with (m mod 12) by div_lia.
  now replace (y + (m / 12 + k)) with (y + k + m / 12) by lia.
Qed.

Lemma MakeDay_carry y m d : MakeDay y m d = MakeDay (y + m / 12) (m mod 12) d.
Proof.
  unfold MakeDay.
  replace (m mod 12 / 12) with 0 by div_lia.
  replace ((m mod 12) mod 12) with (m mod 12) by div_lia.
  now rewrite Z.add_0_r.
Qed.

Lemma DaysInMonth_11 leap : DaysInMonth 11 leap = 31.
Proof.
  unfold DaysInMonth. change (monthStart (11 + 1) leap) with (365 + leap).
  change (monthStart 11 leap) with (334 + leap). lia.
Qed.

(** A date past the end of its month is a date of the next month. *)
Lemma fields_of_MakeDay_overflow y m d tm :
  0 <= m <= 10 ->
  DaysInMonth m (leapOf y) < d <= 31 ->
  0 <= tm < msPerDay ->
  YearFromTime (MakeDate (MakeDay y m d) tm) = y /\
  MonthFromTime (MakeDate (MakeDay y m d) tm) = m + 1 /\
  DateFromTime (MakeDate (MakeDay y m d) tm) = d - DaysInMonth m (leapOf y).
Proof.
  intros Hm Hd Ht. pose proof (leapOf_cases y) as L.
  pose proof (DaysInMonth_pos m (leapOf y)) as P.
  pose proof (DaysInMonth_pos (m + 1) (leapOf y)) as P1.
  assert (E : MakeDay y m d
              = MakeDay y (m + 1) (d - DaysInMonth m (leapOf y))).
  { rewrite !MakeDay_in_year by lia. fold (leapOf y).
    unfold DaysInMonth. lia. }
  rewrite E. apply fields_of_MakeDay; lia.
Qed.

(** X6.  [add({year: n})]: where the local reading of the fields stays on the
    UTC day and the new year is a representable one outside 0 to 99, the
    result is noon of the same month and date in the year [n] years on;
    and 29 February, in a year that has none, is 1 March. *)
Theorem add_year_fields env x h t n :
  deref h (utcDate x) = Some t ->
  Z.abs t <= maxTime ->
  local_reading_keeps_day env t ->
  - 271821 < YearFromTime t + n < 275760 ->
  ~ (0 <= YearFromTime t + n <= 99) ->
  exists x1 h1,
    XB.add env x (Some [(year, Some n)]) h = Ok (DateValue x1) h1 /\
    XB.getYear x1 h1 = Some (YearFromTime t + n) /\
    XB.getHours x1 h1 = Some 12 /\
    (DateFromTime t
     <= DaysInMonth (MonthFromTime t) (leapOf (YearFromTime t + n)) ->
     XB.getMonth x1 h1 = Some (MonthFromTime t) /\
     XB.getDate x1 h1 = Some (DateFromTime t)) /\
    (MonthFromTime t = 1 -> DateFromTime t = 29 ->
     leapOf (YearFromTime t + n) = 0 ->
     XB.getMonth x1 h1 = Some 2 /\ XB.getDate x1 h1 = Some 1).
Proof.
  intros Ht V Tz R Y.
  pose proof (MonthFromTime_range t) as Mr.
  pose proof (DateFromTime_range t) as Dr.
  assert (Nn : 0 <= noon < msPerDay) by (split; [discriminate|reflexivity]).
  assert (T : target_day t year n
              = MakeDay (YearFromTime t + n) (MonthFromTime t)
                        (DateFromTime t)).
  { unfold target_day, increment_of. cbn [DateUnit_eqb].
    now rewrite !Z.add_0_r. }
  assert (F : YearFromTime
                (MakeDate (MakeDay (YearFromTime t + n) (MonthFromTime t)
                                   (DateFromTime t)) noon)
              = YearFromTime t + n).
  { pose proof (leapOf_cases (YearFromTime t + n)) as L.
    pose proof (DaysInMonth_pos (MonthFromTime t)
                  (leapOf (YearFromTime t + n))) as P.
    destruct (Z.le_gt_cases (DateFromTime t)
                (DaysInMonth (MonthFromTime t) (leapOf (YearFromTime t + n))))
      as [Le|Gt].
    - apply fields_of_MakeDay; lia.
    - assert (MonthFromTime t <= 10).
      { destruct (Z.eq_dec (MonthFromTime t) 11) as [E|]; [|lia].
        rewrite E, DaysInMonth_11 in Gt. lia. }
      apply fields_of_MakeDay_overflow; lia. }
  assert (Y0 : ~ (0 <= YearFromTime t + increment_of year year n <= 99))
    by now rewrite increment_of_same.
  assert (Yn : ~ (0 <= YearFromDay (target_day t year n) <= 99)).
  { rewrite T.
    rewrite <- (Day_MakeDate (MakeDay (YearFromTime t + n) (MonthFromTime t)
                                      (DateFromTime t)) noon Nn).
    rewrite <- YearFromTime_Day, F. exact Y. }
  assert (Rn : - 100000000 <= target_day t year n < 100000000)
    by (rewrite T; apply MakeDay_range; lia).
  pose proof (add_unit_step env _ h t year n Ht V Y0 Yn Rn Tz) as A.
  rewrite <- add_one_unit, T in A. clear T Y0 Yn Rn.
  assert (Le : DateFromTime t
     <= DaysInMonth (MonthFromTime t) (leapOf (YearFromTime t + n)) ->
     MonthFromTime (MakeDate (MakeDay (YearFromTime t + n) (MonthFromTime t)
                                      (DateFromTime t)) noon)
     = MonthFromTime t /\
     DateFromTime (MakeDate (MakeDay (YearFromTime t + n) (MonthFromTime t)
                                     (DateFromTime t)) noon)
     = DateFromTime t).
  { intros Le. apply fields_of_MakeDay; lia. }
  assert (Ov : MonthFromTime t = 1 -> DateFromTime t = 29 ->
     leapOf (YearFromTime t + n) = 0 ->
     MonthFromTime (MakeDate (MakeDay (YearFromTime t + n) (MonthFromTime t)
                                      (DateFromTime t)) noon) = 2 /\
     DateFromTime (MakeDate (MakeDay (YearFromTime t + n) (MonthFromTime t)
                                     (DateFromTime t)) noon) = 1).
  { intros M29 D29 L0.
    destruct (fields_of_MakeDay_overflow (YearFromTime t + n)
                (MonthFromTime t) (DateFromTime t) noon)
      as (_ & -> & ->); try assumption.
    - lia.
    - rewrite M29, D29, L0. vm_compute. split; congruence.
    - rewrite M29, D29, L0. split; reflexivity. }
  pose proof (time_fields_of_noon
                (MakeDay (YearFromTime t + n) (MonthFromTime t)
                         (DateFromTime t))) as (Hn & _).
  revert A F Le Ov Hn.
  generalize (MakeDate (MakeDay (YearFromTime t + n) (MonthFromTime t)
                                (DateFromTime t)) noon).
  intros t1 A F Le Ov Hn.
  exists {| utcDate := length h |}, (h ++ [Some t1]).
  split; [exact A|].
  unfold XB.getYear, XB.getMonth, XB.getDate, XB.getHours. cbn [utcDate].
  rewrite (deref_alloc h (Some t1)).
  cbn [getUTCFullYear getUTCMonth getUTCDate getUTCHours fmap option_fmap
       option_map].
  rewrite F, Hn. split; [reflexivity|]. split; [reflexivity|]. split.
  - intros L. destruct (Le L) as (-> & ->). now split.
  - intros M29 D29 L0. destruct (Ov M29 D29 L0) as (-> & ->). now split.
Qed.

Lemma add_year_fields_witness :
  exists x1 h1,
    XB.add utc_env {| utcDate := 0 |} (Some [(year, Some 1)])
      [Some t_2024_02_29_noon] = Ok (DateValue x1) h1 /\
    XB.getYear x1 h1 = Some 2025 /\
    XB.getMonth x1 h1 = Some 2 /\
    XB.getDate x1 h1 = Some 1.
Proof.
  assert (V : Z.abs t_2024_02_29_noon <= maxTime) by (vm_compute; congruence).
  assert (Tz : local_reading_keeps_day utc_env t_2024_02_29_noon)
    by (intros u; split; [vm_compute; congruence | reflexivity]).
  assert (R : - 271821 < YearFromTime t_2024_02_29_noon + 1 < 275760)
    by (split; reflexivity).
  assert (Y : ~ (0 <= YearFromTime t_2024_02_29_noon + 1 <= 99))
    by (intros [_ H]; vm_compute in H; congruence).
  destruct (add_year_fields utc_env {| utcDate := 0 |}
              [Some t_2024_02_29_noon] t_2024_02_29_noon 1 eq_refl V Tz R Y)
    as (x1 & h1 & A & Ey & _ & _ & O).
  exists x1, h1. split; [exact A|]. split; [exact Ey|].
  apply O; reflexivity.
Defined.

(** One unit added, when the fields with the increment name the date [d]
    of month [m] of year [y]: noon of that date, or of the date of the
    next month it runs over to. *)
Lemma add_unit_to env x h t unit n y m d :
  deref h (utcDate x) = Some t ->
  Z.abs t <= maxTime ->
  local_reading_keeps_day env t ->
  ~ (0 <= YearFromTime t + increment_of unit year n <= 99) ->
  target_day t unit n = MakeDay y m d ->
  0 <= m <= 11 -> 1 <= d <= 31 ->
  - 271821 < y < 275760 -> ~ (0 <= y <= 99) ->
  exists t1,
    XB.add env x (Some [(unit, Some n)]) h
    = Ok (DateValue {| utcDate := length h |}) (h ++ [Some t1]) /\
    HourFromTime t1 = 12 /\
    YearFromTime t1 = y /\
    (d <= DaysInMonth m (leapOf y) ->
     MonthFromTime t1 = m /\ DateFromTime t1 = d) /\
    (DaysInMonth m (leapOf y) < d ->
     MonthFromTime t1 = m + 1 /\
     DateFromTime t1 = d - DaysInMonth m (leapOf y)).
Proof.
  intros Ht V Tz Y0 T Hm Hd Ry Y.
  assert (Nn : 0 <= noon < msPerDay) by (split; [discriminate|reflexivity]).
  pose proof (leapOf_cases y) as L.
  pose proof (DaysInMonth_pos m (leapOf y)) as P.
  assert (M10 : DaysInMonth m (leapOf y) < d -> m <= 10).
  { intros Gt. destruct (Z.eq_dec m 11) as [E|]; [|lia].
    rewrite E, DaysInMonth_11 in Gt. lia. }
  assert (Le : d <= DaysInMonth m (leapOf y) ->
     YearFromTime (MakeDate (MakeDay y m d) noon) = y /\
     MonthFromTime (MakeDate (MakeDay y m d) noon) = m /\
     DateFromTime (MakeDate (MakeDay y m d) noon) = d).
  { intros Le. apply fields_of_MakeDay; lia. }
  assert (Ov : DaysInMonth m (leapOf y) < d ->
     YearFromTime (MakeDate (MakeDay y m d) noon) = y /\
     MonthFromTime (MakeDate (MakeDay y m d) noon) = m + 1 /\
     DateFromTime (MakeDate (MakeDay y m d) noon)
     = d - DaysInMonth m (leapOf y)).
  { intros Gt. specialize (M10 Gt).
    apply fields_of_MakeDay_overflow; lia. }
  assert (F : YearFromTime (MakeDate (MakeDay y m d) noon) = y).
  { destruct (Z.le_gt_cases d (DaysInMonth m (leapOf y))) as [C|C].
    - now destruct (Le C). 
    - now destruct (Ov C). }
  assert (Yn : ~ (0 <= YearFromDay (target_day t unit n) <= 99)).
  { rewrite T. rewrite <- (Day_MakeDate (MakeDay y m d) noon Nn).
    rewrite <- YearFromTime_Day, F. exact Y. }
  assert (Rn : - 100000000 <= target_day t unit n < 100000000)
    by (rewrite T; apply MakeDay_range; lia).
  pose proof (add_unit_step env _ h t unit n Ht V Y0 Yn Rn Tz) as A.
  rewrite <- add_one_unit, T in A.
  pose proof (time_fields_of_noon (MakeDay y m d)) as (Hn & _).
  exists (MakeDate (MakeDay y m d) noon).
  split; [exact A|]. split; [exact Hn|]. split; [exact F|]. split.
  - intros C. now destruct (Le C) as (_ & ? & ?).
  - intros C. now destruct (Ov C) as (_ & ? & ?).
Qed.

(** X7.  [add({month: n})]: where the local reading of the fields stays on the
    UTC day and no year from 0 to 99 is met, the months carry into the
    year, and a date that the new month does not have runs over into the
    month after it. *)
Theorem add_month_fields env x h t n :
  deref h (utcDate x) = Some t ->
  Z.abs t <= maxTime ->
  local_reading_keeps_day env t ->
  ~ (0 <= YearFromTime t <= 99) ->
  - 271821 < YearFromTime t + (MonthFromTime t + n) / 12 < 275760 ->
  ~ (0 <= YearFromTime t + (MonthFromTime t + n) / 12 <= 99) ->
  exists x1 h1,
    XB.add env x (Some [(month, Some n)]) h = Ok (DateValue x1) h1 /\
    XB.getYear x1 h1 = Some (YearFromTime t + (MonthFromTime t + n) / 12) /\
    XB.getHours x1 h1 = Some 12 /\
    (DateFromTime t
     <= DaysInMonth ((MonthFromTime t + n) mod 12)
          (leapOf (YearFromTime t + (MonthFromTime t + n) / 12)) ->
     XB.getMonth x1 h1 = Some ((MonthFromTime t + n) mod 12) /\
     XB.getDate x1 h1 = Some (DateFromTime t)) /\
    (DaysInMonth ((MonthFromTime t + n) mod 12)
       (leapOf (YearFromTime t + (MonthFromTime t + n) / 12))
     < DateFromTime t ->
     XB.getMonth x1 h1 = Some ((MonthFromTime t + n) mod 12 + 1) /\
     XB.getDate x1 h1
     = Some (DateFromTime t
             - DaysInMonth ((MonthFromTime t + n) mod 12)
                 (leapOf (YearFromTime t + (MonthFromTime t + n) / 12)))).
Proof.
  intros Ht V Tz Y0 Ry Y.
  pose proof (DateFromTime_range t) as Dr.
  assert (Hm : 0 <= (MonthFromTime t + n) mod 12 <= 11) by div_lia.
  assert (T : target_day t month n
              = MakeDay (YearFromTime t + (MonthFromTime t + n) / 12)
                        ((MonthFromTime t + n) mod 12) (DateFromTime t)).
  { rewrite <- MakeDay_carry. unfold target_day, increment_of.
    cbn [DateUnit_eqb]. now rewrite !Z.add_0_r. }
  assert (Y0' : ~ (0 <= YearFromTime t + increment_of month year n <= 99)).
  { unfold increment_of. cbn [DateUnit_eqb]. now rewrite Z.add_0_r. }
  destruct (add_unit_to env x h t month n _ _ _ Ht V Tz Y0' T Hm Dr Ry Y)
    as (t1 & A & Hn & F & Le & Ov).
  clear T Y0'. revert Le Ov F Ry Y.
  generalize (YearFromTime t + (MonthFromTime t + n) / 12).
  generalize ((MonthFromTime t + n) mod 12). intros m' y' Le Ov F Ry Y.
  exists {| utcDate := length h |}, (h ++ [Some t1]).
  split; [exact A|].
  unfold XB.getYear, XB.getMonth, XB.getDate, XB.getHours. cbn [utcDate].
  rewrite (deref_alloc h (Some t1)).
  cbn [getUTCFullYear getUTCMonth getUTCDate getUTCHours fmap option_fmap
       option_map].
  rewrite F, Hn. split; [reflexivity|]. split; [reflexivity|]. split.
  - intros C. destruct (Le C) as (-> & ->). now split.
  - intros C. destruct (Ov C) as (-> & ->). now split.
Qed.

Lemma add_month_fields_witness :
  exists x1 h1,
    XB.add utc_env {| utcDate := 0 |} (Some [(month, Some 1)])
      [Some t_2024_01_31_noon] = Ok (DateValue x1) h1 /\
    XB.getYear x1 h1 = Some 2024 /\
    XB.getMonth x1 h1 = Some 2 /\
    XB.getDate x1 h1 = Some 2.
Proof.
  assert (V : Z.abs t_2024_01_31_noon <= maxTime) by (vm_compute; congruence).
  assert (Tz : local_reading_keeps_day utc_env t_2024_01_31_noon)
    by (intros u; split; [vm_compute; congruence | reflexivity]).
  assert (Y0 : ~ (0 <= YearFromTime t_2024_01_31_noon <= 99))
    by (intros [_ H]; vm_compute in H; congruence).
  assert (R : - 271821 < YearFromTime t_2024_01_31_noon
                + (MonthFromTime t_2024_01_31_noon + 1) / 12 < 275760)
    by (split; reflexivity).
  assert (Y : ~ (0 <= YearFromTime t_2024_01_31_noon
                   + (MonthFromTime t_2024_01_31_noon + 1) / 12 <= 99))
    by (intros [_ H]; vm_compute in H; congruence).
  destruct (add_month_fields utc_env {| utcDate := 0 |}
              [Some t_2024_01_31_noon] t_2024_01_31_noon 1 eq_refl V Tz Y0
              R Y) as (x1 & h1 & A & Ey & _ & _ & O).
  exists x1, h1. split; [exact A|]. split; [exact Ey|].
  apply O. reflexivity.
Defined.

(** ** The factory applied to its own result *)

Lemma YearFromTime_MakeDay y m d tm :
  0 <= m <= 11 -> 1 <= d <= 31 -> 0 <= tm < msPerDay ->
  YearFromTime (MakeDate (MakeDay y m d) tm) = y.
Proof.
  intros Hm Hd Ht.
  pose proof (leapOf_cases y) as L.
  pose proof (DaysInMonth_pos m (leapOf y)) as P.
  destruct (Z.le_gt_cases d (DaysInMonth m (leapOf y))) as [C|C].
  - destruct (fields_of_MakeDay y m d tm) as (F & _); [lia..|exact F].
  - assert (m <= 10).
    { destruct (Z.eq_dec m 11) as [E|]; [|lia].
      rewrite E, DaysInMonth_11 in C. lia. }
    destruct (fields_of_MakeDay_overflow y m d tm) as (F & _);
      [lia..|exact F].
Qed.

Lemma fullYear_not_two_digit y : ~ (0 <= fullYear y <= 99).
Proof.
  unfold fullYear.
  destruct (Z.leb_spec 0 y), (Z.leb_spec y 99); cbn [andb]; lia.
Qed.

(** What normalization returns: the invalid date, or noon of a day of a
    year outside 0..99, below the last instant. *)
Lemma normalizeToUTC_normalized env dateArg options :
  truthy (normalize options) = true ->
  normalizeToUTC env dateArg options = NaN \/
  exists t, normalizeToUTC env dateArg options = Some t /\
            Z.abs t <= maxTime /\ t < maxTime /\
            ~ (0 <= YearFromTime t <= 99) /\
            MakeDate (Day t) noon = t.
Proof.
  intros N. rewrite normalizeToUTC_unfold, N.
  destruct (input_date env dateArg) as [t|]; [|left; reflexivity].
  cbn -[TimeClip MakeDay MakeTime fullYear]. fold noon.
  pose proof (MonthFromTime_range t) as Hm.
  pose proof (DateFromTime_range t) as Hd.
  assert (Nn : 0 <= noon < msPerDay) by (split; [discriminate|reflexivity]).
  pose proof (YearFromTime_MakeDay (fullYear (YearFromTime t)) _ _ noon
                Hm Hd Nn) as F.
  pose proof (fullYear_not_two_digit (YearFromTime t)) as Y.
  pose proof (Day_MakeDate (MakeDay (fullYear (YearFromTime t))
                              (MonthFromTime t) (DateFromTime t)) noon Nn)
    as D.
  revert F D.
  generalize (MakeDay (fullYear (YearFromTime t)) (MonthFromTime t)
                      (DateFromTime t)).
  intros d F D.
  destruct (TimeClip (MakeDate d noon)) as [t1|] eqn:C; [|left; reflexivity].
  apply TimeClip_Some in C as [-> V]. right. exists (MakeDate d noon).
  cbn -[TimeClip]. rewrite (TimeClip_valid _ V).
  split; [reflexivity|]. split; [exact V|]. split.
  { revert V. unfold MakeDate, noon, MakeTime, msPerDay, msPerHour,
      msPerMinute, msPerSecond, maxTime. lia. }
  split; [rewrite F; exact Y|]. now rewrite D.
Qed.

Lemma normalizeToUTC_twice env dateArg options options' :
  truthy (normalize options) = true ->
  truthy (normalize options') = true ->
  normalizeToUTC env
    (Some (DateObject (normalizeToUTC env dateArg options))) options'
  = normalizeToUTC env dateArg options.
Proof.
  intros N N'.
  destruct (normalizeToUTC_normalized env dateArg options N)
    as [E|(t & E & V & L & Y & D)]; rewrite E.
  - rewrite normalizeToUTC_unfold. reflexivity.
  - assert (I : input_date env (Some (DateObject (Some t))) = Some t).
    { cbn -[TimeClip]. now apply TimeClip_valid. }
    rewrite (normalizeToUTC_noon env _ options' t I N' L).
    rewrite (fullYear_id _ Y), MakeDay_fields_0. now rewrite D.
Qed.

(** X8.  The factory is idempotent under normalization: a Date Value made from
    the [Date] of a normalized Date Value, [XBDateFactory(x.get())], is a
    new [Date] with the time of [x], whatever the input was (a valid one,
    an invalid one, or one of the years 0 to 99). *)
Theorem XBDateFactory_idempotent env dateArg oa ob h :
  normalizes oa = true ->
  normalizes ob = true ->
  exists x h1 x2 h2,
    XBDateFactory env dateArg oa h = Ok x h1 /\
    XBDateFactory env (Some (DateObject (deref h1 (XB.get x)))) ob h1
    = Ok x2 h2 /\
    utcDate x2 <> utcDate x /\
    XB.getTime x2 h2 = XB.getTime x h1 /\
    XB.getTime x h2 = XB.getTime x h1.
Proof.
  intros Na Nb.
  set (N := normalizeToUTC env dateArg
              (spread DEFAULT_OPTIONS (default DEFAULT_OPTIONS oa))).
  exists {| utcDate := length h |}, (h ++ [N]),
         {| utcDate := length (h ++ [N]) |}, ((h ++ [N]) ++ [N]).
  split; [apply XBDateFactory_run|]. split.
  { rewrite XBDateFactory_run. unfold XB.get. cbn [utcDate].
    rewrite deref_alloc. unfold N.
    rewrite normalizeToUTC_twice by assumption. reflexivity. }
  unfold XB.getTime. cbn [utcDate]. split.
  { rewrite length_app. cbn [length]. lia. }
  assert (L : (length h < length (h ++ [N]))%nat)
    by (rewrite length_app; cbn [length]; lia).
  rewrite (deref_alloc (h ++ [N])), (deref_app_l _ _ _ L), deref_alloc.
  now split.
Qed.

Lemma XBDateFactory_idempotent_witness :
  exists x h1 x2 h2,
    XBDateFactory utc_env (Some (Timestamp (Some t_0050_06_15))) None []
    = Ok x h1 /\
    XBDateFactory utc_env (Some (DateObject (deref h1 (XB.get x)))) None h1
    = Ok x2 h2 /\
    utcDate x2 <> utcDate x /\
    XB.getTime x2 h2 = XB.getTime x h1 /\
    XB.getTime x h2 = XB.getTime x h1.
Proof.
  exact (XBDateFactory_idempotent utc_env
           (Some (Timestamp (Some t_0050_06_15))) None None []
           eq_refl eq_refl).
Defined.

(** X9.  The candidate of [matches] on a Date Value the factory has normalized
    is an exact copy: a new [Date] holding the time value of the
    receiver. *)
Theorem matches_candidate_copy env resolve dateArg o h x h1 c constraints :
  normalizes o = true ->
  XBDateFactory env dateArg o h = Ok x h1 ->
  XB.matches env resolve x (c :: constraints) h1
  = some (fun ev => ev {| utcDate := length h1 |})
      (map resolve (c :: constraints))
      (h1 ++ [deref h1 (utcDate x)]).
Proof.
  intros N F. rewrite XBDateFactory_run in F. injection F as <- <-.
  rewrite matches_run. cbn [utcDate]. rewrite deref_alloc.
  rewrite normalizeToUTC_twice; [reflexivity|exact N|reflexivity].
Qed.

Lemma matches_candidate_copy_witness :
  XB.matches utc_env (fun _ => observes_noon) {| utcDate := 0 |}
    [SingleDateConstraint (Timestamp (Some 0))]
    [Some (t_2024_03_15 + noon)]
  = Ok true [Some (t_2024_03_15 + noon); Some (t_2024_03_15 + noon)].
Proof.
  rewrite (matches_candidate_copy utc_env (fun _ => observes_noon)
             (Some (Timestamp (Some t_2024_03_15))) None []
             {| utcDate := 0 |} [Some (t_2024_03_15 + noon)]
             (SingleDateConstraint (Timestamp (Some 0))) []
             eq_refl eq_refl).
  reflexivity.
Defined.

(** ** Twelve months and one year *)

Lemma construct_local_month_12 tza y m d k hh mi s ms :
  ~ (0 <= y <= 99) -> ~ (0 <= y + k <= 99) ->
  construct_local tza (Some y) (Some (m + 12 * k)) d hh mi s ms
  = construct_local tza (Some (y + k)) (Some m) d hh mi s ms.
Proof.
  intros Y Yk. unfold construct_local.
  destruct d, hh, mi, s, ms; try reflexivity.
  cbn [mbind option_bind].
  rewrite (fullYear_id _ Y), (fullYear_id _ Yk).
  now rewrite MakeDay_month_12.
Qed.

Lemma add_months_as_years env l h t k :
  deref h l = Some t ->
  ~ (0 <= YearFromTime t <= 99) ->
  ~ (0 <= YearFromTime t + k <= 99) ->
  add env (RawDate l) month (Some (12 * k)) h
  = add env (RawDate l) year (Some k) h.
Proof.
  intros Ht Y Yk. rewrite !add_run, Ht.
  cbn [DateUnit_eqb getUTCFullYear getUTCMonth getUTCDate getUTCHours
       getUTCMinutes getUTCSeconds getUTCMilliseconds fmap option_fmap
       option_map num_add].
  rewrite !Z.add_0_r.
  now rewrite (construct_local_month_12 _ _ _ _ k _ _ _ _ Y Yk).
Qed.

(** X10.  Twelve months are one year: away from the years 0 to 99,
    [add({month: 12 * k})] and [add({year: k})] return the same, in every
    time zone, and so do the two calls of [subtract]. *)
Theorem add_twelve_months env x h t k :
  deref h (utcDate x) = Some t ->
  ~ (0 <= YearFromTime t <= 99) ->
  (~ (0 <= YearFromTime t + k <= 99) ->
   XB.add env x (Some [(month, Some (12 * k))]) h
   = XB.add env x (Some [(year, Some k)]) h) /\
  (~ (0 <= YearFromTime t - k <= 99) ->
   XB.subtract env x (Some [(month, Some (12 * k))]) h
   = XB.subtract env x (Some [(year, Some k)]) h).
Proof.
  intros Ht Y. split; intros Yk.
  - rewrite !add_one_unit. now apply (add_months_as_years env _ h t).
  - rewrite !subtract_one_unit. cbn [num_mul].
    replace (-1 * (12 * k)) with (12 * (- k)) by lia.
    replace (-1 * k) with (- k) by lia.
    apply (add_months_as_years env _ h t); [exact Ht|exact Y|].
    now replace (YearFromTime t + - k) with (YearFromTime t - k) by lia.
Qed.

Lemma add_twelve_months_witness :
  XB.add tongatapu_env {| utcDate := 0 |} (Some [(month, Some (12 * 3))])
    [Some t_2024_03_15_evening]
  = XB.add tongatapu_env {| utcDate := 0 |} (Some [(year, Some 3)])
      [Some t_2024_03_15_evening].
Proof.
  assert (Y : ~ (0 <= YearFromTime t_2024_03_15_evening <= 99))
    by (intros [_ H]; vm_compute in H; congruence).
  assert (Yk : ~ (0 <= YearFromTime t_2024_03_15_evening + 3 <= 99))
    by (intros [_ H]; vm_compute in H; congruence).
  destruct (add_twelve_months tongatapu_env {| utcDate := 0 |}
              [Some t_2024_03_15_evening] t_2024_03_15_evening 3
              eq_refl Y) as [A _].
  exact (A Yk).
Defined.

(** ** Days added one call after the other *)

Lemma WeekDay_MakeDate d tm :
  0 <= tm < msPerDay -> WeekDay (MakeDate d tm) = (d + 4) mod 7.
Proof. intros H. unfold WeekDay. now rewrite Day_MakeDate. Qed.

(** X11.  [add({day: n})] and then [add({day: m})] on the result is
    [add({day: n + m})]: where local readings stay on the UTC day and no
    year from 0 to 99 is met, both end at noon of the day [n + m] days
    after the day of the receiver, [n + m] places further in the week. *)
Theorem add_day_compose env x h t n m :
  deref h (utcDate x) = Some t ->
  Z.abs t <= maxTime ->
  local_reading_keeps_day env t ->
  (forall u, 0 <= noon - localTZA env u < msPerDay) ->
  ~ (0 <= YearFromTime t <= 99) ->
  ~ (0 <= YearFromDay (Day t + n) <= 99) ->
  ~ (0 <= YearFromDay (Day t + (n + m)) <= 99) ->
  - 100000000 <= Day t + n < 100000000 ->
  - 100000000 <= Day t + (n + m) < 100000000 ->
  exists x1 h1 x2 h2 x3 h3,
    XB.add env x (Some [(day, Some n)]) h = Ok (DateValue x1) h1 /\
    XB.add env x1 (Some [(day, Some m)]) h1 = Ok (DateValue x2) h2 /\
    XB.add env x (Some [(day, Some (n + m))]) h = Ok (DateValue x3) h3 /\
    XB.getTime x2 h2 = Some (MakeDate (Day t + (n + m)) noon) /\
    XB.getTime x3 h3 = Some (MakeDate (Day t + (n + m)) noon) /\
    XB.getWeekday x1 h1 = Some ((WeekDay t + n) mod 7) /\
    XB.getWeekday x2 h2 = Some ((WeekDay t + (n + m)) mod 7).
Proof.
  intros Ht V Tz Tn Y0 Yn Ynm Rn Rnm.
  assert (Nn : 0 <= noon < msPerDay) by (split; [discriminate|reflexivity]).
  pose proof (add_day_step env _ h t n Ht V Y0 Yn Rn Tz) as A1.
  pose proof (add_day_step env _ h t (n + m) Ht V Y0 Ynm Rnm Tz) as A3.
  pose proof (Day_MakeDate (Day t + n) noon Nn) as D1.
  pose proof (TimeWithinDay_MakeDate (Day t + n) noon Nn) as W1.
  pose proof (WeekDay_MakeDate (Day t + n) noon Nn) as K1.
  pose proof (WeekDay_MakeDate (Day t + (n + m)) noon Nn) as K2.
  assert (V1 : Z.abs (MakeDate (Day t + n) noon) <= maxTime).
  { revert Rn. unfold MakeDate, noon, MakeTime, msPerDay, msPerHour,
      msPerMinute, msPerSecond, maxTime. lia. }
  revert A1 D1 W1 K1 V1. generalize (MakeDate (Day t + n) noon).
  intros t1 A1 D1 W1 K1 V1.
  assert (A2 : add env (RawDate (length h)) day (Some m) (h ++ [Some t1])
               = Ok (DateValue {| utcDate := length (h ++ [Some t1]) |})
                    ((h ++ [Some t1])
                       ++ [Some (MakeDate (Day t1 + m) noon)])).
  { apply add_day_step.
    - apply deref_alloc.
    - exact V1.
    - now rewrite D1.
    - rewrite D1. now replace (Day t + n + m) with (Day t + (n + m)) by lia.
    - rewrite D1. lia.
    - intros u. rewrite W1. apply Tn. }
  rewrite D1 in A2.
  replace (Day t + n + m) with (Day t + (n + m)) in A2 by lia.
  revert A2 A3 K2. generalize (MakeDate (Day t + (n + m)) noon).
  intros t2 A2 A3 K2.
  exists {| utcDate := length h |}, (h ++ [Some t1]),
         {| utcDate := length (h ++ [Some t1]) |},
         ((h ++ [Some t1]) ++ [Some t2]),
         {| utcDate := length h |}, (h ++ [Some t2]).
  rewrite !add_one_unit. cbn [utcDate].
  split; [exact A1|]. split; [exact A2|]. split; [exact A3|].
  unfold XB.getTime, XB.getWeekday. cbn [utcDate].
  rewrite (deref_alloc (h ++ [Some t1])), !deref_alloc.
  cbn [JSDate.getTime getUTCDay fmap option_fmap option_map].
  rewrite K1, K2. unfold WeekDay.
  repeat split; f_equal; div_lia.
Qed.

Lemma add_day_compose_witness :
  exists x1 h1 x2 h2,
    XB.add utc_env {| utcDate := 0 |} (Some [(day, Some 20)])
      [Some t_2024_02_29_noon] = Ok (DateValue x1) h1 /\
    XB.add utc_env x1 (Some [(day, Some (-6))]) h1 = Ok (DateValue x2) h2 /\
    XB.getTime x2 h2
    = Some (MakeDate (Day t_2024_02_29_noon + (20 + -6)) noon) /\
    XB.getWeekday x2 h2
    = Some ((WeekDay t_2024_02_29_noon + (20 + -6)) mod 7).
Proof.
  assert (V : Z.abs t_2024_02_29_noon <= maxTime) by (vm_compute; congruence).
  assert (Tz : local_reading_keeps_day utc_env t_2024_02_29_noon)
    by (intros u; split; [vm_compute; congruence | reflexivity]).
  assert (Tn : forall u, 0 <= noon - localTZA utc_env u < msPerDay)
    by (intros u; split; [vm_compute; congruence | reflexivity]).
  assert (Y0 : ~ (0 <= YearFromTime t_2024_02_29_noon <= 99))
    by (intros [_ H]; vm_compute in H; congruence).
  assert (Y1 : ~ (0 <= YearFromDay (Day t_2024_02_29_noon + 20) <= 99))
    by (intros [_ H]; vm_compute in H; congruence).
  assert (Y2 : ~ (0 <= YearFromDay (Day t_2024_02_29_noon + (20 + -6))
                  <= 99))
    by (intros [_ H]; vm_compute in H; congruence).
  assert (R1 : - 100000000 <= Day t_2024_02_29_noon + 20 < 100000000)
    by (split; [vm_compute; congruence | reflexivity]).
  assert (R2 : - 100000000 <= Day t_2024_02_29_noon + (20 + -6) < 100000000)
    by (split; [vm_compute; congruence | reflexivity]).
  destruct (add_day_compose utc_env {| utcDate := 0 |}
              [Some t_2024_02_29_noon] t_2024_02_29_noon 20 (-6)
              eq_refl V Tz Tn Y0 Y1 Y2 R1 R2)
    as (x1 & h1 & x2 & h2 & _ & _ & A1 & A2 & _ & G & _ & _ & K).
  exists x1, h1, x2, h2. now repeat split.
Defined.

(** ** What [add] and [subtract] return *)

(** X12.  A call of [add] or [subtract] that returns either was given no unit,
    and returns the [Date] of the receiver with nothing changed, or was
    given one unit, and returns a Date Value on one new [Date], which is
    invalid or stands at noon UTC, also when the receiver was made without
    normalization. *)
Theorem add_returns_fresh_noon env x summands h v h1 :
  XB.add env x summands h = Ok v h1 \/
  XB.subtract env x summands h = Ok v h1 ->
  (Object_keys (default [] summands) = [] /\
   v = RawDate (utcDate x) /\ h1 = h) \/
  (exists unit amount tv,
     default [] summands = [(unit, amount)] /\
     v = DateValue {| utcDate := length h |} /\
     h1 = h ++ [tv] /\
     (tv = NaN \/ exists d, tv = Some (MakeDate d noon))).
Proof.
  assert (N : forall dateArg,
             normalizeToUTC env dateArg DEFAULT_OPTIONS = NaN \/
             exists d, normalizeToUTC env dateArg DEFAULT_OPTIONS
                       = Some (MakeDate d noon))
    by (intros; now apply normalizeToUTC_default_cases).
  intros H.
  destruct summands as [[|[u a] [|[u' a'] rest]]|].
  - left. destruct (add_no_unit env x h) as (_ & A & _ & S).
    destruct H as [H|H];
      [pose proof (eq_trans (eq_sym A) H) as E
      |pose proof (eq_trans (eq_sym S) H) as E];
      injection E as <- <-; now split.
  - right. exists u, a.
    destruct H as [H|H];
      [pose proof (eq_trans (eq_sym (add_one_unit env x u a h)) H) as E
      |pose proof (eq_trans (eq_sym (subtract_one_unit env x u a h)) H)
         as E];
      rewrite add_run in E; injection E as <- <-;
      eexists; (split; [reflexivity|]); (split; [reflexivity|]);
      (split; [reflexivity|]); apply N.
  - destruct (add_second_unit_throws env x u a u' a' rest h) as [A S].
    destruct H as [H|H];
      [pose proof (eq_trans (eq_sym A) H) as E
      |pose proof (eq_trans (eq_sym S) H) as E]; discriminate E.
  - left. destruct (add_no_unit env x h) as (A & _ & S & _).
    destruct H as [H|H];
      [pose proof (eq_trans (eq_sym A) H) as E
      |pose proof (eq_trans (eq_sym S) H) as E];
      injection E as <- <-; now split.
Qed.

Lemma add_returns_fresh_noon_witness :
  exists tv,
    XB.subtract tongatapu_env {| utcDate := 0 |} (Some [(month, Some 5)])
      [Some t_2024_03_15_evening]
    = Ok (DateValue {| utcDate := 1 |}) [Some t_2024_03_15_evening; tv] /\
    (tv = NaN \/ exists d, tv = Some (MakeDate d noon)).
Proof.
  destruct (XB.subtract tongatapu_env {| utcDate := 0 |}
              (Some [(month, Some 5)]) [Some t_2024_03_15_evening])
    as [v h1|e] eqn:S; [|vm_compute in S; discriminate S].
  destruct (add_returns_fresh_noon tongatapu_env {| utcDate := 0 |}
              (Some [(month, Some 5)]) [Some t_2024_03_15_evening] v h1
              (or_intror S))
    as [(K & _)|(unit & amount & tv & _ & -> & -> & N)];
    [discriminate K|].
  exists tv. now split.
Defined.

(** ** [subtract] and [add] *)

Lemma num_mul_negate_twice v :
  num_mul (Some (-1)) (num_mul (Some (-1)) v) = v.
Proof. destruct v as [z|]; cbn [num_mul]; [f_equal; lia|reflexivity]. Qed.

Lemma negated_negated o : negated (negated o) = o.
Proof.
  unfold negated. rewrite map_map. rewrite <- (map_id o) at 2.
  apply map_ext. intros [k v]. cbn [fst snd].
  now rewrite num_mul_negate_twice.
Qed.

(** X13.  [subtract] is [add] with every amount negated, and [add] is [subtract]
    with every amount negated: the same result, the same exception and the
    same new [Date]s, for every mapping. *)
Theorem subtract_negates env x o h :
  XB.subtract env x (Some o) h = XB.add env x (Some (negated o)) h /\
  XB.add env x (Some o) h = XB.subtract env x (Some (negated o)) h.
Proof.
  split; [apply subtract_is_add_negated|].
  rewrite subtract_is_add_negated. now rewrite negated_negated.
Qed.

(** ** [set]: the three setters in a row *)

Lemma set_result_unfold tv values :
  set_result tv values
  = setUTCDate
      (setUTCMonth
         (setUTCFullYear tv
            (default (getUTCFullYear tv) (given values year)))
         (default (getUTCMonth tv) (given values month)))
      (default (getUTCDate tv) (given values day)).
Proof. reflexivity. Qed.

(** The date [d] of month [m] of year [y] at the time [tm] of the day is
    a time value, with these fields. *)
Lemma set_step y m d tm :
  - 271821 < y < 275760 -> 0 <= m <= 11 ->
  1 <= d <= DaysInMonth m (leapOf y) ->
  0 <= tm < msPerDay ->
  exists t1,
    TimeClip (MakeDate (MakeDay y m d) tm) = Some t1 /\
    YearFromTime t1 = y /\ MonthFromTime t1 = m /\ DateFromTime t1 = d /\
    TimeWithinDay t1 = tm.
Proof.
  intros Hy Hm Hd Ht.
  pose proof (leapOf_cases y) as L.
  pose proof (DaysInMonth_pos m (leapOf y)) as P.
  destruct (fields_of_MakeDay y m d tm Hm Hd Ht) as (F1 & F2 & F3).
  assert (R : - 100000000 <= MakeDay y m d < 100000000)
    by (apply MakeDay_range; lia).
  pose proof (TimeWithinDay_MakeDate (MakeDay y m d) tm Ht) as W.
  exists (MakeDate (MakeDay y m d) tm).
  split; [|now repeat split].
  apply TimeClip_valid. revert R Ht. clear.
  generalize (MakeDay y m d). intros dd.
  unfold MakeDate, msPerDay, maxTime. lia.
Qed.

Lemma set_step_overflow y m d tm :
  - 271821 < y < 275760 -> 0 <= m <= 10 ->
  DaysInMonth m (leapOf y) < d <= 31 ->
  0 <= tm < msPerDay ->
  exists t1,
    TimeClip (MakeDate (MakeDay y m d) tm) = Some t1 /\
    YearFromTime t1 = y /\ MonthFromTime t1 = m + 1 /\
    DateFromTime t1 = d - DaysInMonth m (leapOf y) /\
    TimeWithinDay t1 = tm.
Proof.
  intros Hy Hm Hd Ht.
  pose proof (leapOf_cases y) as L.
  pose proof (DaysInMonth_pos m (leapOf y)) as P.
  destruct (fields_of_MakeDay_overflow y m d tm Hm Hd Ht) as (F1 & F2 & F3).
  assert (R : - 100000000 <= MakeDay y m d < 100000000)
    by (apply MakeDay_range; lia).
  pose proof (TimeWithinDay_MakeDate (MakeDay y m d) tm Ht) as W.
  exists (MakeDate (MakeDay y m d) tm).
  split; [|now repeat split].
  apply TimeClip_valid. revert R Ht. clear.
  generalize (MakeDay y m d). intros dd.
  unfold MakeDate, msPerDay, maxTime. lia.
Qed.

Lemma setUTCDate_shift t d :
  setUTCDate (Some t) (Some d)
  = TimeClip (t + (d - DateFromTime t) * msPerDay).
Proof.
  unfold setUTCDate. cbn [mbind option_bind]. f_equal.
  assert (E : MakeDay (YearFromTime t) (MonthFromTime t) d
              = Day t + (d - DateFromTime t)).
  { rewrite <- MakeDay_fields. f_equal. lia. }
  rewrite E. pose proof (MakeDate_Day t) as R. revert R.
  generalize (Day t), (TimeWithinDay t), (DateFromTime t).
  intros a b c. unfold MakeDate, msPerDay. lia.
Qed.

(** The time of day survives a move to another day. *)
Lemma time_fields_same_TimeWithinDay t u :
  TimeWithinDay t = TimeWithinDay u ->
  HourFromTime t = HourFromTime u /\
  MinFromTime t = MinFromTime u /\
  SecFromTime t = SecFromTime u.
Proof.
  intros E.
  destruct (time_fields_TimeWithinDay t) as (H1 & H2 & H3 & _).
  destruct (time_fields_TimeWithinDay u) as (G1 & G2 & G3 & _).
  rewrite <- H1, <- H2, <- H3, <- G1, <- G2, <- G3, E. now repeat split.
Qed.



(** X14.  [set] with the day alone is arithmetic on days: the receiver moves by
    the difference between the day given and its day of the month, the
    time of day is kept, and the result is invalid when that leaves the
    range of time values.  No time zone and no two-digit year comes into
    it. *)
Theorem set_day_moves_days x h t values d :
  (utcDate x < length h)%nat ->
  deref h (utcDate x) = Some t ->
  Z.abs t <= maxTime ->
  given values year = None ->
  given values month = None ->
  given values day = Some (Some d) ->
  exists h',
    XB.set x values h = Ok x h' /\
    XB.getTime x h' = TimeClip (t + (d - DateFromTime t) * msPerDay) /\
    (forall l, l <> utcDate x -> deref h' l = deref h l).
Proof.
  intros L Ht V Gy Gm Gd. rewrite set_run by exact L.
  eexists. split; [reflexivity|]. split.
  - unfold XB.getTime. rewrite deref_insert_eq by exact L.
    rewrite Ht, set_result_unfold, Gy, Gm, Gd.
    cbn [default from_option id getUTCFullYear getUTCMonth getUTCDate fmap
         option_fmap option_map JSDate.getTime].
    destruct (setters_current t V) as (-> & -> & _).
    apply setUTCDate_shift.
  - intros l N. apply deref_insert_ne. congruence.
Qed.

Lemma set_day_moves_days_witness :
  exists h',
    XB.set {| utcDate := 0 |} (Some [(day, Some 0)])
      [Some t_2024_03_15_evening] = Ok {| utcDate := 0 |} h' /\
    XB.getTime {| utcDate := 0 |} h'
    = TimeClip (t_2024_03_15_evening
                + (0 - DateFromTime t_2024_03_15_evening) * msPerDay).
Proof.
  assert (V : Z.abs t_2024_03_15_evening <= maxTime)
    by (vm_compute; congruence).
  destruct (set_day_moves_days {| utcDate := 0 |}
              [Some t_2024_03_15_evening] t_2024_03_15_evening
              (Some [(day, Some 0)]) 0 (le_n 1) eq_refl V eq_refl eq_refl
              eq_refl) as (h' & S & G & _).
  exists h'. now split.
Defined.

(** X15.  [set] with year, month and day on a receiver whose day of the month
    is at most 28 gives the date asked for, at the time of day of the
    receiver. *)
Theorem set_fields_round_trip x h t values y m d :
  (utcDate x < length h)%nat ->
  deref h (utcDate x) = Some t ->
  DateFromTime t <= 28 ->
  given values year = Some (Some y) ->
  given values month = Some (Some m) ->
  given values day = Some (Some d) ->
  - 271821 < y < 275760 ->
  0 <= m <= 11 ->
  1 <= d <= DaysInMonth m (leapOf y) ->
  exists h',
    XB.set x values h = Ok x h' /\
    XB.getYear x h' = Some y /\
    XB.getMonth x h' = Some m /\
    XB.getDate x h' = Some d /\
    XB.getHours x h' = XB.getHours x h /\
    XB.getMinutes x h' = XB.getMinutes x h /\
    XB.getSeconds x h' = XB.getSeconds x h.
Proof.
  intros L Ht D28 Gy Gm Gd Hy Hm Hd.
  pose proof (leapOf_cases y) as Lp.
  pose proof (MonthFromTime_range t) as Mr.
  pose proof (DateFromTime_range t) as Dr.
  pose proof (TimeWithinDay_range t) as Wr.
  pose proof (DaysInMonth_pos (MonthFromTime t) (leapOf y)) as P1.
  pose proof (DaysInMonth_pos m (leapOf y)) as P2.
  destruct (set_step y (MonthFromTime t) (DateFromTime t) (TimeWithinDay t))
    as (t1 & C1 & Y1 & M1 & D1 & W1); [lia..|].
  destruct (set_step y m (DateFromTime t) (TimeWithinDay t))
    as (t2 & C2 & Y2 & M2 & D2 & W2); [lia..|].
  destruct (set_step y m d (TimeWithinDay t))
    as (t3 & C3 & Y3 & M3 & D3 & W3); [lia..|].
  assert (R : set_result (Some t) values = Some t3).
  { rewrite set_result_unfold, Gy, Gm, Gd.
    cbn [default from_option id].
    unfold setUTCFullYear. cbn [default from_option id mbind option_bind].
    rewrite C1. unfold setUTCMonth. cbn [mbind option_bind].
    rewrite Y1, D1, W1, C2. unfold setUTCDate. cbn [mbind option_bind].
    now rewrite Y2, M2, W2, C3. }
  rewrite set_run by exact L. eexists. split; [reflexivity|].
  unfold XB.getYear, XB.getMonth, XB.getDate, XB.getHours, XB.getMinutes,
    XB.getSeconds.
  rewrite deref_insert_eq by exact L. rewrite Ht, R.
  cbn [getUTCFullYear getUTCMonth getUTCDate getUTCHours getUTCMinutes
       getUTCSeconds fmap option_fmap option_map].
  destruct (time_fields_same_TimeWithinDay t3 t W3) as (-> & -> & ->).
  rewrite Y3, M3, D3. now repeat split.
Qed.

Lemma set_fields_round_trip_witness :
  exists h',
    XB.set {| utcDate := 0 |}
      (Some [(year, Some 2023); (month, Some 1); (day, Some 28)])
      [Some t_2024_03_15_evening] = Ok {| utcDate := 0 |} h' /\
    XB.getYear {| utcDate := 0 |} h' = Some 2023 /\
    XB.getMonth {| utcDate := 0 |} h' = Some 1 /\
    XB.getDate {| utcDate := 0 |} h' = Some 28.
Proof.
  assert (D : DateFromTime t_2024_03_15_evening <= 28)
    by (vm_compute; congruence).
  assert (Hy : - 271821 < 2023 < 275760) by (split; reflexivity).
  assert (Hm : 0 <= 1 <= 11) by (split; discriminate).
  assert (Hd : 1 <= 28 <= DaysInMonth 1 (leapOf 2023))
    by (split; vm_compute; congruence).
  destruct (set_fields_round_trip {| utcDate := 0 |}
              [Some t_2024_03_15_evening] t_2024_03_15_evening
              (Some [(year, Some 2023); (month, Some 1); (day, Some 28)])
              2023 1 28 (le_n 1) eq_refl D eq_refl eq_refl eq_refl Hy Hm Hd)
    as (h' & S & Gy & Gm & Gd & _).
  exists h'. now repeat split.
Defined.

Lemma next_month_31 m leap :
  0 <= m <= 10 -> 0 <= leap <= 1 ->
  DaysInMonth m leap < 31 -> DaysInMonth (m + 1) leap = 31.
Proof.
  intros Hm Hl. unfold DaysInMonth.
  assert (Cm : m = 0 \/ m = 1 \/ m = 2 \/ m = 3 \/ m = 4 \/ m = 5 \/ m = 6
               \/ m = 7 \/ m = 8 \/ m = 9 \/ m = 10) by lia.
  assert (Cl : leap = 0 \/ leap = 1) by lia.
  destruct Cl as [-> | ->];
    repeat (destruct Cm as [-> | Cm]; [vm_compute; (reflexivity || congruence)|]);
    subst m; vm_compute; (reflexivity || congruence).
Qed.

(** X16.  The setters run one after the other: when the receiver stands on a
    day of the month that the month given does not have, [setUTCMonth]
    runs over into the next month before the day is set, and the result
    is a date of the month after the one asked for: the day given, or the
    receiver's own day when none is given. *)
Theorem set_month_runs_over x h t values m :
  (utcDate x < length h)%nat ->
  deref h (utcDate x) = Some t ->
  Z.abs t <= maxTime ->
  - 271821 < YearFromTime t < 275760 ->
  given values year = None ->
  given values month = Some (Some m) ->
  0 <= m <= 11 ->
  DaysInMonth m (leapOf (YearFromTime t)) < DateFromTime t ->
  exists h',
    XB.set x values h = Ok x h' /\
    (given values day = None ->
     XB.getYear x h' = Some (YearFromTime t) /\
     XB.getMonth x h' = Some (m + 1) /\
     XB.getDate x h' = Some (DateFromTime t)) /\
    (forall d, given values day = Some (Some d) -> 1 <= d <= 31 ->
     XB.getYear x h' = Some (YearFromTime t) /\
     XB.getMonth x h' = Some (m + 1) /\
     XB.getDate x h' = Some d).
Proof.
  intros L Ht V Hy Gy Gm Hm Ov.
  pose proof (leapOf_cases (YearFromTime t)) as Lp.
  pose proof (DateFromTime_range t) as Dr.
  pose proof (TimeWithinDay_range t) as Wr.
  pose proof (DaysInMonth_pos m (leapOf (YearFromTime t))) as P.
  assert (M10 : m <= 10).
  { destruct (Z.eq_dec m 11) as [E|]; [|lia].
    rewrite E, DaysInMonth_11 in Ov. lia. }
  assert (N31 : DaysInMonth (m + 1) (leapOf (YearFromTime t)) = 31)
    by (apply next_month_31; lia).
  destruct (set_step_overflow (YearFromTime t) m (DateFromTime t)
              (TimeWithinDay t))
    as (t2 & C2 & Y2 & M2 & D2 & W2); [lia..|].
  assert (S3 : forall dd, 1 <= dd <= 31 ->
            default (getUTCDate (Some t)) (given values day) = Some dd ->
            exists t3, set_result (Some t) values = Some t3 /\
                       YearFromTime t3 = YearFromTime t /\
                       MonthFromTime t3 = m + 1 /\ DateFromTime t3 = dd).
  { intros dd Hdd Gd.
    destruct (set_step (YearFromTime t) (m + 1) dd (TimeWithinDay t))
      as (t3 & C3 & Y3 & M3 & D3 & W3); [lia..|].
    exists t3. split; [|now repeat split].
    rewrite set_result_unfold, Gy, Gm, Gd.
    cbn [default from_option id getUTCFullYear fmap option_fmap option_map].
    destruct (setters_current t V) as (-> & _ & _).
    unfold setUTCMonth. cbn [mbind option_bind]. rewrite C2.
    unfold setUTCDate. cbn [mbind option_bind].
    now rewrite Y2, M2, W2, C3. }
  rewrite set_run by exact L. eexists. split; [reflexivity|].
  unfold XB.getYear, XB.getMonth, XB.getDate.
  rewrite deref_insert_eq by exact L. rewrite Ht.
  split.
  - intros Gd.
    destruct (S3 (DateFromTime t) Dr) as (t3 & -> & Y3 & M3 & D3);
      [now rewrite Gd|].
    cbn [getUTCFullYear getUTCMonth getUTCDate fmap option_fmap option_map].
    now rewrite Y3, M3, D3.
  - intros d Gd Hd.
    destruct (S3 d Hd) as (t3 & -> & Y3 & M3 & D3); [now rewrite Gd|].
    cbn [getUTCFullYear getUTCMonth getUTCDate fmap option_fmap option_map].
    now rewrite Y3, M3, D3.
Qed.

Lemma set_month_runs_over_witness :
  exists h',
    XB.set {| utcDate := 0 |} (Some [(month, Some 1); (day, Some 15)])
      [Some t_2024_01_31_noon] = Ok {| utcDate := 0 |} h' /\
    XB.getYear {| utcDate := 0 |} h' = Some 2024 /\
    XB.getMonth {| utcDate := 0 |} h' = Some (1 + 1) /\
    XB.getDate {| utcDate := 0 |} h' = Some 15.
Proof.
  assert (V : Z.abs t_2024_01_31_noon <= maxTime) by (vm_compute; congruence).
  assert (Hy : - 271821 < YearFromTime t_2024_01_31_noon < 275760)
    by (split; reflexivity).
  assert (Hm : 0 <= 1 <= 11) by (split; discriminate).
  assert (Ov : DaysInMonth 1 (leapOf (YearFromTime t_2024_01_31_noon))
               < DateFromTime t_2024_01_31_noon) by reflexivity.
  assert (Hd : 1 <= 15 <= 31) by (split; discriminate).
  destruct (set_month_runs_over {| utcDate := 0 |}
              [Some t_2024_01_31_noon] t_2024_01_31_noon
              (Some [(month, Some 1); (day, Some 15)]) 1
              (le_n 1) eq_refl V Hy eq_refl eq_refl Hm Ov)
    as (h' & S & _ & G).
  exists h'. split; [exact S|]. exact (G 15 eq_refl Hd).
Defined.

(** X17.  [set] on an invalid Date Value.  [setUTCFullYear] restarts an invalid
    [Date] from the epoch and the two other setters do not, and a field
    that is not given is read from the receiver, where it is NaN: with
    year, month and day all given the receiver becomes that date at
    midnight UTC, and with any of them left out it stays invalid. *)
Theorem set_on_invalid x h values :
  (utcDate x < length h)%nat ->
  deref h (utcDate x) = NaN ->
  exists h',
    XB.set x values h = Ok x h' /\
    ((exists u, given values u = None) -> XB.getTime x h' = NaN) /\
    (forall y m d,
        given values year = Some (Some y) ->
        given values month = Some (Some m) ->
        given values day = Some (Some d) ->
        - 271821 < y < 275760 ->
        0 <= m <= 11 ->
        1 <= d <= DaysInMonth m (leapOf y) ->
        XB.getYear x h' = Some y /\
        XB.getMonth x h' = Some m /\
        XB.getDate x h' = Some d /\
        XB.getHours x h' = Some 0 /\
        XB.getMinutes x h' = Some 0 /\
        XB.getSeconds x h' = Some 0).
Proof.
  intros L Ht. rewrite set_run by exact L. eexists. split; [reflexivity|].
  unfold XB.getTime, XB.getYear, XB.getMonth, XB.getDate, XB.getHours,
    XB.getMinutes, XB.getSeconds.
  rewrite deref_insert_eq by exact L. rewrite Ht, set_result_unfold.
  split.
  - intros [[| |] G]; rewrite G.
    + reflexivity.
    + cbn [default from_option id getUTCMonth fmap option_fmap option_map].
      unfold setUTCMonth, setUTCDate.
      destruct (setUTCFullYear _ _); reflexivity.
    + cbn [default from_option id getUTCDate fmap option_fmap option_map].
      unfold setUTCDate.
      destruct (setUTCMonth _ _); reflexivity.
  - intros y m d Gy Gm Gd Hy Hm Hd.
    pose proof (leapOf_cases y) as Lp.
    pose proof (DaysInMonth_pos 0 (leapOf y)) as P1.
    pose proof (DaysInMonth_pos m (leapOf y)) as P2.
    assert (W0 : 0 <= 0 < msPerDay) by (split; [discriminate|reflexivity]).
    destruct (set_step y 0 1 0) as (t1 & C1 & Y1 & M1 & D1 & W1); [lia..|].
    destruct (set_step y m 1 0) as (t2 & C2 & Y2 & M2 & D2 & W2); [lia..|].
    destruct (set_step y m d 0) as (t3 & C3 & Y3 & M3 & D3 & W3); [lia..|].
    rewrite Gy, Gm, Gd. cbn [default from_option id].
    unfold setUTCFullYear. cbn [default from_option id mbind option_bind].
    change (MonthFromTime (default 0 NaN)) with 0.
    change (DateFromTime (default 0 NaN)) with 1.
    change (TimeWithinDay (default 0 NaN)) with 0.
    rewrite C1. unfold setUTCMonth. cbn [mbind option_bind].
    rewrite Y1, D1, W1, C2. unfold setUTCDate. cbn [mbind option_bind].
    rewrite Y2, M2, W2, C3.
    cbn [getUTCFullYear getUTCMonth getUTCDate getUTCHours getUTCMinutes
         getUTCSeconds fmap option_fmap option_map].
    destruct (time_fields_same_TimeWithinDay t3 0) as (-> & -> & ->);
      [exact W3|].
    rewrite Y3, M3, D3. now repeat split.
Qed.

Lemma set_on_invalid_witness :
  exists h',
    XB.set {| utcDate := 0 |} (Some [(year, Some 2024); (day, Some 15)])
      [NaN] = Ok {| utcDate := 0 |} h' /\
    XB.getTime {| utcDate := 0 |} h' = NaN.
Proof.
  destruct (set_on_invalid {| utcDate := 0 |} [NaN]
              (Some [(year, Some 2024); (day, Some 15)]) (le_n 1) eq_refl)
    as (h' & S & G & _).
  exists h'. split; [exact S|]. apply G. now exists month.
Defined.

(** ** [is]: invalid dates, and how the operators relate *)

Lemma compare_bool a b :
  XB.compare ">=" (Some a) (Some b) = (b <=? a) /\
  XB.compare ">" (Some a) (Some b) = (b <? a) /\
  XB.compare "<" (Some a) (Some b) = (a <? b) /\
  XB.compare "<=" (Some a) (Some b) = (a <=? b) /\
  XB.compare "=" (Some a) (Some b) = (a =? b).
Proof. rewrite !compare_unfold. repeat split; reflexivity. Qed.

Lemma is_valid operator other precision x h t u :
  deref h (utcDate x) = Some t ->
  deref h (utcDate other) = Some u ->
  XB.is_ operator other precision x h
  = XB.compare operator
      (Some (comparable_number t (default day precision)))
      (Some (comparable_number u (default day precision))).
Proof.
  intros Ht Hu. unfold XB.is_, XB.get. rewrite Ht, Hu.
  now rewrite !getComparableDate_value.
Qed.

(** X18.  An invalid Date Value compares false with everything, itself
    included, under every operator (recognized or not) and at every
    precision; so [is('<', d)] and [is('>=', d)] are both false. *)
Theorem is_invalid_false x other h operator precision :
  deref h (utcDate x) = NaN \/ deref h (utcDate other) = NaN ->
  XB.is_ operator other precision x h = false.
Proof.
  intros H. unfold XB.is_, XB.get. rewrite compare_unfold.
  destruct H as [-> | ->]; rewrite getComparableDate_invalid.
  - reflexivity.
  - now destruct (Number_of_string _).
Qed.

Lemma is_invalid_false_witness :
  XB.is_ "=" {| utcDate := 0 |} None {| utcDate := 0 |} [NaN] = false.
Proof.
  exact (is_invalid_false {| utcDate := 0 |} {| utcDate := 0 |} [NaN]
           "=" None (or_introl eq_refl)).
Defined.

(** X19.  Between two valid Date Values the five operators of [is] are one
    order, at every precision: [>=] is [>] or [=], [<] is the negation of
    [>=], [>] one way is [<] the other way, and [=] is symmetric and holds
    of a Date Value and itself. *)
Theorem is_operators_consistent x other h precision t u :
  deref h (utcDate x) = Some t ->
  deref h (utcDate other) = Some u ->
  XB.is_ ">=" other precision x h
  = XB.is_ ">" other precision x h || XB.is_ "=" other precision x h /\
  XB.is_ "<=" other precision x h
  = XB.is_ "<" other precision x h || XB.is_ "=" other precision x h /\
  XB.is_ "<" other precision x h
  = negb (XB.is_ ">=" other precision x h) /\
  XB.is_ ">" other precision x h
  = negb (XB.is_ "<=" other precision x h) /\
  XB.is_ ">" other precision x h = XB.is_ "<" x precision other h /\
  XB.is_ "=" other precision x h = XB.is_ "=" x precision other h /\
  XB.is_ "=" x precision x h = true.
Proof.
  intros Ht Hu.
  rewrite !(is_valid _ other precision x h t u Ht Hu).
  rewrite !(is_valid _ x precision other h u t Hu Ht).
  rewrite !(is_valid _ x precision x h t t Ht Ht).
  generalize (comparable_number t (default day precision)).
  generalize (comparable_number u (default day precision)).
  intros b a.
  destruct (compare_bool a b) as (-> & -> & -> & -> & ->).
  destruct (compare_bool b a) as (_ & _ & -> & _ & ->).
  destruct (compare_bool a a) as (_ & _ & _ & _ & ->).
  destruct (Z.leb_spec b a), (Z.ltb_spec b a), (Z.ltb_spec a b),
    (Z.leb_spec a b), (Z.eqb_spec a b), (Z.eqb_spec b a),
    (Z.eqb_spec a a); cbn [orb negb]; repeat split; (reflexivity || lia).
Qed.

Lemma is_operators_consistent_witness :
  XB.is_ "<" {| utcDate := 1 |} (Some month) {| utcDate := 0 |}
    [Some t_minus1_01_01; Some t_2024_03_15]
  = negb (XB.is_ ">=" {| utcDate := 1 |} (Some month) {| utcDate := 0 |}
            [Some t_minus1_01_01; Some t_2024_03_15]).
Proof.
  destruct (is_operators_consistent {| utcDate := 0 |} {| utcDate := 1 |}
              [Some t_minus1_01_01; Some t_2024_03_15] (Some month)
              t_minus1_01_01 t_2024_03_15 eq_refl eq_refl)
    as (_ & _ & E & _).
  exact E.
Defined.

(** ** [is] in every year *)

Lemma comparable_number_year t :
  comparable_number t year = YearFromTime t.
Proof. unfold comparable_number. destruct (_ <? _); lia. Qed.

Lemma comparable_number_eq precision t u :
  comparable_number t precision = comparable_number u precision <->
  calendar_fields t precision = calendar_fields u precision.
Proof.
  pose proof (MonthFromTime_range t) as Mt.
  pose proof (MonthFromTime_range u) as Mu.
  pose proof (DateFromTime_range t) as Dt.
  pose proof (DateFromTime_range u) as Du.
  unfold comparable_number, calendar_fields. cbv beta zeta.
  destruct precision; cbn [XB.COMPARE_TO take];
    destruct (Z.ltb_spec (YearFromTime t) 0),
      (Z.ltb_spec (YearFromTime u) 0);
    (split;
     [intros E;
      assert (EY : YearFromTime t = YearFromTime u) by lia;
      try assert (EM : MonthFromTime t = MonthFromTime u) by lia;
      try assert (ED : DateFromTime t = DateFromTime u) by lia;
      congruence
     |intros E; injection E; intros; lia]).
Qed.

Lemma calendar_fields_day t u :
  calendar_fields t day = calendar_fields u day <-> Day t = Day u.
Proof.
  rewrite <- Z.compare_eq_iff, <- calendar_compare_day.
  unfold calendar_compare, calendar_fields. cbn [XB.COMPARE_TO take].
  split.
  - intros E. injection E as -> -> ->. cbn [lex_compare].
    now rewrite !Z.compare_refl.
  - cbn [lex_compare]. intros E.
    destruct (Z.compare_spec (YearFromTime t) (YearFromTime u));
      try discriminate E.
    destruct (Z.compare_spec (MonthFromTime t) (MonthFromTime u));
      try discriminate E.
    destruct (Z.compare_spec (DateFromTime t) (DateFromTime u));
      try discriminate E.
    congruence.
Qed.

(** X20.  In every year, also before the year 0: at the precision of the year
    the operators of [is] are the order of the years, and [is('=')]
    decides the same year and month at the precision of the month and the
    same UTC day at the precision of the day, which is the default. *)
Theorem is_every_year x other h t u :
  deref h (utcDate x) = Some t ->
  deref h (utcDate other) = Some u ->
  (XB.is_ ">=" other (Some year) x h = true
   <-> YearFromTime u <= YearFromTime t) /\
  (XB.is_ ">" other (Some year) x h = true
   <-> YearFromTime u < YearFromTime t) /\
  (XB.is_ "<" other (Some year) x h = true
   <-> YearFromTime t < YearFromTime u) /\
  (XB.is_ "<=" other (Some year) x h = true
   <-> YearFromTime t <= YearFromTime u) /\
  (XB.is_ "=" other (Some month) x h = true
   <-> YearFromTime t = YearFromTime u /\
       MonthFromTime t = MonthFromTime u) /\
  (XB.is_ "=" other (Some day) x h = true <-> Day t = Day u) /\
  (XB.is_ "=" other None x h = true <-> Day t = Day u).
Proof.
  intros Ht Hu. rewrite !(is_valid _ other _ x h t u Ht Hu).
  cbn [default from_option id]. rewrite !comparable_number_year.
  destruct (compare_bool (YearFromTime t) (YearFromTime u))
    as (-> & -> & -> & -> & _).
  destruct (compare_bool (comparable_number t month)
              (comparable_number u month)) as (_ & _ & _ & _ & ->).
  destruct (compare_bool (comparable_number t day)
              (comparable_number u day)) as (_ & _ & _ & _ & ->).
  rewrite Z.leb_le, Z.ltb_lt, Z.ltb_lt, Z.leb_le, !Z.eqb_eq.
  rewrite !comparable_number_eq, calendar_fields_day.
  unfold calendar_fields. cbn [XB.COMPARE_TO take].
  repeat split; try tauto;
    try match goal with E : _ :: _ = _ :: _ |- _ => now injection E end.
  intros [E1 E2]. congruence.
Qed.

Lemma is_every_year_witness :
  XB.is_ "<" {| utcDate := 1 |} (Some year) {| utcDate := 0 |}
    [Some t_minus1_12_31; Some t_2024_03_15] = true.
Proof.
  destruct (is_every_year {| utcDate := 0 |} {| utcDate := 1 |}
              [Some t_minus1_12_31; Some t_2024_03_15]
              t_minus1_12_31 t_2024_03_15 eq_refl eq_refl)
    as (_ & _ & L & _).
  apply L. reflexivity.
Defined.

(** ** [toString] *)

Lemma length_append (s1 s2 : string) :
  String.length (s1 ++ s2)%string
  = (String.length s1 + String.length s2)%nat.
Proof. induction s1 as [|c s1 IH]; cbn; [reflexivity|now rewrite IH]. Qed.

Lemma length_repeat_char c n : String.length (repeat_char c n) = n.
Proof. induction n as [|n IH]; cbn; [reflexivity|now rewrite IH]. Qed.

Lemma length_padStart s n c :
  String.length (padStart s n c) = Nat.max n (String.length s).
Proof.
  unfold padStart. rewrite length_append, length_repeat_char. lia.
Qed.

Lemma length_digits f n (k : nat) :
  0 <= n < 10 ^ Z.of_nat k -> (1 <= k)%nat ->
  (String.length (digits f n) <= k)%nat.
Proof.
  revert n k. induction f as [|f IH]; intros n k Hn Hk; [cbn; lia|].
  cbn [digits]. destruct (Z.ltb_spec n 10) as [C|C]; [cbn; lia|].
  rewrite length_append. cbn [String.length].
  destruct k as [|[|k]]; [lia| |].
  - change (10 ^ Z.of_nat 1) with 10 in Hn. lia.
  - assert (E : 10 ^ Z.of_nat (S (S k)) = 10 * 10 ^ Z.of_nat (S k)).
    { rewrite (Nat2Z.inj_succ (S k)). apply Z.pow_succ_r. lia. }
    rewrite E in Hn.
    assert (B : 0 <= n / 10 < 10 ^ Z.of_nat (S k)).
    { revert Hn. generalize (10 ^ Z.of_nat (S k)). intros p Hn. div_lia. }
    specialize (IH (n / 10) (S k) B). lia.
Qed.

(** A number below [10 ^ k] padded to [k] places takes [k] places. *)
Lemma length_padded n (k : nat) :
  0 <= n < 10 ^ Z.of_nat k -> (1 <= k)%nat ->
  String.length (padStart (String_of_Z n) k "0"%char) = k.
Proof.
  intros Hn Hk. rewrite length_padStart. unfold String_of_Z.
  destruct (Z.ltb_spec n 0) as [C|C]; [lia|].
  pose proof (length_digits (S (Z.to_nat (Z.log2 n))) n k Hn Hk). lia.
Qed.

Lemma length_isoYear y :
  - 271821 <= y <= 275760 ->
  String.length (isoYear y)
  = if (0 <=? y) && (y <=? 9999) then 4%nat else 7%nat.
Proof.
  intros Hy. unfold isoYear.
  destruct (Z.leb_spec 0 y), (Z.leb_spec y 9999); cbn [andb];
    cbn [String.length]; rewrite length_padded; try reflexivity;
    try (change (10 ^ Z.of_nat 4) with 10000;
         change (10 ^ Z.of_nat 6) with 1000000; lia); lia.
Qed.

Lemma isoTime_noon d : isoTime (MakeDate d noon) = "12:00:00.000"%string.
Proof.
  unfold isoTime.
  destruct (time_fields_of_noon d) as (-> & -> & -> & ->). reflexivity.
Qed.

(** X21.  The length of the text of a valid Date Value: 24 characters in the
    years 0 to 9999 and 27 in the others. *)
Theorem toString_length x h t :
  deref h (utcDate x) = Some t ->
  Z.abs t <= maxTime ->
  exists s,
    toString x h = ISOString s /\
    String.length s
    = if (0 <=? YearFromTime t) && (YearFromTime t <=? 9999)
      then 24%nat else 27%nat.
Proof.
  intros Ht V. unfold toString. rewrite Ht. cbn [toISOString].
  eexists. split; [reflexivity|].
  pose proof (YearFromTime_range t V) as Hy.
  pose proof (MonthFromTime_range t) as Hm.
  pose proof (DateFromTime_range t) as Hd.
  assert (Hh : 0 <= HourFromTime t < 24)
    by (unfold HourFromTime; div_lia).
  assert (Hi : 0 <= MinFromTime t < 60) by (unfold MinFromTime; div_lia).
  assert (Hs : 0 <= SecFromTime t < 60) by (unfold SecFromTime; div_lia).
  assert (Hl : 0 <= msFromTime t < 1000)
    by (unfold msFromTime, msPerSecond; div_lia).
  unfold isoDate, isoTime. rewrite !length_append.
  rewrite (length_isoYear _ Hy).
  rewrite !length_padded;
    try (change (10 ^ Z.of_nat 2) with 100;
         change (10 ^ Z.of_nat 3) with 1000; lia); try lia.
  cbn [String.length]. destruct (_ && _); reflexivity.
Qed.

Lemma toString_length_witness :
  exists s,
    toString {| utcDate := 0 |} [Some t_minus1_12_31] = ISOString s /\
    String.length s = 27%nat.
Proof.
  assert (V : Z.abs t_minus1_12_31 <= maxTime) by (vm_compute; congruence).
  destruct (toString_length {| utcDate := 0 |} [Some t_minus1_12_31]
              t_minus1_12_31 eq_refl V) as (s & E & L).
  exists s. split; [exact E|exact L].
Defined.

(** X22.  [toString] of what the factory returns: a [RangeError] when the input
    is invalid, and also when the input is the last instant and the
    factory normalizes; under normalization every text there is ends in
    [T12:00:00.000Z]. *)
Theorem toString_of_factory env dateArg optionsArg h :
  exists x h',
    XBDateFactory env dateArg optionsArg h = Ok x h' /\
    (input_date env dateArg = NaN -> toString x h' = RangeError) /\
    (normalizes optionsArg = true ->
     input_date env dateArg = Some maxTime ->
     toString x h' = RangeError) /\
    (normalizes optionsArg = true ->
     forall t, XB.getTime x h' = Some t ->
       toString x h' = ISOString (isoDate t ++ "T12:00:00.000Z")%string).
Proof.
  rewrite XBDateFactory_run. eexists _, _. split; [reflexivity|].
  unfold toString, XB.getTime. cbn [utcDate]. rewrite deref_alloc.
  split; [|split].
  - intros I. rewrite normalizeToUTC_unfold, I. reflexivity.
  - intros N I. rewrite normalizeToUTC_unfold, I.
    unfold normalizes in N. rewrite N. reflexivity.
  - intros N t E. unfold normalizes in N.
    destruct (normalizeToUTC_normalized env dateArg _ N)
      as [E'|(t' & E' & _ & _ & _ & D)];
      rewrite E' in *; [discriminate E|].
    injection E as <-. cbn [toISOString]. rewrite <- D at 2.
    now rewrite isoTime_noon.
Qed.

Lemma toString_of_factory_witness :
  exists x h',
    XBDateFactory utc_env (Some (Timestamp (Some t_2024_03_15_evening)))
      None [] = Ok x h' /\
    toString x h' = ISOString "2024-03-15T12:00:00.000Z".
Proof.
  destruct (toString_of_factory utc_env
              (Some (Timestamp (Some t_2024_03_15_evening))) None [])
    as (x & h' & F & _ & _ & S).
  exists x, h'. split; [exact F|].
  vm_compute in F. injection F as <- <-.
  exact (S eq_refl (t_2024_03_15 + noon) eq_refl).
Defined.
